(** * A shallow embedding of the scheduling core of gantt-flow

    The development follows the TypeScript sources:
    - [DateUtils] (utils.ts): parsing, formatting and day arithmetic of dates;
    - [Types]: the task and dependency records of types.ts;
    - [TaskManager] (TaskManager.ts): task and dependency CRUD, cycle check,
      hierarchy queries and progress;
    - [TaskUtils] (utils.ts): the dependency-aware auto-scheduler;
    - [StateManager] (StateManager.ts): dispatch, batching and undo/redo.

    JavaScript objects that the code mutates in place and reaches through
    several references (task objects held both by the task list and by the
    [children] arrays, dependency objects whose identity is returned to the
    caller) live in an explicit heap addressed by locations. *)

From Stdlib Require Import String Ascii ZArith List Bool Lia.
From Stdlib Require Import DecimalString Permutation.
Import ListNotations.


Local Open Scope Z_scope.

(** ** Task ids

    [TaskId] is [string | number] in types.ts; the numbers used as ids are
    integers. Equality is JavaScript's strict equality [===]. *)

Inductive TaskId : Type :=
| TNum (n : Z)
| TStr (s : string).

Definition TaskId_eqb (a b : TaskId) : bool :=
  match a, b with
  | TNum x, TNum y => Z.eqb x y
  | TStr x, TStr y => String.eqb x y
  | _, _ => false
  end.

(** JavaScript truthiness of an id ([0] and [""] are falsy). *)
Definition id_truthy (i : TaskId) : bool :=
  match i with
  | TNum n => negb (Z.eqb n 0)
  | TStr s => negb (String.eqb s "")
  end.

Definition Z_to_string (z : Z) : string := NilZero.string_of_int (Z.to_int z).

(** Template-literal rendering of an id ([`${id}`]). *)
Definition TaskId_to_string (i : TaskId) : string :=
  match i with
  | TNum n => Z_to_string n
  | TStr s => s
  end.

(** [Array.prototype.includes] / [Set.prototype.has] on ids. *)
Definition mem (x : TaskId) (l : list TaskId) : bool := existsb (TaskId_eqb x) l.

(** [Set.prototype.add]: insertion order, no duplicates. *)
Definition set_add (x : TaskId) (l : list TaskId) : list TaskId :=
  if mem x l then l else l ++ [x].

(** [Set.prototype.delete]. *)
Definition set_delete (x : TaskId) (l : list TaskId) : list TaskId :=
  filter (fun y => negb (TaskId_eqb x y)) l.

(** ** Dates

    A [Date] is a time value or the invalid date (NaN). All dates the core
    builds are calendar days: a string [YYYY-MM-DD] is read at UTC midnight
    and printed with the local getters, [addDays] moves the local calendar
    day and [daysBetween] subtracts local calendar days. The model records
    the calendar day only: a [JValid d] is day [d] counted from 1970-01-01.
    This is exact when the runtime's UTC offset lies in [0, 24h) (UTC and
    every zone east of it), where the local day of UTC midnight of a day is
    that same day; [now] stands for the day of [new Date()]. *)

Inductive JDate : Type :=
| JValid (day : Z)
| JInvalid.

Module DateUtils.

(** ECMAScript's MakeDay on a proleptic Gregorian calendar
    (month [m] in 1..12, day of month [d]). *)
Definition days_from_civil (y m d : Z) : Z :=
  let y' := if m <=? 2 then y - 1 else y in
  let era := y' / 400 in
  let yoe := y' - era * 400 in
  let mp := (m + 9) mod 12 in
  let doy := (153 * mp + 2) / 5 + d - 1 in
  let doe := yoe * 365 + yoe / 4 - yoe / 100 + doy in
  era * 146097 + doe - 719468.

(** YearFromTime, MonthFromTime (1..12) and DateFromTime of a day. *)
Definition civil_from_days (z : Z) : Z * Z * Z :=
  let z := z + 719468 in
  let era := z / 146097 in
  let doe := z - era * 146097 in
  let yoe := (doe - doe / 1460 + doe / 36524 - doe / 146096) / 365 in
  let y := yoe + era * 400 in
  let doy := doe - (365 * yoe + yoe / 4 - yoe / 100) in
  let mp := (5 * doy + 2) / 153 in
  let d := doy - (153 * mp + 2) / 5 + 1 in
  let m := if mp <? 10 then mp + 3 else mp - 9 in
  (if m <=? 2 then y + 1 else y, m, d).

Definition is_leap (y : Z) : bool :=
  (Z.eqb (y mod 4) 0 && negb (Z.eqb (y mod 100) 0)) || Z.eqb (y mod 400) 0.

Definition days_in_month (y m : Z) : Z :=
  if Z.eqb m 2 then (if is_leap y then 29 else 28)
  else if (Z.eqb m 4 || Z.eqb m 6 || Z.eqb m 9 || Z.eqb m 11) then 30 else 31.

Definition digit (c : ascii) : option Z :=
  let n := Z.of_nat (nat_of_ascii c) in
  if (48 <=? n) && (n <=? 57) then Some (n - 48) else None.

(** Exactly [n] decimal digits at the front of [s]. *)
Fixpoint read_digits (n : nat) (acc : Z) (s : string) : option (Z * string) :=
  match n with
  | O => Some (acc, s)
  | S k =>
      match s with
      | String c r =>
          match digit c with
          | Some v => read_digits k (acc * 10 + v) r
          | None => None
          end
      | EmptyString => None
      end
  end.

(** [new Date(str)] on the date-only forms of the ECMAScript date time
    string format ([YYYY], [YYYY-MM], [YYYY-MM-DD], read as UTC); a date
    with an out-of-range field is the invalid date. Strings outside these
    forms are taken as unrecognised (the engine-specific fallback formats
    are not modelled). *)
Definition parse_iso_date (s : string) : JDate :=
  match read_digits 4 0 s with
  | Some (y, EmptyString) => JValid (days_from_civil y 1 1)
  | Some (y, String "-" r) =>
      match read_digits 2 0 r with
      | Some (m, EmptyString) =>
          if (1 <=? m) && (m <=? 12) then JValid (days_from_civil y m 1) else JInvalid
      | Some (m, String "-" r') =>
          match read_digits 2 0 r' with
          | Some (d, EmptyString) =>
              if (1 <=? m) && (m <=? 12) && (1 <=? d) && (d <=? days_in_month y m)
              then JValid (days_from_civil y m d) else JInvalid
          | _ => JInvalid
          end
      | _ => JInvalid
      end
  | _ => JInvalid
  end.

Definition is_ws (c : ascii) : bool :=
  let n := nat_of_ascii c in
  (Nat.eqb n 32 || Nat.eqb n 9 || Nat.eqb n 10 || Nat.eqb n 11 || Nat.eqb n 12 || Nat.eqb n 13)%nat.

Fixpoint skip_ws (s : string) : string :=
  match s with
  | String c r => if is_ws c then skip_ws r else s
  | EmptyString => s
  end.

(** The longest run of leading digits, with the number of digits read. *)
Fixpoint leading_digits (acc : Z) (cnt : nat) (s : string) : Z * nat :=
  match s with
  | String c r =>
      match digit c with
      | Some v => leading_digits (acc * 10 + v) (S cnt) r
      | None => (acc, cnt)
      end
  | EmptyString => (acc, cnt)
  end.

(** [parseInt(s, 10)]; [None] is NaN. *)
Definition parseInt (s : string) : option Z :=
  let s := skip_ws s in
  let '(sign, body) :=
    match s with
    | String "-" r => (-1, r)
    | String "+" r => (1, r)
    | _ => (1, s)
    end in
  let '(v, cnt) := leading_digits 0 O body in
  match cnt with
  | O => None
  | _ => Some (sign * v)
  end.

(** [new Date(y, m, d)] in local time ([m] counted from 0); a NaN
    argument gives the invalid date, years 0..99 mean 1900..1999 and
    TimeClip rejects days beyond 10^8 from the epoch. *)
Definition make_local_date (y m d : option Z) : JDate :=
  match y, m, d with
  | Some y, Some m, Some d =>
      let y := if (0 <=? y) && (y <=? 99) then 1900 + y else y in
      let day := days_from_civil (y + m / 12) (m mod 12 + 1) 1 + d - 1 in
      if Z.abs day <=? 100000000 then JValid day else JInvalid
  | _, _, _ => JInvalid
  end.

(** [str.split('-')]. *)
Fixpoint split_dash (s : string) : list string :=
  match s with
  | EmptyString => [EmptyString]
  | String c r =>
      if Ascii.eqb c "-"%char then EmptyString :: split_dash r
      else match split_dash r with
           | p :: ps => String c p :: ps
           | [] => [String c EmptyString]
           end
  end.

(** [DateUtils.parseDate] on a string. *)
Definition parseDate (now : Z) (dateStr : string) : JDate :=
  if String.eqb dateStr "" then JValid now else
  match parse_iso_date dateStr with
  | JValid d => JValid d
  | JInvalid =>
      match split_dash dateStr with
      | [p0; p1; p2] =>
          make_local_date (parseInt p0) (option_map (fun m => m - 1) (parseInt p1)) (parseInt p2)
      | _ => JValid now
      end
  end.

Definition pad2 (n : Z) : string :=
  if n <? 10 then "0" ++ Z_to_string n else Z_to_string n.

(** [DateUtils.format(date)] with the default pattern [YYYY-MM-DD]; the
    getters of the invalid date are NaN. *)
Definition format (date : JDate) : string :=
  match date with
  | JInvalid => "NaN-NaN-NaN"
  | JValid z =>
      let '(y, m, d) := civil_from_days z in
      Z_to_string y ++ "-" ++ pad2 m ++ "-" ++ pad2 d
  end.

(** [DateUtils.addDays]; a NaN day count gives the invalid date. *)
Definition addDays (date : JDate) (days : option Z) : JDate :=
  match date, days with
  | JValid d, Some n => JValid (d + n)
  | _, _ => JInvalid
  end.

(** [DateUtils.daysBetween]; [None] is NaN. *)
Definition daysBetween (startDate endDate : JDate) : option Z :=
  match startDate, endDate with
  | JValid s, JValid e => Some (e - s)
  | _, _ => None
  end.

(** [a > b] on dates (comparison of time values; NaN compares false). *)
Definition date_gt (a b : JDate) : bool :=
  match a, b with
  | JValid x, JValid y => y <? x
  | _, _ => false
  end.

End DateUtils.

(** ** Tasks and dependencies (types.ts) *)

Inductive TaskType : Type := task | milestone | project.

Definition TaskType_eqb (a b : TaskType) : bool :=
  match a, b with
  | task, task | milestone, milestone | project, project => true
  | _, _ => false
  end.

Inductive DependencyType : Type :=
| finish_to_start | start_to_start | finish_to_finish | start_to_finish.

Definition DependencyType_eqb (a b : DependencyType) : bool :=
  match a, b with
  | finish_to_start, finish_to_start | start_to_start, start_to_start
  | finish_to_finish, finish_to_finish | start_to_finish, start_to_finish => true
  | _, _ => false
  end.

(** Heap locations of JavaScript objects. *)
Definition loc := nat.

(** A task object. [children] holds references to task objects (heap
    locations of [TaskManager]); [assignees], [assignee] and [metadata] are
    copied through untouched by the core and are left out. *)
Record Task : Type := mkTask {
  id : TaskId;
  name : string;
  start : string;
  end_ : string;
  type_ : TaskType;
  progress : Z;
  color : string;
  collapsed : bool;
  draggable : bool;
  resizable : bool;
  readonly : bool;
  dependencies : list TaskId;
  dependsOn : list TaskId;
  parentId : option TaskId;
  children : list loc;
  critical : bool
}.

Record Dependency : Type := mkDependency {
  fromId : TaskId;
  toId : TaskId;
  dep_type : DependencyType;
  lag : Z
}.

(** [Partial<Task>]: [None] is an absent (undefined) field. *)
Record TaskData : Type := mkTaskData {
  d_id : option TaskId;
  d_name : option string;
  d_start : option string;
  d_end : option string;
  d_type : option TaskType;
  d_progress : option Z;
  d_color : option string;
  d_collapsed : option bool;
  d_draggable : option bool;
  d_resizable : option bool;
  d_readonly : option bool;
  d_dependencies : option (list TaskId);
  d_dependsOn : option (list TaskId);
  d_parentId : option TaskId;
  d_children : option (list loc);
  d_critical : option bool
}.

Definition noData : TaskData :=
  mkTaskData None None None None None None None None None None None None None None None None.

(** [t.parentId === p]. *)
Definition parent_is (t : Task) (p : TaskId) : bool :=
  match parentId t with
  | Some q => TaskId_eqb q p
  | None => false
  end.

Definition set_children (t : Task) (ch : list loc) : Task :=
  mkTask (id t) (name t) (start t) (end_ t) (type_ t) (progress t) (color t)
    (collapsed t) (draggable t) (resizable t) (readonly t) (dependencies t)
    (dependsOn t) (parentId t) ch (critical t).

Definition set_links (t : Task) (deps dson : list TaskId) : Task :=
  mkTask (id t) (name t) (start t) (end_ t) (type_ t) (progress t) (color t)
    (collapsed t) (draggable t) (resizable t) (readonly t) deps dson
    (parentId t) (children t) (critical t).

Definition set_dates (t : Task) (s e : string) : Task :=
  mkTask (id t) (name t) s e (type_ t) (progress t) (color t)
    (collapsed t) (draggable t) (resizable t) (readonly t) (dependencies t)
    (dependsOn t) (parentId t) (children t) (critical t).

(** Reading and writing a heap cell; a write outside the heap does nothing. *)
Definition deref {A} (h : list A) (l : loc) : option A := nth_error h l.

Fixpoint hset {A} (h : list A) (l : loc) (x : A) : list A :=
  match h, l with
  | [], _ => []
  | _ :: r, O => x :: r
  | y :: r, S k => y :: hset r k x
  end.

(** The first location of [ls] whose object satisfies [p]
    ([Array.prototype.find] on an array of object references). *)
Fixpoint find_loc {A} (h : list A) (ls : list loc) (p : A -> bool) : option loc :=
  match ls with
  | [] => None
  | l :: r =>
      match deref h l with
      | Some t => if p t then Some l else find_loc h r p
      | None => find_loc h r p
      end
  end.

(** The objects an array of references points to, in order. *)
Definition view {A} (h : list A) (ls : list loc) : list A :=
  flat_map (fun l => match deref h l with Some t => [t] | None => [] end) ls.

Module TaskManagerOptions.
Record t : Type := mk {
  autoCalculateDuration : bool;
  autoCalculateProgress : bool;
  checkCircularDependencies : bool;
  defaultTaskType : TaskType;
  defaultTaskColor : string;
  defaultMilestoneColor : string;
  defaultProjectColor : string
}.
(** The defaults the constructor spreads the caller's options over. *)
Definition defaults : t :=
  mk true false true task "#4e85c5" "#722ed1" "#fa8c16".
End TaskManagerOptions.

(** ** TaskManager (TaskManager.ts) *)
Module TaskManager.

(** The manager's fields: [tasks] and [dependencies_] are arrays of
    references into [heap] and [depHeap]. *)
Record TaskManager : Type := mkTM {
  heap : list Task;
  tasks : list loc;
  depHeap : list Dependency;
  dependencies_ : list loc;
  nextId : Z;
  options : TaskManagerOptions.t
}.

(** [new TaskManager(options)]. *)
Definition create (o : TaskManagerOptions.t) : TaskManager := mkTM [] [] [] [] 1 o.

Definition set_heap (tm : TaskManager) (h : list Task) : TaskManager :=
  mkTM h (tasks tm) (depHeap tm) (dependencies_ tm) (nextId tm) (options tm).

(** [getTasks()] and [getDependencies()] (copies of the arrays; here the
    objects they reference). *)
Definition getTasks (tm : TaskManager) : list Task := view (heap tm) (tasks tm).
Definition getDependencies (tm : TaskManager) : list Dependency :=
  view (depHeap tm) (dependencies_ tm).

Definition task_ids (tm : TaskManager) : list TaskId := map id (getTasks tm).

Definition find_task (tm : TaskManager) (i : TaskId) : option loc :=
  find_loc (heap tm) (tasks tm) (fun t => TaskId_eqb (id t) i).

(** [_generateId]: the [while] loop advancing [nextId] past used ids. It
    stops after at most [length ids] steps, which is the fuel given. *)
Fixpoint gen_loop (fuel : nat) (ids : list TaskId) (n : Z) : Z :=
  match fuel with
  | O => n
  | S f => if mem (TNum n) ids then gen_loop f ids (n + 1) else n
  end.

Definition _generateId (tm : TaskManager) : Z :=
  let ids := task_ids tm in gen_loop (S (length ids)) ids (nextId tm).

(** [_updateParentTaskChildren(parentId)]. *)
Definition _updateParentTaskChildren (tm : TaskManager) (pid : TaskId) : TaskManager :=
  match find_task tm pid with
  | None => tm
  | Some pl =>
      let ch := filter (fun l => match deref (heap tm) l with
                                 | Some t => parent_is t pid
                                 | None => false
                                 end) (tasks tm) in
      match deref (heap tm) pl with
      | Some pt => set_heap tm (hset (heap tm) pl (set_children pt ch))
      | None => tm
      end
  end.

Definition truthy_str (o : option string) : option string :=
  match o with
  | Some s => if String.eqb s "" then None else Some s
  | None => None
  end.

(** [createTask(taskData)]; [now] is the day of [new Date()]. Returns the
    location of the new task object and the manager after the call. *)
Definition createTask (tm : TaskManager) (now : Z) (td : TaskData) : loc * TaskManager :=
  let o := options tm in
  let '(tid, nid) :=
    match d_id td with
    | Some i => if id_truthy i then (i, nextId tm)
                else let n := _generateId tm in (TNum n, n)
    | None => let n := _generateId tm in (TNum n, n)
    end in
  let st := match truthy_str (d_start td) with
            | Some s => DateUtils.parseDate now s
            | None => JValid now
            end in
  let en := match truthy_str (d_end td) with
            | Some s => DateUtils.parseDate now s
            | None => DateUtils.addDays st (Some 1)
            end in
  let col := match truthy_str (d_color td) with
             | Some c => c
             | None => match d_type td with
                       | Some milestone => TaskManagerOptions.defaultMilestoneColor o
                       | Some project => TaskManagerOptions.defaultProjectColor o
                       | _ => TaskManagerOptions.defaultTaskColor o
                       end
             end in
  let newTask :=
    mkTask tid
      (match truthy_str (d_name td) with
       | Some n => n
       | None => "任务 " ++ TaskId_to_string tid
       end)
      (DateUtils.format st) (DateUtils.format en)
      (match d_type td with Some ty => ty | None => TaskManagerOptions.defaultTaskType o end)
      (match d_progress td with Some p => p | None => 0 end)
      col
      (match d_collapsed td with Some b => b | None => false end)
      (match d_draggable td with Some false => false | _ => true end)
      (match d_resizable td with Some false => false | _ => true end)
      (match d_readonly td with Some b => b | None => false end)
      (match d_dependencies td with Some l => l | None => [] end)
      (match d_dependsOn td with Some l => l | None => [] end)
      (d_parentId td)
      (match d_children td with Some l => l | None => [] end)
      (match d_critical td with Some b => b | None => false end) in
  let l := length (heap tm) in
  let tm1 := mkTM (heap tm ++ [newTask]) (tasks tm ++ [l]) (depHeap tm)
                  (dependencies_ tm) nid o in
  let tm2 := match parentId newTask with
             | Some p => if id_truthy p then _updateParentTaskChildren tm1 p else tm1
             | None => tm1
             end in
  (l, tm2).

(** The recursive [collectTasksToDelete]: it adds the id to the set and
    recurses into every task whose [parentId] is that id, with no check
    for ids already collected. The fuel is the depth of the JavaScript call
    stack; running out of it ([None]) is the [RangeError] of an unbounded
    recursion. *)
Fixpoint collectTasksToDelete (fuel : nat) (ts : list Task) (i : TaskId)
    (acc : list TaskId) : option (list TaskId) :=
  match fuel with
  | O => None
  | S f =>
      fold_left (fun oa (c : Task) => match oa with
                            | Some a => collectTasksToDelete f ts (id c) a
                            | None => None
                            end)
        (filter (fun t => parent_is t i) ts) (Some (set_add i acc))
  end.

(** [deleteTask(taskId)]; [None] is the exception of a runaway recursion
    (nothing has been written before it is raised). *)
Definition deleteTask (tm : TaskManager) (taskId : TaskId) : option (bool * TaskManager) :=
  match find_task tm taskId with
  | None => Some (false, tm)
  | Some l =>
      match deref (heap tm) l with
      | None => Some (false, tm)
      | Some t =>
          let ts := getTasks tm in
          match collectTasksToDelete (S (length ts)) ts taskId [] with
          | None => None
          | Some del =>
              let deps' := filter (fun dl => match deref (depHeap tm) dl with
                                  | Some d => negb (mem (fromId d) del) && negb (mem (toId d) del)
                                  | None => true
                                  end) (dependencies_ tm) in
              let tasks' := filter (fun l => match deref (heap tm) l with
                                   | Some x => negb (mem (id x) del)
                                   | None => true
                                   end) (tasks tm) in
              let tm1 := mkTM (heap tm) tasks' (depHeap tm) deps' (nextId tm) (options tm) in
              let tm2 := match parentId t with
                         | Some p => if id_truthy p && negb (mem p del)
                                     then _updateParentTaskChildren tm1 p else tm1
                         | None => tm1
                         end in
              Some (true, tm2)
          end
      end
  end.

(** [_updateTaskDependencies()]: clear [dependsOn]/[dependencies] of every
    task, then, for every dependency, append [toId] to the first source
    task's [dependencies] and [fromId] to the first target task's
    [dependsOn]. *)
Definition clear_links (h : list Task) (ls : list loc) : list Task :=
  fold_left (fun h l => match deref h l with
                        | Some t => hset h l (set_links t [] [])
                        | None => h
                        end) ls h.

Definition link_dep (ls : list loc) (h : list Task) (d : Dependency) : list Task :=
  let h1 := match find_loc h ls (fun t => TaskId_eqb (id t) (fromId d)) with
            | Some fl => match deref h fl with
                         | Some ft => hset h fl (set_links ft (dependencies ft ++ [toId d]) (dependsOn ft))
                         | None => h
                         end
            | None => h
            end in
  match find_loc h1 ls (fun t => TaskId_eqb (id t) (toId d)) with
  | Some tl => match deref h1 tl with
               | Some tk => hset h1 tl (set_links tk (dependencies tk) (dependsOn tk ++ [fromId d]))
               | None => h1
               end
  | None => h1
  end.

Definition _updateTaskDependencies (tm : TaskManager) : TaskManager :=
  set_heap tm (fold_left (link_dep (tasks tm)) (getDependencies tm)
                 (clear_links (heap tm) (tasks tm))).

(** The adjacency map of [checkCircularDependencies]: [graph.get(x) || []]. *)
Definition graph_succ (deps : list Dependency) (x : TaskId) : list TaskId :=
  map toId (filter (fun d => TaskId_eqb (fromId d) x) deps).

(** The inner [hasCycle] with its shared [visited] and [recursionStack]
    sets. Every call that gets past the two membership tests adds a new id
    to [visited], so the JavaScript recursion is at most as deep as the
    number of distinct ids; the fuel given below bounds that number. *)
Fixpoint hasCycle (fuel : nat) (g : TaskId -> list TaskId) (x : TaskId)
    (vr : list TaskId * list TaskId) : bool * (list TaskId * list TaskId) :=
  match fuel with
  | O => (false, vr)
  | S f =>
      let '(visited, recStack) := vr in
      if mem x recStack then (true, vr)
      else if mem x visited then (false, vr)
      else
        let fix loop (ys : list TaskId) (vr : list TaskId * list TaskId) :=
          match ys with
          | [] => (false, vr)
          | y :: ys' =>
              let '(b, vr') := hasCycle f g y vr in
              if b then (true, vr') else loop ys' vr'
          end in
        let '(b, (vis', rec')) := loop (g x) (set_add x visited, set_add x recStack) in
        if b then (true, (vis', rec')) else (false, (vis', set_delete x rec'))
  end.

Definition cycle_fuel (ts : list Task) (deps : list Dependency) : nat :=
  S (length ts + length deps).

(** [checkCircularDependencies()]: [hasCycle] from every task in order. *)
Definition check_from (g : TaskId -> list TaskId) (fuel : nat) :=
  fix go (ts : list Task) (vr : list TaskId * list TaskId) : bool :=
    match ts with
    | [] => false
    | t :: ts' => let '(b, vr') := hasCycle fuel g (id t) vr in
                  if b then true else go ts' vr'
    end.

Definition checkCircularDependencies (tm : TaskManager) : bool :=
  let deps := getDependencies tm in
  let ts := getTasks tm in
  check_from (graph_succ deps) (cycle_fuel ts deps) ts ([], []).

(** [createDependency(fromId, toId, type, lag)]: the result is the location
    of the dependency object returned ([None] is [null]). *)
Definition createDependency (tm : TaskManager) (from to : TaskId)
    (ty : DependencyType) (lg : Z) : option loc * TaskManager :=
  match find_task tm from, find_task tm to with
  | Some _, Some _ =>
      match find_loc (depHeap tm) (dependencies_ tm)
              (fun d => TaskId_eqb (fromId d) from && TaskId_eqb (toId d) to
                        && DependencyType_eqb (dep_type d) ty) with
      | Some existing => (Some existing, tm)
      | None =>
          let dl := length (depHeap tm) in
          let tm1 := _updateTaskDependencies
                       (mkTM (heap tm) (tasks tm) (depHeap tm ++ [mkDependency from to ty lg])
                             (dependencies_ tm ++ [dl]) (nextId tm) (options tm)) in
          if TaskManagerOptions.checkCircularDependencies (options tm)
             && checkCircularDependencies tm1
          then (None, _updateTaskDependencies
                        (mkTM (heap tm1) (tasks tm1) (depHeap tm1)
                              (removelast (dependencies_ tm1)) (nextId tm1) (options tm1)))
          else (Some dl, tm1)
      end
  | _, _ => (None, tm)
  end.

(** [getDescendantTasks(taskId)] walks the [children] references; like
    [collectTasksToDelete] it has no guard against revisits, and [None] is
    the [RangeError] of a runaway recursion. *)
Fixpoint collectDescendants (fuel : nat) (h : list Task) (l : loc)
    (acc : list loc) : option (list loc) :=
  match fuel with
  | O => None
  | S f =>
      match deref h l with
      | None => Some acc
      | Some t =>
          fold_left (fun oa c => match oa with
                                 | Some a => collectDescendants f h c (a ++ [c])
                                 | None => None
                                 end) (children t) (Some acc)
      end
  end.

Definition getDescendantTasks (tm : TaskManager) (i : TaskId) : option (list loc) :=
  match find_task tm i with
  | None => Some []
  | Some l => collectDescendants (S (length (heap tm))) (heap tm) l []
  end.

(** [Math.round(total / n)] for an integer total and [n > 0]. *)
Definition js_round_div (total : Z) (n : Z) : Z := (2 * total + n) / (2 * n).

Definition progress_at (h : list Task) (l : loc) : Z :=
  match deref h l with Some t => progress t | None => 0 end.

(** [calculateProjectProgress(projectId)]. *)
Definition calculateProjectProgress (tm : TaskManager) (pid : TaskId) : option Z :=
  match find_loc (heap tm) (tasks tm)
          (fun t => TaskId_eqb (id t) pid && TaskType_eqb (type_ t) project) with
  | None => Some 0
  | Some pl =>
      match deref (heap tm) pl with
      | None => Some 0
      | Some p =>
          match getDescendantTasks tm pid with
          | None => None
          | Some ds =>
              let allTasks := children p ++ ds in
              match allTasks with
              | [] => Some 0
              | _ => let total := fold_left (fun s l => s + progress_at (heap tm) l) allTasks 0 in
                     Some (js_round_div total (Z.of_nat (length allTasks)))
              end
          end
      end
  end.

End TaskManager.

(** ** The auto-scheduler (TaskUtils.autoScheduleTasks in utils.ts) *)
Module TaskUtils.

(** A [Map<TaskId, Task>]: [set] replaces the value of an existing key in
    place and appends a new key. *)
Fixpoint map_set (m : list (TaskId * Task)) (k : TaskId) (v : Task) : list (TaskId * Task) :=
  match m with
  | [] => [(k, v)]
  | (k', v') :: r => if TaskId_eqb k' k then (k, v) :: r else (k', v') :: map_set r k v
  end.

Fixpoint map_get (m : list (TaskId * Task)) (k : TaskId) : option Task :=
  match m with
  | [] => None
  | (k', v) :: r => if TaskId_eqb k' k then Some v else map_get r k
  end.

(** [TaskUtils.calculateDuration(task)] ([None] is NaN). *)
Definition calculateDuration (now : Z) (t : Task) : option Z :=
  DateUtils.daysBetween (DateUtils.parseDate now (start t)) (DateUtils.parseDate now (end_ t)).

(** The inner [visit] of the topological sort: it marks the id visited,
    visits the sources of all dependencies into it, then pushes the task
    (a reference to the map's copy, represented by its key). Each call past
    the [visited] test adds a new id, so the recursion depth is bounded by
    the number of distinct ids, which the fuel given below covers. *)
Fixpoint visit (fuel : nat) (deps : list Dependency) (taskMap : list (TaskId * Task))
    (x : TaskId) (st : list TaskId * list TaskId) : list TaskId * list TaskId :=
  match fuel with
  | O => st
  | S f =>
      let '(visited, result) := st in
      if mem x visited then st
      else
        let '(vis', res') :=
          fold_left (fun st d => visit f deps taskMap (fromId d) st)
            (filter (fun d => TaskId_eqb (toId d) x) deps) (set_add x visited, result) in
        match map_get taskMap x with
        | Some _ => (vis', res' ++ [x])
        | None => (vis', res')
        end
  end.

(** One step of the date adjustment, on the task whose reference is [x]. *)
Definition schedule_one (now : Z) (deps : list Dependency)
    (taskMap : list (TaskId * Task)) (x : TaskId) : list (TaskId * Task) :=
  match map_get taskMap x with
  | None => taskMap
  | Some t =>
      match filter (fun d => TaskId_eqb (toId d) (id t)) deps with
      | [] => taskMap
      | incomingDeps =>
          let maxEndDate :=
            fold_left (fun m d => match map_get taskMap (fromId d) with
                                  | Some p => let e := DateUtils.parseDate now (end_ p) in
                                              if DateUtils.date_gt e m then e else m
                                  | None => m
                                  end) incomingDeps (JValid 0) in
          if DateUtils.date_gt maxEndDate (JValid 0) then
            let newStartDate := DateUtils.addDays maxEndDate (Some 1) in
            let duration := calculateDuration now t in
            let newEndDate := DateUtils.addDays newStartDate duration in
            map_set taskMap x (set_dates t (DateUtils.format newStartDate) (DateUtils.format newEndDate))
          else taskMap
      end
  end.

(** The topological order [result] (as the keys of the pushed copies). *)
Definition topo_order (tasks : list Task) (deps : list Dependency)
    (taskMap : list (TaskId * Task)) : list TaskId :=
  let fuel := S (length tasks + length deps) in
  snd (fold_left (fun st t => if mem (id t) (fst st) then st
                              else visit fuel deps taskMap (id t) st) tasks ([], [])).

Definition build_map (tasks : list Task) : list (TaskId * Task) :=
  fold_left (fun m t => map_set m (id t) t) tasks [].

(** [autoScheduleTasks(tasks, dependencies)]; the cycle warning it may log
    has no effect and is left out. *)
Definition autoScheduleTasks (now : Z) (tasks : list Task) (deps : list Dependency) : list Task :=
  let taskMap := build_map tasks in
  let result := topo_order tasks deps taskMap in
  let taskMap' := fold_left (schedule_one now deps) result taskMap in
  flat_map (fun x => match map_get taskMap' x with Some t => [t] | None => [] end) result.

End TaskUtils.

(** ** StateManager (StateManager.ts) *)
Module StateManager.

Record ViewSettings : Type := mkViewSettings {
  mode : string;
  scrollPosition : Z;
  zoomLevel : Z;
  taskListWidth : Z;
  timelineWidth : Z
}.

Record VirtualScrollConfig : Type := mkVirtualScroll {
  startIndex : Z;
  endIndex : Z;
  visibleCount : Z;
  bufferSize : Z;
  totalHeight : Z;
  rowHeight : Z
}.

Record GanttConfig : Type := mkGanttConfig {
  columnWidth : Z;
  cfg_rowHeight : Z;
  showWeekends : bool;
  showToday : bool;
  showRowLines : bool;
  showColumnLines : bool;
  enableDependencies : bool;
  enableDragging : bool;
  enableResizing : bool;
  enableProgress : bool;
  respectDependencies : bool;
  locale : string
}.

(** [{ ...task, ...updates }]. *)
Definition merge (t : Task) (u : TaskData) : Task :=
  let pick {A} (o : option A) (x : A) := match o with Some y => y | None => x end in
  mkTask (pick (d_id u) (id t)) (pick (d_name u) (name t)) (pick (d_start u) (start t))
    (pick (d_end u) (end_ t)) (pick (d_type u) (type_ t)) (pick (d_progress u) (progress t))
    (pick (d_color u) (color t)) (pick (d_collapsed u) (collapsed t))
    (pick (d_draggable u) (draggable t)) (pick (d_resizable u) (resizable t))
    (pick (d_readonly u) (readonly t)) (pick (d_dependencies u) (dependencies t))
    (pick (d_dependsOn u) (dependsOn t))
    (match d_parentId u with Some p => Some p | None => parentId t end)
    (pick (d_children u) (children t)) (pick (d_critical u) (critical t)).

(** Replace the first task with the given id ([findIndex] then assign). *)
Fixpoint update_first (ts : list Task) (i : TaskId) (f : Task -> Task) : list Task :=
  match ts with
  | [] => []
  | t :: r => if TaskId_eqb (id t) i then f t :: r else t :: update_first r i f
  end.

(** [StateManagerState] (the optional [resources] list is never touched by
    the manager and is left out). States are plain JSON data, on which the
    [JSON.parse(JSON.stringify(.))] clones of the history are the identity. *)
Record StateManagerState : Type := mkState {
  tasks : list Task;
  dependencies : list Dependency;
  selectedTaskIds : list TaskId;
  viewSettings : ViewSettings;
  virtualScroll : VirtualScrollConfig;
  config : GanttConfig
}.

(** [GanttAction] with one constructor per [ActionType]. The payload of
    [UPDATE_TASK] is a [Partial<Task>]. *)
Inductive GanttAction : Type :=
| ADD_TASK (t : Task)
| UPDATE_TASK (taskId : TaskId) (updates : TaskData)
| DELETE_TASK (taskId : TaskId)
| MOVE_TASK (taskId : TaskId) (newStart newEnd : string)
| ADD_DEPENDENCY (d : Dependency)
| DELETE_DEPENDENCY (fromId toId : TaskId)
| CHANGE_VIEW (m : string)
| SET_DATES (startDate endDate : string)
| SELECT_TASK (taskId : TaskId)
| DESELECT_TASK (taskId : TaskId).

Definition with_tasks (s : StateManagerState) (ts : list Task) : StateManagerState :=
  mkState ts (dependencies s) (selectedTaskIds s) (viewSettings s) (virtualScroll s) (config s).
Definition with_dependencies (s : StateManagerState) (ds : list Dependency) : StateManagerState :=
  mkState (tasks s) ds (selectedTaskIds s) (viewSettings s) (virtualScroll s) (config s).
Definition with_selected (s : StateManagerState) (sel : list TaskId) : StateManagerState :=
  mkState (tasks s) (dependencies s) sel (viewSettings s) (virtualScroll s) (config s).
Definition with_viewSettings (s : StateManagerState) (v : ViewSettings) : StateManagerState :=
  mkState (tasks s) (dependencies s) (selectedTaskIds s) v (virtualScroll s) (config s).
Definition with_virtualScroll (s : StateManagerState) (v : VirtualScrollConfig) : StateManagerState :=
  mkState (tasks s) (dependencies s) (selectedTaskIds s) (viewSettings s) v (config s).

(** [_handleAction(action)]. *)
Definition _handleAction (s : StateManagerState) (a : GanttAction) : StateManagerState :=
  match a with
  | ADD_TASK t => with_tasks s (tasks s ++ [t])
  | UPDATE_TASK i u => with_tasks s (update_first (tasks s) i (fun t => merge t u))
  | DELETE_TASK i =>
      with_dependencies
        (with_tasks s (filter (fun t => negb (TaskId_eqb (id t) i)) (tasks s)))
        (filter (fun d => negb (TaskId_eqb (fromId d) i) && negb (TaskId_eqb (toId d) i))
                (dependencies s))
  | MOVE_TASK i ns ne => with_tasks s (update_first (tasks s) i (fun t => set_dates t ns ne))
  | ADD_DEPENDENCY d => with_dependencies s (dependencies s ++ [d])
  | DELETE_DEPENDENCY f t =>
      with_dependencies s
        (filter (fun d => negb (TaskId_eqb (fromId d) f && TaskId_eqb (toId d) t)) (dependencies s))
  | CHANGE_VIEW m =>
      let v := viewSettings s in
      with_viewSettings s (mkViewSettings m (scrollPosition v) (zoomLevel v)
                                         (taskListWidth v) (timelineWidth v))
  | SET_DATES _ _ => s
  | SELECT_TASK i =>
      if mem i (selectedTaskIds s) then s else with_selected s (selectedTaskIds s ++ [i])
  | DESELECT_TASK i =>
      with_selected s (filter (fun x => negb (TaskId_eqb x i)) (selectedTaskIds s))
  end.

Section Manager.

(** [_initializeCache()] clears the task, dependency and layout caches,
    rebuilds them from the current state and then recomputes the
    virtual-scroll window from the rebuilt task cache and the state,
    writing it into [state.virtualScroll]. Nothing else of the state is
    written. The claims studied here hold whatever the caches contain, so
    the two rebuild functions are parameters of the development. *)
Context {Caches : Type}.
Variable buildCaches : StateManagerState -> Caches.
Variable scrollMetrics : Caches -> StateManagerState -> VirtualScrollConfig.

(** The manager's fields; [notified] records every subscriber call
    (subscriber, state passed) in order, the observable effect of
    [_notifySubscribers]. *)
Record StateManager : Type := mkSM {
  _state : StateManagerState;
  _history : list StateManagerState;
  _future : list StateManagerState;
  _maxHistorySize : nat;
  _subscribers : list nat;
  _caches : Caches;
  _batchUpdate : bool;
  _pendingActions : list GanttAction;
  notified : list (nat * StateManagerState)
}.

Definition undoStackSize (sm : StateManager) : nat := length (_history sm).
Definition redoStackSize (sm : StateManager) : nat := length (_future sm).

Definition _initializeCache (sm : StateManager) : StateManager :=
  let c := buildCaches (_state sm) in
  mkSM (with_virtualScroll (_state sm) (scrollMetrics c (_state sm)))
       (_history sm) (_future sm) (_maxHistorySize sm) (_subscribers sm) c
       (_batchUpdate sm) (_pendingActions sm) (notified sm).

Definition _notifySubscribers (sm : StateManager) : StateManager :=
  mkSM (_state sm) (_history sm) (_future sm) (_maxHistorySize sm) (_subscribers sm)
       (_caches sm) (_batchUpdate sm) (_pendingActions sm)
       (notified sm ++ map (fun k => (k, _state sm)) (_subscribers sm)).

(** [_saveToHistory()]: push a clone, clear the redo stack, evict the
    oldest entry when over capacity. *)
Definition _saveToHistory (sm : StateManager) : StateManager :=
  let h := _history sm ++ [_state sm] in
  let h := if Nat.ltb (_maxHistorySize sm) (length h) then tl h else h in
  mkSM (_state sm) h [] (_maxHistorySize sm) (_subscribers sm)
       (_caches sm) (_batchUpdate sm) (_pendingActions sm) (notified sm).

Definition set_state (sm : StateManager) (s : StateManagerState) : StateManager :=
  mkSM s (_history sm) (_future sm) (_maxHistorySize sm) (_subscribers sm)
       (_caches sm) (_batchUpdate sm) (_pendingActions sm) (notified sm).

Definition set_batch (sm : StateManager) (b : bool) (p : list GanttAction) : StateManager :=
  mkSM (_state sm) (_history sm) (_future sm) (_maxHistorySize sm) (_subscribers sm)
       (_caches sm) b p (notified sm).

(** [dispatch(action)]. *)
Definition dispatch (sm : StateManager) (a : GanttAction) : StateManager :=
  if _batchUpdate sm then set_batch sm true (_pendingActions sm ++ [a])
  else
    let sm1 := _saveToHistory sm in
    let sm2 := set_state sm1 (_handleAction (_state sm1) a) in
    _notifySubscribers (_initializeCache sm2).

(** [beginBatchUpdate()]. *)
Definition beginBatchUpdate (sm : StateManager) : StateManager := set_batch sm true [].

(** [commitBatchUpdate()]. *)
Definition commitBatchUpdate (sm : StateManager) : StateManager :=
  if negb (_batchUpdate sm) || Nat.eqb (length (_pendingActions sm)) 0 then
    set_batch sm false (_pendingActions sm)
  else
    let sm1 := _saveToHistory sm in
    let sm2 := set_state sm1 (fold_left _handleAction (_pendingActions sm1) (_state sm1)) in
    let sm3 := set_batch sm2 false [] in
    _notifySubscribers (_initializeCache sm3).

(** [undo()]: the popped history entry becomes the state. *)
Definition undo (sm : StateManager) : bool * StateManager :=
  match _history sm with
  | [] => (false, sm)
  | _ =>
      let sm1 := mkSM (last (_history sm) (_state sm)) (removelast (_history sm))
                      (_future sm ++ [_state sm]) (_maxHistorySize sm) (_subscribers sm)
                      (_caches sm) (_batchUpdate sm) (_pendingActions sm) (notified sm) in
      (true, _notifySubscribers (_initializeCache sm1))
  end.

(** [redo()]. *)
Definition redo (sm : StateManager) : bool * StateManager :=
  match _future sm with
  | [] => (false, sm)
  | _ =>
      let sm1 := mkSM (last (_future sm) (_state sm)) (_history sm ++ [_state sm])
                      (removelast (_future sm)) (_maxHistorySize sm) (_subscribers sm)
                      (_caches sm) (_batchUpdate sm) (_pendingActions sm) (notified sm) in
      (true, _notifySubscribers (_initializeCache sm1))
  end.

Fixpoint dispatch_all (sm : StateManager) (acts : list GanttAction) : StateManager :=
  match acts with
  | [] => sm
  | a :: r => dispatch_all (dispatch sm a) r
  end.

Fixpoint undo_n (n : nat) (sm : StateManager) : StateManager :=
  match n with
  | O => sm
  | S k => undo_n k (snd (undo sm))
  end.

Fixpoint redo_n (n : nat) (sm : StateManager) : StateManager :=
  match n with
  | O => sm
  | S k => redo_n k (snd (redo sm))
  end.

End Manager.

(** The part of a state the undo/redo round trip is about: its tasks and
    its dependencies. *)
Definition td_of (s : StateManagerState) : list Task * list Dependency :=
  (tasks s, dependencies s).

(** The history, the state and the redo stack of a manager, each seen
    through [td_of]. *)
Definition stacks {C : Type} (sm : @StateManager C)
  : list (list Task * list Dependency) * (list Task * list Dependency)
    * list (list Task * list Dependency) :=
  (map td_of (_history sm), td_of (_state sm), map td_of (_future sm)).

(** What [undo()] and [redo()] do to the three stacks. *)
Definition aundo {A : Type} (a : list A * A * list A) : list A * A * list A :=
  let '(h, s, f) := a in
  match h with [] => (h, s, f) | _ => (removelast h, last h s, f ++ [s]) end.

Definition aredo {A : Type} (a : list A * A * list A) : list A * A * list A :=
  let '(h, s, f) := a in
  match f with [] => (h, s, f) | _ => (h ++ [s], last f s, removelast f) end.

End StateManager.

(** ** Concrete inputs used by the examples below *)
Module Examples.
Local Open Scope string_scope.

(** A [Partial<Task>] with an id, and optionally a type, a parent and a
    progress. *)
Definition td (i : TaskId) (ty : option TaskType) (par : option TaskId) (prog : option Z)
  : TaskData :=
  mkTaskData (Some i) None None None ty prog None None None None None None None par None None.

Definition tm0 : TaskManager.TaskManager := TaskManager.create TaskManagerOptions.defaults.

(** The input of the unit test "should throw error with invalid dates". *)
Definition td_invalid_dates : TaskData :=
  mkTaskData None (Some "Invalid Task") (Some "invalid-date") (Some "2024-01-05")
    None None None None None None None None None None None None.

(** Project P with a subtask A (progress 0) that has a subtask G (progress 90). *)
Definition tm_PAG : TaskManager.TaskManager :=
  let tm := snd (TaskManager.createTask tm0 0 (td (TStr "P") (Some project) None None)) in
  let tm := snd (TaskManager.createTask tm 0 (td (TStr "A") None (Some (TStr "P")) (Some 0))) in
  snd (TaskManager.createTask tm 0 (td (TStr "G") None (Some (TStr "A")) (Some 90))).

(** Two tasks whose [parentId]s point at each other. *)
Definition tm_parent_cycle : TaskManager.TaskManager :=
  let tm := snd (TaskManager.createTask tm0 0 (td (TStr "A") None (Some (TStr "B")) None)) in
  snd (TaskManager.createTask tm 0 (td (TStr "B") None (Some (TStr "A")) None)).

(** Two tasks created with the same explicit id. *)
Definition tm_dup : TaskManager.TaskManager :=
  let tm := snd (TaskManager.createTask tm0 0 (td (TStr "X") None None None)) in
  snd (TaskManager.createTask tm 0 (td (TStr "X") None None None)).

(** A manager with tasks A and B. *)
Definition tm_AB (o : TaskManagerOptions.t) : TaskManager.TaskManager :=
  let tm := snd (TaskManager.createTask (TaskManager.create o) 0 (td (TStr "A") None None None)) in
  snd (TaskManager.createTask tm 0 (td (TStr "B") None None None)).

(** The options with the cycle check switched off. *)
Definition no_cycle_check : TaskManagerOptions.t :=
  TaskManagerOptions.mk true false false task "#4e85c5" "#722ed1" "#fa8c16".

Definition ex_task (i : Z) (s e : string) : Task :=
  mkTask (TNum i) "" s e task 0 "" false true true false [] [] None [] false.

(** The scheduling example of the spec. *)
Definition sched_tasks : list Task :=
  [ex_task 1 "2024-01-01" "2024-01-05"; ex_task 2 "2024-01-03" "2024-01-08"].


Definition dep12 : Dependency := mkDependency (TNum 1) (TNum 2) finish_to_start 0.

Definition dep21 : Dependency := mkDependency (TNum 2) (TNum 1) finish_to_start 0.

Definition example_state : StateManager.StateManagerState :=
  StateManager.mkState [] [] []
    (StateManager.mkViewSettings "day" 0 1 300 800)
    (StateManager.mkVirtualScroll 0 0 20 5 0 40)
    (StateManager.mkGanttConfig 60 40 true true true true true true true true true "zh-CN").

(** A fresh manager: empty history and redo stack, capacity 10, idle. *)
Definition sm_init {C : Type} (c : C) (s : StateManager.StateManagerState)
  : StateManager.StateManager :=
  StateManager.mkSM s [] [] 10 [] c false [] [].

(** A manager whose history is full. *)
Definition sm_full {C : Type} (c : C) (s : StateManager.StateManagerState)
  : StateManager.StateManager :=
  StateManager.mkSM s (repeat s 10) [] 10 [] c false [] [].

(** A rank for the tasks of [tm_PAG] that decreases from parent to child. *)
Definition rank_PAG (i : TaskId) : nat :=
  if TaskId_eqb i (TStr "P") then 2%nat else if TaskId_eqb i (TStr "A") then 1%nat else 0%nat.

(** The trivial caches, for concrete runs. *)
Definition unit_caches (_ : StateManager.StateManagerState) : unit := tt.
Definition keep_scroll (_ : unit) (s : StateManager.StateManagerState)
  : StateManager.VirtualScrollConfig := StateManager.virtualScroll s.

End Examples.

(** ** Runs and well-formedness conditions used in the statements *)
Module Invariants.

(** Successive [createDependency] calls, in order. *)
Definition run_createDependency (tm : TaskManager.TaskManager)
    (calls : list (TaskId * TaskId * DependencyType * Z)) : TaskManager.TaskManager :=
  fold_left (fun tm c => let '(f, t, ty, lg) := c in
                         snd (TaskManager.createDependency tm f t ty lg)) calls tm.

(** Every reference of the dependency list points into the dependency heap. *)
Definition deps_wf (tm : TaskManager.TaskManager) : Prop :=
  Forall (fun l => (l < length (TaskManager.depHeap tm))%nat) (TaskManager.dependencies_ tm).

(** Every reference of the task list points into the task heap. *)
Definition tasks_wf (tm : TaskManager.TaskManager) : Prop :=
  Forall (fun l => (l < length (TaskManager.heap tm))%nat) (TaskManager.tasks tm).

(** The manager inside [createDependency] after appending the new
    dependency and rebuilding the index. *)
Definition pushed (tm : TaskManager.TaskManager) (d : Dependency) : TaskManager.TaskManager :=
  let open_tm := TaskManager.mkTM (TaskManager.heap tm) (TaskManager.tasks tm)
                   (TaskManager.depHeap tm ++ [d])
                   (TaskManager.dependencies_ tm ++ [length (TaskManager.depHeap tm)])
                   (TaskManager.nextId tm) (TaskManager.options tm) in
  TaskManager._updateTaskDependencies open_tm.

(** The manager inside [createDependency] after the rollback. *)
Definition rolled_back (tm1 : TaskManager.TaskManager) : TaskManager.TaskManager :=
  TaskManager._updateTaskDependencies
    (TaskManager.mkTM (TaskManager.heap tm1) (TaskManager.tasks tm1) (TaskManager.depHeap tm1)
       (removelast (TaskManager.dependencies_ tm1)) (TaskManager.nextId tm1)
       (TaskManager.options tm1)).

(** The test [find] uses in [createDependency] for an existing
    dependency with the same endpoints and type. *)
Definition same_dep (f t : TaskId) (ty : DependencyType) (d : Dependency) : bool :=
  TaskId_eqb (fromId d) f && TaskId_eqb (toId d) t && DependencyType_eqb (dep_type d) ty.

(** The id and the next [nextId] that [createTask] settles on
    ([taskData.id || this._generateId()]). *)
Definition choose_id (tm : TaskManager.TaskManager) (td : TaskData) : TaskId * Z :=
  match d_id td with
  | Some i => if id_truthy i then (i, TaskManager.nextId tm)
              else let n := TaskManager._generateId tm in (TNum n, n)
  | None => let n := TaskManager._generateId tm in (TNum n, n)
  end.

(** Whether the caller supplies a (truthy) id. *)
Definition gives_id (td : TaskData) : bool :=
  match d_id td with Some i => id_truthy i | None => false end.

(** The id bookkeeping of the manager: ids pairwise distinct, references
    into the heap, and every integer from 1 below [nextId] already used. *)
Definition ids_inv (tm : TaskManager.TaskManager) : Prop :=
  NoDup (TaskManager.task_ids tm) /\ tasks_wf tm /\ 1 <= TaskManager.nextId tm /\
  (forall m, 1 <= m < TaskManager.nextId tm -> In (TNum m) (TaskManager.task_ids tm)).

(** A supplied id is not already the id of a task. *)
Definition fresh_id (tm : TaskManager.TaskManager) (td : TaskData) : Prop :=
  gives_id td = true -> forall i, d_id td = Some i -> ~ In i (TaskManager.task_ids tm).

(** [y] is reachable from [i] through [parentId] chains in [ts]: [y] is
    the id of a task whose parent is [i] or a descendant of [i]. *)
Inductive descends (ts : list Task) (i : TaskId) : TaskId -> Prop :=
| desc_direct : forall t, In t ts -> parentId t = Some i -> descends ts i (id t)
| desc_indirect : forall t p, In t ts -> parentId t = Some p ->
    descends ts i p -> descends ts i (id t).

End Invariants.

(** ** The auto-scheduler: what its output is stated against *)
Module ScheduleSpec.
Import TaskUtils.

(** A date string written [YYYY-MM-DD] that [new Date] reads as a valid
    day (at UTC midnight). *)
Definition date_only (s : string) : bool :=
  Nat.eqb (String.length s) 10 &&
  match DateUtils.parse_iso_date s with JValid _ => true | JInvalid => false end.





End ScheduleSpec.

(** ** Further methods of DateUtils (utils.ts) *)
Module DateMethods.
Import DateUtils.

(** TimeClip on a day: beyond 10^8 days from the epoch the date is invalid. *)
Definition time_clip (day : Z) : JDate :=
  if Z.abs day <=? 100000000 then JValid day else JInvalid.

(** [Date.prototype.getMonth()] (0..11; [None] is NaN). *)
Definition getMonth (d : JDate) : option Z :=
  match d with
  | JValid z => let '(_, m, _) := civil_from_days z in Some (m - 1)
  | JInvalid => None
  end.

(** [Date.prototype.setMonth(month)] in local time: MakeDay of the date's
    year, the month (carried into the year) and the date's day of month,
    which may overflow into the following month. *)
Definition setMonth (d : JDate) (month : option Z) : JDate :=
  match d, month with
  | JValid z, Some mon =>
      let '(y, _, dt) := civil_from_days z in
      time_clip (days_from_civil (y + mon / 12) (mon mod 12 + 1) 1 + dt - 1)
  | _, _ => JInvalid
  end.

(** [Date.prototype.setDate(date)] in local time; day 0 is the last day of
    the previous month. *)
Definition setDate (d : JDate) (date : option Z) : JDate :=
  match d, date with
  | JValid z, Some dt =>
      let '(y, m, _) := civil_from_days z in time_clip (days_from_civil y m 1 + dt - 1)
  | _, _ => JInvalid
  end.

(** An argument of type [Date | string]: a [Date] object, at a location
    of the heap of date objects, or a string. *)
Inductive DateArg : Type :=
| ADate (l : loc)
| AStr (s : string).

(** The date held by a date object. *)
Definition date_at (h : list JDate) (l : loc) : JDate :=
  match deref h l with Some d => d | None => JInvalid end.

(** [this.parseDate(date)]: a [Date] is returned as is (the same object), a
    string gives a new object. *)
Definition parseDateArg (now : Z) (h : list JDate) (a : DateArg) : list JDate * loc :=
  match a with
  | ADate l => (h, l)
  | AStr s => (h ++ [parseDate now s], length h)
  end.

(** [DateUtils.addMonths(date, months)]: [setMonth] on a new copy of the
    parsed date. *)
Definition addMonths (now : Z) (h : list JDate) (a : DateArg) (months : Z) : list JDate * loc :=
  let '(h1, l) := parseDateArg now h a in
  let d := date_at h1 l in
  (h1 ++ [setMonth d (option_map (fun m => m + months) (getMonth d))], length h1).

(** [DateUtils.getFirstDayOfMonth(date)]: [setDate(1)] on the parsed object
    itself. *)
Definition getFirstDayOfMonth (now : Z) (h : list JDate) (a : DateArg) : list JDate * loc :=
  let '(h1, l) := parseDateArg now h a in
  (hset h1 l (setDate (date_at h1 l) (Some 1)), l).

(** [DateUtils.getLastDayOfMonth(date)]: [setMonth(getMonth() + 1)], then
    [setDate(0)], on the parsed object itself. *)
Definition getLastDayOfMonth (now : Z) (h : list JDate) (a : DateArg) : list JDate * loc :=
  let '(h1, l) := parseDateArg now h a in
  let d := date_at h1 l in
  let d1 := setMonth d (option_map (fun m => m + 1) (getMonth d)) in
  (hset h1 l (setDate d1 (Some 0)), l).

(** The month after month [m] of year [y]. *)
Definition next_month (y m : Z) : Z * Z := if m =? 12 then (y + 1, 1) else (y, m + 1).

(** [DateUtils.isWeekday(date)]: [getDay()] of day [z] is [(z + 4) mod 7]
    (1970-01-01 was a Thursday); NaN is neither 0 nor 6. *)
Definition isWeekday (now : Z) (h : list JDate) (a : DateArg) : bool :=
  let '(h1, l) := parseDateArg now h a in
  match date_at h1 l with
  | JValid z => let day := (z + 4) mod 7 in negb (day =? 0) && negb (day =? 6)
  | JInvalid => true
  end.

End DateMethods.

(** ** Further functions of utils.ts: TaskUtils and calculateAutoDateRange *)
Module TaskUtilsMethods.
Import DateUtils.

(** [TaskUtils.tasksOverlap(task1, task2)]. *)
Definition tasksOverlap (now : Z) (task1 task2 : Task) : bool :=
  let start1 := parseDate now (start task1) in
  let end1 := parseDate now (end_ task1) in
  let start2 := parseDate now (start task2) in
  let end2 := parseDate now (end_ task2) in
  negb (date_gt start2 end1 || date_gt start1 end2).

(** [calculateAutoDateRange(tasks, padding)] on a non-null array; a
    [start] or [end] is taken when it is a non-empty string. *)
Definition range_step (now : Z) (st : JDate * JDate * bool) (t : Task) : JDate * JDate * bool :=
  let '(earliest, latest, hasSetDates) := st in
  let earliest :=
    if negb (String.eqb (start t) "") then
      let startDate := parseDate now (start t) in
      if negb hasSetDates || date_gt earliest startDate then startDate else earliest
    else earliest in
  let latest :=
    if negb (String.eqb (end_ t) "") then
      let endDate := parseDate now (end_ t) in
      if negb hasSetDates || date_gt endDate latest then endDate else latest
    else latest in
  (earliest, latest, true).

Definition calculateAutoDateRange (now : Z) (tasks : list Task) (padding : Z) : JDate * JDate :=
  match tasks with
  | [] => (addDays (JValid now) (Some (- padding)), addDays (JValid now) (Some padding))
  | _ =>
      let '(earliest, latest, _) := fold_left (range_step now) tasks (JValid now, JValid now, false) in
      (addDays earliest (Some (- padding)), addDays latest (Some padding))
  end.

(** The graph of [hasCyclicDependencies]: a [Map] from [fromId] to the
    array of [toId]s, keys in insertion order. *)
Fixpoint graph_push (g : list (TaskId * list TaskId)) (k v : TaskId) : list (TaskId * list TaskId) :=
  match g with
  | [] => [(k, [v])]
  | (k', vs) :: r => if TaskId_eqb k' k then (k', vs ++ [v]) :: r else (k', vs) :: graph_push r k v
  end.

Definition build_graph (deps : list Dependency) : list (TaskId * list TaskId) :=
  fold_left (fun g d => graph_push g (fromId d) (toId d)) deps [].

Fixpoint graph_get (g : list (TaskId * list TaskId)) (k : TaskId) : list TaskId :=
  match g with
  | [] => []
  | (k', vs) :: r => if TaskId_eqb k' k then vs else graph_get r k
  end.

(** The inner [isCyclic] with its shared [visited] and [recStack] sets.
    Every call past the [visited] test adds a new id to [visited]; the fuel
    given below exceeds the number of ids of the graph. *)
Fixpoint isCyclic (fuel : nat) (g : list (TaskId * list TaskId)) (nodeId : TaskId)
    (vr : list TaskId * list TaskId) : bool * (list TaskId * list TaskId) :=
  match fuel with
  | O => (false, vr)
  | S f =>
      let '(visited, recStack) := vr in
      let '(b, (visited, recStack)) :=
        if negb (mem nodeId visited) then
          let fix loop (ns : list TaskId) (vr : list TaskId * list TaskId) :=
            match ns with
            | [] => (false, vr)
            | n :: ns' =>
                let '(c, vr') :=
                  if negb (mem n (fst vr)) then isCyclic f g n vr else (false, vr) in
                if c then (true, vr')
                else if mem n (snd vr') then (true, vr')
                else loop ns' vr'
            end in
          loop (graph_get g nodeId) (set_add nodeId visited, set_add nodeId recStack)
        else (false, (visited, recStack)) in
      if b then (true, (visited, recStack))
      else (false, (visited, set_delete nodeId recStack))
  end.

(** [TaskUtils.hasCyclicDependencies(dependencies)]: the [forEach] over
    the graph's entries runs [isCyclic] from every unvisited key; the
    [return true] inside its callback only leaves the callback. *)
Definition hasCyclicDependencies (deps : list Dependency) : bool :=
  let g := build_graph deps in
  let fuel := S (2 * length deps) in
  let _ := fold_left (fun vr (e : TaskId * list TaskId) =>
                        if negb (mem (fst e) (fst vr)) then snd (isCyclic fuel g (fst e) vr)
                        else vr) g ([], []) in
  false.

End TaskUtilsMethods.

(** ** Further methods of TaskManager (TaskManager.ts) *)
Module TaskManagerMethods.
Import TaskManager.

(** [Array.prototype.findIndex] on an array of object references. *)
Fixpoint findIndex_loc {A} (h : list A) (ls : list loc) (p : A -> bool) : option nat :=
  match ls with
  | [] => None
  | l :: r =>
      match deref h l with
      | Some x => if p x then Some O else option_map S (findIndex_loc h r p)
      | None => option_map S (findIndex_loc h r p)
      end
  end.

(** [Array.prototype.splice(i, 1)]. *)
Fixpoint splice1 {A} (l : list A) (i : nat) : list A :=
  match l, i with
  | [], _ => []
  | _ :: r, O => r
  | x :: r, S k => x :: splice1 r k
  end.

(** [deleteDependency(fromId, toId)]. *)
Definition deleteDependency (tm : TaskManager) (from to : TaskId) : bool * TaskManager :=
  match findIndex_loc (depHeap tm) (dependencies_ tm)
          (fun d => TaskId_eqb (fromId d) from && TaskId_eqb (toId d) to) with
  | None => (false, tm)
  | Some i =>
      (true, _updateTaskDependencies
               (mkTM (heap tm) (tasks tm) (depHeap tm) (splice1 (dependencies_ tm) i)
                     (nextId tm) (options tm)))
  end.

(** [updateTask(taskId, updates)]: the updated task is a new object
    ([{ ...task, ...updates }]) put in the task list in place of the old
    one; the result is its location ([None] is [null]). The test on
    [parentId] reads [this.tasks[taskIndex]], which is by then the updated
    task. *)
Definition updateTask (tm : TaskManager) (now : Z) (taskId : TaskId) (u : TaskData)
    : option loc * TaskManager :=
  match findIndex_loc (heap tm) (tasks tm) (fun t => TaskId_eqb (id t) taskId) with
  | None => (None, tm)
  | Some k =>
      match nth_error (tasks tm) k with
      | None => (None, tm)
      | Some l =>
          match deref (heap tm) l with
          | None => (None, tm)
          | Some t =>
              let ut := StateManager.merge t u in
              let ut := match truthy_str (d_start u) with
                        | Some s => set_dates ut (DateUtils.format (DateUtils.parseDate now s)) (end_ ut)
                        | None => ut
                        end in
              let ut := match truthy_str (d_end u) with
                        | Some s => set_dates ut (start ut) (DateUtils.format (DateUtils.parseDate now s))
                        | None => ut
                        end in
              let nl := length (heap tm) in
              let tm1 := mkTM (heap tm ++ [ut]) (hset (tasks tm) k nl) (depHeap tm)
                              (dependencies_ tm) (nextId tm) (options tm) in
              let cur := ut in
              let tm2 :=
                match d_parentId u with
                | Some p =>
                    if negb (match parentId cur with Some q => TaskId_eqb p q | None => false end)
                    then
                      let tm' := match parentId cur with
                                 | Some op => _updateParentTaskChildren tm1 op
                                 | None => tm1
                                 end in
                      if id_truthy p then _updateParentTaskChildren tm' p else tm'
                    else tm1
                | None => tm1
                end in
              (Some nl, tm2)
          end
      end
  end.

(** The [while] loop of [getAncestorTasks] from the task at [cur], for at
    most [fuel] evaluations of its condition; [None] means it has not
    stopped by then. *)
Fixpoint ancestors_loop (fuel : nat) (tm : TaskManager) (cur : loc) (acc : list loc)
    : option (list loc) :=
  match fuel with
  | O => None
  | S f =>
      match deref (heap tm) cur with
      | None => Some acc
      | Some ct =>
          match parentId ct with
          | Some p =>
              if id_truthy p then
                match find_task tm p with
                | Some pl => ancestors_loop f tm pl (acc ++ [pl])
                | None => Some acc
                end
              else Some acc
          | None => Some acc
          end
      end
  end.

Definition getAncestorTasks (fuel : nat) (tm : TaskManager) (i : TaskId) : option (list loc) :=
  match find_task tm i with
  | None => Some []
  | Some l => ancestors_loop fuel tm l []
  end.

(** [getTasksByType(type)] and its three uses. *)
Definition getTasksByType (tm : TaskManager) (ty : TaskType) : list Task :=
  filter (fun t => TaskType_eqb (type_ t) ty) (getTasks tm).
Definition getMilestones (tm : TaskManager) : list Task := getTasksByType tm milestone.
Definition getProjects (tm : TaskManager) : list Task := getTasksByType tm project.
Definition getRegularTasks (tm : TaskManager) : list Task := getTasksByType tm task.

(** [calculateTaskDuration(task)] ([None] is NaN). *)
Definition calculateTaskDuration (now : Z) (t : Task) : option Z :=
  option_map (fun d => d + 1)
    (DateUtils.daysBetween (DateUtils.parseDate now (start t)) (DateUtils.parseDate now (end_ t))).

(** One step of the loop of [getAncestorTasks]: the task at [y] is the one
    [find] returns for the (truthy) parent id of the task at [x]. *)
Definition parent_step (tm : TaskManager) (x y : loc) : Prop :=
  exists t p, deref (heap tm) x = Some t /\ parentId t = Some p /\ id_truthy p = true /\
              find_task tm p = Some y.

(** [ls] lists the ancestors of the task at [x], from its parent upward,
    until a task with no parent found. *)
Inductive parent_chain (tm : TaskManager) : loc -> list loc -> Prop :=
| chain_stop : forall x, (forall y, ~ parent_step tm x y) -> parent_chain tm x []
| chain_step : forall x y r, parent_step tm x y -> parent_chain tm y r -> parent_chain tm x (y :: r).

End TaskManagerMethods.

(** ** Further methods of StateManager (StateManager.ts) *)
Module StateManagerMethods.

Definition set_collapsed (t : Task) (b : bool) : Task :=
  mkTask (id t) (name t) (start t) (end_ t) (type_ t) (progress t) (color t)
    b (draggable t) (resizable t) (readonly t) (dependencies t)
    (dependsOn t) (parentId t) (children t) (critical t).

(** A task passed as the [updates] of [UPDATE_TASK]: every field of the
    object is spread ([parentId] only when the task has one). *)
Definition task_updates (t : Task) : TaskData :=
  mkTaskData (Some (id t)) (Some (name t)) (Some (start t)) (Some (end_ t)) (Some (type_ t))
    (Some (progress t)) (Some (color t)) (Some (collapsed t)) (Some (draggable t))
    (Some (resizable t)) (Some (readonly t)) (Some (dependencies t)) (Some (dependsOn t))
    (parentId t) (Some (children t)) (Some (critical t)).

Import StateManager.

Section Methods.
Context {Caches : Type}.
Variable buildCaches : StateManagerState -> Caches.
Variable scrollMetrics : Caches -> StateManagerState -> VirtualScrollConfig.

(** [_calculateVirtualScrollMetrics()]: the virtual-scroll window computed
    from the current (not rebuilt) caches and the state. *)
Definition _calculateVirtualScrollMetrics (sm : @StateManager Caches) : @StateManager Caches :=
  set_state sm (with_virtualScroll (_state sm) (scrollMetrics (_caches sm) (_state sm))).

(** [updateScrollPosition(scrollTop)]. *)
Definition updateScrollPosition (sm : @StateManager Caches) (scrollTop : Z) : @StateManager Caches :=
  let v := viewSettings (_state sm) in
  let s := with_viewSettings (_state sm)
             (mkViewSettings (mode v) scrollTop (zoomLevel v) (taskListWidth v) (timelineWidth v)) in
  _notifySubscribers (_calculateVirtualScrollMetrics (set_state sm s)).

(** [updateTasks(tasks)]. *)
Definition updateTasks (sm : @StateManager Caches) (ts : list Task) : @StateManager Caches :=
  let sm1 := _saveToHistory sm in
  _notifySubscribers (_initializeCache buildCaches scrollMetrics
                        (set_state sm1 (with_tasks (_state sm1) ts))).

(** [updateDependencies(dependencies)]. *)
Definition updateDependencies (sm : @StateManager Caches) (ds : list Dependency) : @StateManager Caches :=
  let sm1 := _saveToHistory sm in
  _notifySubscribers (_initializeCache buildCaches scrollMetrics
                        (set_state sm1 (with_dependencies (_state sm1) ds))).

(** [toggleTaskCollapse(taskId)]: nothing happens when no task has the id. *)
Definition toggleTaskCollapse (sm : @StateManager Caches) (i : TaskId) : @StateManager Caches :=
  match find (fun t => TaskId_eqb (id t) i) (StateManager.tasks (_state sm)) with
  | None => sm
  | Some _ =>
      let sm1 := _saveToHistory sm in
      let ts := update_first (StateManager.tasks (_state sm1)) i
                  (fun t => set_collapsed t (negb (collapsed t))) in
      _notifySubscribers (_initializeCache buildCaches scrollMetrics
                            (set_state sm1 (with_tasks (_state sm1) ts)))
  end.

(** [subscribe(callback)]: the callback joins the set of subscribers and is
    called at once with the state. *)
Definition subscribe (sm : @StateManager Caches) (k : nat) : @StateManager Caches :=
  let subs := if existsb (Nat.eqb k) (_subscribers sm) then _subscribers sm
              else _subscribers sm ++ [k] in
  mkSM (_state sm) (_history sm) (_future sm) (_maxHistorySize sm) subs
       (_caches sm) (_batchUpdate sm) (_pendingActions sm) (notified sm ++ [(k, _state sm)]).

(** The function [subscribe] returns: [this._subscribers.delete(callback)]. *)
Definition unsubscribe (sm : @StateManager Caches) (k : nat) : @StateManager Caches :=
  mkSM (_state sm) (_history sm) (_future sm) (_maxHistorySize sm)
       (filter (fun x => negb (Nat.eqb x k)) (_subscribers sm))
       (_caches sm) (_batchUpdate sm) (_pendingActions sm) (notified sm).

(** [clearHistory()]. *)
Definition clearHistory (sm : @StateManager Caches) : @StateManager Caches :=
  mkSM (_state sm) [] [] (_maxHistorySize sm) (_subscribers sm)
       (_caches sm) (_batchUpdate sm) (_pendingActions sm) (notified sm).

(** The [while] loop of [setMaxHistorySize]: it runs at most once per
    history entry. *)
Fixpoint shift_while (fuel n : nat) (h : list StateManagerState) : list StateManagerState :=
  match fuel with
  | O => h
  | S f => if Nat.ltb n (length h) then shift_while f n (tl h) else h
  end.

(** [setMaxHistorySize(size)] for an integer [size]. *)
Definition setMaxHistorySize (sm : @StateManager Caches) (size : Z) : @StateManager Caches :=
  if 0 <? size then
    let n := Z.to_nat size in
    mkSM (_state sm) (shift_while (length (_history sm)) n (_history sm)) (_future sm) n
         (_subscribers sm) (_caches sm) (_batchUpdate sm) (_pendingActions sm) (notified sm)
  else sm.

(** [batchUpdateTasks(tasks)]: the [findIndex] test reads the state, which
    the queued actions do not change before the commit. *)
Definition batchUpdateTasks (sm : @StateManager Caches) (ts : list Task) : @StateManager Caches :=
  let sm1 := beginBatchUpdate sm in
  let sm2 := fold_left (fun sm t =>
                if existsb (fun x => TaskId_eqb (id x) (id t)) (StateManager.tasks (_state sm))
                then dispatch buildCaches scrollMetrics sm (UPDATE_TASK (id t) (task_updates t))
                else dispatch buildCaches scrollMetrics sm (ADD_TASK t)) ts sm1 in
  commitBatchUpdate buildCaches scrollMetrics sm2.

End Methods.
End StateManagerMethods.

(** * Properties *)

(** ** Basic facts on ids and sets *)
Module IdFacts.

Lemma TaskId_eqb_eq (a b : TaskId) : TaskId_eqb a b = true <-> a = b.
Proof.
  destruct a as [x|x], b as [y|y]; simpl; split; intro H; try discriminate.
  - apply Z.eqb_eq in H; subst; reflexivity.
  - inversion H; subst; apply Z.eqb_refl.
  - apply String.eqb_eq in H; subst; reflexivity.
  - inversion H; subst; apply String.eqb_refl.
Qed.

Lemma TaskId_eqb_refl (a : TaskId) : TaskId_eqb a a = true.
Proof. apply TaskId_eqb_eq; reflexivity. Qed.


Lemma mem_In (x : TaskId) (l : list TaskId) : mem x l = true <-> In x l.
Proof.
  unfold mem; rewrite existsb_exists; split.
  - intros [y [Hy E]]; apply TaskId_eqb_eq in E; subst; exact Hy.
  - intro H; exists x; split; [exact H | apply TaskId_eqb_refl].
Qed.

Lemma mem_false (x : TaskId) (l : list TaskId) : mem x l = false <-> ~ In x l.
Proof.
  rewrite <- mem_In; destruct (mem x l); split; intro H; congruence.
Qed.

Lemma In_set_add (x y : TaskId) (l : list TaskId) : In y (set_add x l) <-> y = x \/ In y l.
Proof.
  unfold set_add; destruct (mem x l) eqn:E.
  - apply mem_In in E; split; [auto | intros [->|H]; auto].
  - rewrite in_app_iff; simpl; split; intros [H|H]; auto.
    + destruct H; auto; contradiction.
Qed.

Lemma NoDup_set_add (x : TaskId) (l : list TaskId) : NoDup l -> NoDup (set_add x l).
Proof.
  unfold set_add; destruct (mem x l) eqn:E; auto.
  intro H; apply mem_false in E.
  apply NoDup_app; auto using NoDup_cons, NoDup_nil.
  intros y Hy Hy'; simpl in Hy'; destruct Hy' as [->|[]]; contradiction.
Qed.

End IdFacts.

(** ** StateManager *)
Module StateManagerFacts.
Import StateManager Examples.

(** C10: when [commitBatchUpdate()] is called with no action queued, or
    outside batch mode, it only clears the batching flag: the state (with
    its virtual-scroll window), the undo history, the redo stack, the
    caches and the record of subscriber calls are unchanged. *)
Theorem C10_empty_commit_noop {C : Type} (bc : StateManagerState -> C)
    (sc : C -> StateManagerState -> VirtualScrollConfig) (sm : StateManager)
    (Hidle : _batchUpdate sm = false \/ _pendingActions sm = []) :
  let sm' := commitBatchUpdate bc sc sm in
  _state sm' = _state sm /\ _history sm' = _history sm /\ _future sm' = _future sm /\
  _caches sm' = _caches sm /\ notified sm' = notified sm /\ _batchUpdate sm' = false.
Proof.
  assert (E : negb (_batchUpdate sm) || Nat.eqb (length (_pendingActions sm)) 0 = true).
  { destruct Hidle as [H|H]; rewrite H; simpl; [reflexivity | apply orb_true_r]. }
  simpl; unfold commitBatchUpdate; rewrite E; simpl; repeat split.
Qed.

Lemma C10_witness :
  (_batchUpdate (sm_init tt example_state) = false \/ _pendingActions (sm_init tt example_state) = []) /\
  (let sm' := commitBatchUpdate unit_caches keep_scroll (sm_init tt example_state) in
   _state sm' = _state (sm_init tt example_state) /\
   _history sm' = _history (sm_init tt example_state) /\
   _future sm' = _future (sm_init tt example_state) /\
   _caches sm' = _caches (sm_init tt example_state) /\
   notified sm' = notified (sm_init tt example_state) /\ _batchUpdate sm' = false).
Proof.
  split; [left; reflexivity |].
  apply (C10_empty_commit_noop unit_caches keep_scroll (sm_init tt example_state)).
  left; reflexivity.
Defined.

(** One mutation (adding a task) followed by one [undo()] and one
    [redo()], whatever the caches are. *)
Lemma add_undo_redo :
  forall (C : Type) (bc : StateManagerState -> C)
         (sc : C -> StateManagerState -> VirtualScrollConfig) (c : C),
  let sm := sm_init c example_state in
  let sm1 := dispatch bc sc sm (ADD_TASK (ex_task 1 "2024-01-01" "2024-01-05")) in
  let sm2 := snd (redo bc sc (snd (undo bc sc sm1))) in
  StateManager.tasks (_state sm) = [] /\
  StateManager.tasks (_state sm2) = [ex_task 1 "2024-01-01" "2024-01-05"].
Proof. intros; split; reflexivity. Qed.

(** C3 (counterexample): one mutation (adding a task) followed by one
    [undo()] and one [redo()] leaves the task list with the added task, not
    the empty task list observed before the mutation: [redo] re-applies
    what [undo] took back. *)
Lemma C3_undo_redo_not_initial :
  let sm := sm_init tt example_state in
  let sm1 := dispatch unit_caches keep_scroll sm (ADD_TASK (ex_task 1 "2024-01-01" "2024-01-05")) in
  let sm2 := snd (redo unit_caches keep_scroll (snd (undo unit_caches keep_scroll sm1))) in
  StateManager.tasks (_state sm) = [] /\
  StateManager.tasks (_state sm2) = [ex_task 1 "2024-01-01" "2024-01-05"].
Proof. exact (add_undo_redo unit unit_caches keep_scroll tt). Qed.

(** A batch of one action committed on a full history, whatever the
    caches are. *)
Lemma commit_full_history :
  forall (C : Type) (bc : StateManagerState -> C)
         (sc : C -> StateManagerState -> VirtualScrollConfig) (c : C),
  let sm := beginBatchUpdate (sm_full c example_state) in
  let sm1 := dispatch bc sc sm (SELECT_TASK (TNum 1)) in
  let sm2 := commitBatchUpdate bc sc sm1 in
  undoStackSize sm1 = 10%nat /\ undoStackSize sm2 = 10%nat.
Proof. intros; split; reflexivity. Qed.

(** C8 (counterexample): with the undo history at its capacity of 10, a
    batch of one action is committed and the history still has 10 entries:
    the new entry evicts the oldest one, so [undoStackSize] does not grow
    by 1. *)
Lemma C8_commit_full_history :
  let sm := beginBatchUpdate (sm_full tt example_state) in
  let sm1 := dispatch unit_caches keep_scroll sm (SELECT_TASK (TNum 1)) in
  let sm2 := commitBatchUpdate unit_caches keep_scroll sm1 in
  undoStackSize sm1 = 10%nat /\ undoStackSize sm2 = 10%nat.
Proof. exact (commit_full_history unit unit_caches keep_scroll tt). Qed.

(** *** The undo and redo stacks *)

Lemma map_removelast {A B : Type} (f : A -> B) (l : list A) :
  map f (removelast l) = removelast (map f l).
Proof.
  induction l as [|a l IH]; [reflexivity|].
  destruct l as [|b l]; [reflexivity|].
  change (f a :: map f (removelast (b :: l)) = f a :: removelast (map f (b :: l))).
  rewrite IH; reflexivity.
Qed.

Lemma map_last {A B : Type} (f : A -> B) (l : list A) (d : A) :
  f (last l d) = last (map f l) (f d).
Proof.
  induction l as [|a l IH]; [reflexivity|].
  destruct l as [|b l]; [reflexivity|].
  exact IH.
Qed.

Lemma aundo_cons {A : Type} (h : list A) (s : A) (f : list A) :
  h <> [] -> aundo (h, s, f) = (removelast h, last h s, f ++ [s]).
Proof. destruct h; [intro H; contradiction H; reflexivity | reflexivity]. Qed.

Lemma aredo_cons {A : Type} (h : list A) (s : A) (f : list A) :
  f <> [] -> aredo (h, s, f) = (h ++ [s], last f s, removelast f).
Proof. destruct f; [intro H; contradiction H; reflexivity | reflexivity]. Qed.

Lemma stacks_undo {C : Type} (bc : StateManagerState -> C)
    (sc : C -> StateManagerState -> VirtualScrollConfig) (sm : StateManager) :
  stacks (snd (undo bc sc sm)) = aundo (stacks sm).
Proof.
  unfold undo; destruct (_history sm) as [|x h] eqn:E.
  - cbn [snd]; unfold stacks; rewrite E; reflexivity.
  - unfold stacks at 2; rewrite E, aundo_cons by (simpl; discriminate).
    unfold stacks; cbn [snd _state _history _future _notifySubscribers _initializeCache].
    rewrite map_removelast, map_app; f_equal; f_equal.
    apply (map_last td_of (x :: h) (_state sm)).
Qed.

Lemma stacks_redo {C : Type} (bc : StateManagerState -> C)
    (sc : C -> StateManagerState -> VirtualScrollConfig) (sm : StateManager) :
  stacks (snd (redo bc sc sm)) = aredo (stacks sm).
Proof.
  unfold redo; destruct (_future sm) as [|x f] eqn:E.
  - cbn [snd]; unfold stacks; rewrite E; reflexivity.
  - unfold stacks at 2; rewrite E, aredo_cons by (simpl; discriminate).
    unfold stacks; cbn [snd _state _history _future _notifySubscribers _initializeCache].
    rewrite map_removelast, map_app; f_equal; f_equal.
    apply (map_last td_of (x :: f) (_state sm)).
Qed.

Lemma stacks_undo_n {C : Type} (bc : StateManagerState -> C)
    (sc : C -> StateManagerState -> VirtualScrollConfig) (n : nat) (sm : StateManager) :
  stacks (undo_n bc sc n sm) = Nat.iter n aundo (stacks sm).
Proof.
  revert sm; induction n as [|k IH]; intro sm; [reflexivity|].
  cbn [undo_n]; rewrite IH, stacks_undo, Nat.iter_succ_r; reflexivity.
Qed.

Lemma stacks_redo_n {C : Type} (bc : StateManagerState -> C)
    (sc : C -> StateManagerState -> VirtualScrollConfig) (n : nat) (sm : StateManager) :
  stacks (redo_n bc sc n sm) = Nat.iter n aredo (stacks sm).
Proof.
  revert sm; induction n as [|k IH]; intro sm; [reflexivity|].
  cbn [redo_n]; rewrite IH, stacks_redo, Nat.iter_succ_r; reflexivity.
Qed.

Lemma aredo_aundo {A : Type} (h : list A) (s : A) (f : list A) :
  h <> [] -> aredo (aundo (h, s, f)) = (h, s, f).
Proof.
  intro Hh; rewrite aundo_cons, aredo_cons by (destruct f; discriminate || exact Hh).
  rewrite last_last, removelast_last, <- app_removelast_last by exact Hh; reflexivity.
Qed.

Lemma aundo_length {A : Type} (a : list A * A * list A) :
  length (fst (fst (aundo a))) = (length (fst (fst a)) - 1)%nat.
Proof.
  destruct a as [[h s] f]; destruct h as [|x h]; [reflexivity|].
  rewrite aundo_cons by discriminate; cbn [fst].
  rewrite (app_removelast_last s (l := x :: h)) at 2 by discriminate.
  rewrite length_app; simpl; lia.
Qed.

Lemma iter_aundo_length {A : Type} (n : nat) (a : list A * A * list A) :
  length (fst (fst (Nat.iter n aundo a))) = (length (fst (fst a)) - n)%nat.
Proof.
  induction n as [|k IH]; [simpl; lia|].
  change (Nat.iter (S k) aundo a) with (aundo (Nat.iter k aundo a)).
  rewrite aundo_length, IH; lia.
Qed.

(** [n] redos after [n] undos give the stacks back, provided the history
    holds at least [n] entries. *)
Lemma redo_after_undo {A : Type} (n : nat) (a : list A * A * list A) :
  (n <= length (fst (fst a)))%nat -> Nat.iter n aredo (Nat.iter n aundo a) = a.
Proof.
  revert a; induction n as [|k IH]; intros a Hn; [reflexivity|].
  change (Nat.iter (S k) aundo a) with (aundo (Nat.iter k aundo a)).
  rewrite Nat.iter_succ_r.
  pose proof (iter_aundo_length k a) as L.
  destruct (Nat.iter k aundo a) as [[h s] f] eqn:E; cbn [fst] in L.
  rewrite aredo_aundo, <- E by (intro Z; subst h; simpl in L; lia).
  apply IH; lia.
Qed.

(** [n] undos on a history ending in [L] of length [n] end on the first
    entry of [L]. *)
Lemma undo_state {A : Type} (n : nat) (H L : list A) (s : A) (f : list A) :
  length L = n -> snd (fst (Nat.iter n aundo (H ++ L, s, f))) = hd s L.
Proof.
  revert L s f; induction n as [|k IH]; intros L s f EL.
  - destruct L; [reflexivity | discriminate].
  - destruct (exists_last (l := L)) as (L' & x & ->); [intro Z; subst; discriminate|].
    rewrite length_app in EL; simpl in EL.
    rewrite Nat.iter_succ_r, app_assoc, aundo_cons
      by (intro Z; apply app_eq_nil in Z; destruct Z as [_ Z]; discriminate).
    rewrite removelast_last, last_last, IH by lia.
    destruct L'; reflexivity.
Qed.

Lemma dispatch_all_app {C : Type} (bc : StateManagerState -> C)
    (sc : C -> StateManagerState -> VirtualScrollConfig) (l1 l2 : list GanttAction) (sm : StateManager) :
  dispatch_all bc sc sm (l1 ++ l2) = dispatch_all bc sc (dispatch_all bc sc sm l1) l2.
Proof. revert sm; induction l1 as [|a l1 IH]; intro sm; [reflexivity | apply IH]. Qed.

Lemma dispatch_all_idle {C : Type} (bc : StateManagerState -> C)
    (sc : C -> StateManagerState -> VirtualScrollConfig) (acts : list GanttAction) (sm : StateManager) :
  _batchUpdate sm = false ->
  _batchUpdate (dispatch_all bc sc sm acts) = false /\
  _maxHistorySize (dispatch_all bc sc sm acts) = _maxHistorySize sm.
Proof.
  revert sm; induction acts as [|a acts IH]; intros sm Hb; [split; [exact Hb | reflexivity]|].
  cbn [dispatch_all].
  destruct (IH (dispatch bc sc sm a)) as [IH1 IH2]; [unfold dispatch; rewrite Hb; exact Hb|].
  split; [exact IH1|]; rewrite IH2; unfold dispatch; rewrite Hb; reflexivity.
Qed.

(** After [n] immediate dispatches the history ends in [n] entries, the
    first of which has the tasks and dependencies of the starting state,
    as long as the capacity is at least [n]. *)
Lemma dispatch_all_history {C : Type} (bc : StateManagerState -> C)
    (sc : C -> StateManagerState -> VirtualScrollConfig) (acts : list GanttAction) (sm : StateManager) :
  _batchUpdate sm = false -> (length acts <= _maxHistorySize sm)%nat ->
  exists H L, map td_of (_history (dispatch_all bc sc sm acts)) = (H ++ L)%list /\
    length L = length acts /\ hd (td_of (_state (dispatch_all bc sc sm acts))) L = td_of (_state sm).
Proof.
  intros Hb; induction acts as [|a acts IH] using rev_ind; intro Hcap.
  - exists (map td_of (_history sm)), []; split; [rewrite app_nil_r|]; split; reflexivity.
  - rewrite length_app in Hcap; simpl in Hcap.
    destruct IH as (H & L & EH & EL & Ehd); [lia|].
    destruct (dispatch_all_idle bc sc acts sm Hb) as [Hb' Hm'].
    rewrite dispatch_all_app; cbn [dispatch_all].
    set (sm' := dispatch_all bc sc sm acts) in *.
    unfold dispatch; rewrite Hb'.
    cbn [_history _state _notifySubscribers _initializeCache set_state _saveToHistory].
    exists (if Nat.ltb (_maxHistorySize sm') (length (_history sm' ++ [_state sm'])) then tl H else H),
      (L ++ [td_of (_state sm')]); split; [|split].
    + assert (E : map td_of (_history sm' ++ [_state sm']) = (H ++ (L ++ [td_of (_state sm')]))%list).
      { rewrite map_app, EH, app_assoc; reflexivity. }
      destruct (Nat.ltb _ _) eqn:Lt; [|exact E].
      apply Nat.ltb_lt in Lt; rewrite length_app, Hm' in Lt; simpl in Lt.
      replace (map td_of (tl (_history sm' ++ [_state sm'])))
        with (tl (map td_of (_history sm' ++ [_state sm'])))
        by (destruct (_history sm' ++ [_state sm']); reflexivity).
      rewrite E.
      destruct H as [|y H]; [|reflexivity].
      apply (f_equal (@length _)) in EH; rewrite length_map in EH; simpl in EH; lia.
    + rewrite length_app, EL, length_app; reflexivity.
    + destruct L; exact Ehd.
Qed.

(** C3 (amended): on a manager outside batch mode, [N] dispatched
    mutations with [N] at most the history capacity, followed by [N]
    calls of [undo()], give back the tasks and dependencies observed
    before the first mutation; [N] further calls of [redo()] then give
    back the tasks and dependencies observed after the last mutation. *)
Theorem C3_undo_redo_roundtrip {C : Type} (bc : StateManagerState -> C)
    (sc : C -> StateManagerState -> VirtualScrollConfig) (sm : StateManager)
    (acts : list GanttAction)
    (Hidle : _batchUpdate sm = false) (Hcap : (length acts <= _maxHistorySize sm)%nat) :
  let smN := dispatch_all bc sc sm acts in
  let smU := undo_n bc sc (length acts) smN in
  td_of (_state smU) = td_of (_state sm) /\
  td_of (_state (redo_n bc sc (length acts) smU)) = td_of (_state smN).
Proof.
  intros smN smU.
  destruct (dispatch_all_history bc sc acts sm Hidle Hcap) as (H & L & EH & EL & Ehd).
  fold smN in EH, Ehd.
  assert (S : stacks smN = ((H ++ L)%list, td_of (_state smN), map td_of (_future smN))).
  { unfold stacks; rewrite EH; reflexivity. }
  split.
  - change (td_of (_state smU)) with (snd (fst (stacks smU))).
    unfold smU; rewrite stacks_undo_n, S, undo_state by exact EL; exact Ehd.
  - change (td_of (_state (redo_n bc sc (length acts) smU)))
      with (snd (fst (stacks (redo_n bc sc (length acts) smU)))).
    unfold smU; rewrite stacks_redo_n, stacks_undo_n, redo_after_undo; [reflexivity|].
    rewrite S; cbn [fst]; rewrite length_app; lia.
Qed.

Lemma C3_witness :
  (_batchUpdate (sm_init tt example_state) = false /\
   (length [ADD_TASK (ex_task 1 "2024-01-01" "2024-01-05")]
      <= _maxHistorySize (sm_init tt example_state))%nat) /\
  (let smN := dispatch_all unit_caches keep_scroll (sm_init tt example_state)
                [ADD_TASK (ex_task 1 "2024-01-01" "2024-01-05")] in
   let smU := undo_n unit_caches keep_scroll 1 smN in
   td_of (_state smU) = td_of (_state (sm_init tt example_state)) /\
   td_of (_state (redo_n unit_caches keep_scroll 1 smU)) = td_of (_state smN)).
Proof.
  split; [split; [reflexivity | simpl; lia]|].
  apply (C3_undo_redo_roundtrip unit_caches keep_scroll (sm_init tt example_state)
           [ADD_TASK (ex_task 1 "2024-01-01" "2024-01-05")]); [reflexivity | simpl; lia].
Defined.

(** *** Batch mode *)

Lemma dispatch_all_batch {C : Type} (bc : StateManagerState -> C)
    (sc : C -> StateManagerState -> VirtualScrollConfig) (acts : list GanttAction)
    (sm : StateManager) (p : list GanttAction) :
  dispatch_all bc sc (set_batch sm true p) acts = set_batch sm true (p ++ acts).
Proof.
  revert p; induction acts as [|a acts IH]; intro p; [rewrite app_nil_r; reflexivity|].
  cbn [dispatch_all].
  replace (dispatch bc sc (set_batch sm true p) a) with (set_batch sm true (p ++ [a]))
    by reflexivity.
  rewrite IH, <- app_assoc; reflexivity.
Qed.

(** C8 (amended): after [beginBatchUpdate()], every sequence of
    dispatches leaves the state, the history, the redo stack and the
    record of subscriber calls as they were and only queues the actions.
    When at least one action is queued and the history is below its
    capacity, [commitBatchUpdate()] pushes exactly one history entry, the
    state before the batch (so [undoStackSize] grows by 1), sets the tasks
    and dependencies to the result of applying the queued actions in
    order, and returns the manager to the idle mode with an empty queue. *)
Theorem C8_batch_commit {C : Type} (bc : StateManagerState -> C)
    (sc : C -> StateManagerState -> VirtualScrollConfig) (sm : StateManager)
    (acts : list GanttAction)
    (Hne : acts <> []) (Hcap : (length (_history sm) < _maxHistorySize sm)%nat) :
  let smb := dispatch_all bc sc (beginBatchUpdate sm) acts in
  let smc := commitBatchUpdate bc sc smb in
  _state smb = _state sm /\ _history smb = _history sm /\ _future smb = _future sm /\
  notified smb = notified sm /\ _batchUpdate smb = true /\ _pendingActions smb = acts /\
  undoStackSize smc = S (undoStackSize sm) /\
  _history smc = (_history sm ++ [_state sm])%list /\
  td_of (_state smc) = td_of (fold_left _handleAction acts (_state sm)) /\
  _batchUpdate smc = false /\ _pendingActions smc = [].
Proof.
  intros smb smc.
  assert (Eb : smb = set_batch sm true acts) by apply (dispatch_all_batch bc sc acts sm []).
  assert (Ec : negb (_batchUpdate smb) || Nat.eqb (length (_pendingActions smb)) 0 = false).
  { rewrite Eb; destruct acts; [contradiction Hne; reflexivity | reflexivity]. }
  assert (El : Nat.ltb (_maxHistorySize sm) (length (_history sm ++ [_state sm])) = false).
  { apply Nat.ltb_ge; rewrite length_app; simpl; lia. }
  assert (Hh : _history smc = (_history sm ++ [_state sm])%list).
  { unfold smc, commitBatchUpdate; rewrite Ec, Eb.
    unfold _notifySubscribers, _initializeCache, set_batch, set_state, _saveToHistory.
    cbn [_history _state _maxHistorySize]; rewrite El; reflexivity. }
  unfold undoStackSize; rewrite Hh, length_app, Nat.add_1_r.
  unfold smc, commitBatchUpdate; rewrite Ec, Eb; repeat split.
Qed.

Lemma C8_witness :
  ([SELECT_TASK (TNum 1); SELECT_TASK (TNum 2)] <> [] /\
   (length (_history (sm_init tt example_state)) < _maxHistorySize (sm_init tt example_state))%nat) /\
  (let smb := dispatch_all unit_caches keep_scroll (beginBatchUpdate (sm_init tt example_state))
                [SELECT_TASK (TNum 1); SELECT_TASK (TNum 2)] in
   let smc := commitBatchUpdate unit_caches keep_scroll smb in
   _state smb = _state (sm_init tt example_state) /\
   _history smb = _history (sm_init tt example_state) /\
   _future smb = _future (sm_init tt example_state) /\
   notified smb = notified (sm_init tt example_state) /\ _batchUpdate smb = true /\
   _pendingActions smb = [SELECT_TASK (TNum 1); SELECT_TASK (TNum 2)] /\
   undoStackSize smc = S (undoStackSize (sm_init tt example_state)) /\
   _history smc = (_history (sm_init tt example_state) ++ [_state (sm_init tt example_state)])%list /\
   td_of (_state smc) = td_of (fold_left _handleAction [SELECT_TASK (TNum 1); SELECT_TASK (TNum 2)]
                            (_state (sm_init tt example_state))) /\
   _batchUpdate smc = false /\ _pendingActions smc = []).
Proof.
  split; [split; [discriminate | simpl; lia]|].
  apply (C8_batch_commit unit_caches keep_scroll (sm_init tt example_state)
           [SELECT_TASK (TNum 1); SELECT_TASK (TNum 2)]); [discriminate | simpl; lia].
Defined.

End StateManagerFacts.

(** ** TaskManager: concrete runs *)
Module TaskManagerRuns.
Import TaskManager Examples.
Local Open Scope string_scope.

(** C2 (the code does not raise): [createTask] on the input of the unit
    test "should throw error with invalid dates" (start ['invalid-date'],
    end ['2024-01-05']) returns normally on every manager and every day:
    the task is appended to the task list, with the current day as its
    start date. *)
Theorem C2_invalid_start_accepted (tm : TaskManager) (now : Z) :
  let '(l, tm') := createTask tm now td_invalid_dates in
  TaskManager.tasks tm' = (TaskManager.tasks tm ++ [l])%list /\
  exists t, deref (heap tm') l = Some t /\
            start t = DateUtils.format (JValid now) /\ end_ t = "2024-01-05" /\
            name t = "Invalid Task".
Proof.
  unfold createTask; simpl.
  split; [reflexivity |].
  eexists; split.
  - unfold deref; rewrite nth_error_app2 by lia; rewrite Nat.sub_diag; reflexivity.
  - repeat split; vm_compute; reflexivity.
Qed.

(** C5 (the code double counts): for project P with subtask A (progress
    0) whose subtask is G (progress 90), the descendants of P are A and G
    (locations 1 and 2, progress 0 and 90, so each counted once their
    average is 45), but [calculateProjectProgress] averages the list
    [children ++ descendants] = [A; A; G] and returns 30. *)
Theorem C5_double_count :
  getDescendantTasks tm_PAG (TStr "P") = Some [1%nat; 2%nat] /\
  map (progress_at (heap tm_PAG)) [1%nat; 2%nat] = [0; 90]%Z /\
  calculateProjectProgress tm_PAG (TStr "P") = Some 30%Z.
Proof. vm_compute; repeat split. Qed.

(** C1 (counterexample): with the option [checkCircularDependencies]
    switched off, starting from tasks A and B and no dependency, the calls
    [createDependency(A,B)] and [createDependency(B,A)] both succeed and
    [checkCircularDependencies()] then returns true. *)
Lemma C1_no_check_keeps_cycle :
  let tm := tm_AB no_cycle_check in
  let p1 := createDependency tm (TStr "A") (TStr "B") finish_to_start 0 in
  let p2 := createDependency (snd p1) (TStr "B") (TStr "A") finish_to_start 0 in
  getDependencies tm = [] /\ fst p1 = Some 0%nat /\ fst p2 = Some 1%nat /\
  checkCircularDependencies (snd p2) = true.
Proof. vm_compute; repeat split. Qed.

(** C6 (counterexample): task A has parent B and task B has parent A (both
    created by [createTask]); [deleteTask(A)] on this existing id, which
    lies on a cycle of [parentId] links, does not return true: the recursive collection never terminates and raises
    (the [None] of the model). *)
Lemma C6_parent_cycle_raises :
  task_ids tm_parent_cycle = [TStr "A"; TStr "B"] /\
  deleteTask tm_parent_cycle (TStr "A") = None.
Proof. vm_compute; split; reflexivity. Qed.

(** C7 (counterexample): for an existing task A, two successive calls
    [createDependency(A,A)] both return null (the self-loop is a cycle and
    is rolled back), and the dependency list does not grow. *)
Lemma C7_self_loop_twice :
  let tm := tm_AB TaskManagerOptions.defaults in
  let p1 := createDependency tm (TStr "A") (TStr "A") finish_to_start 0 in
  let p2 := createDependency (snd p1) (TStr "A") (TStr "A") finish_to_start 0 in
  fst p1 = None /\ fst p2 = None /\
  length (getDependencies (snd p2)) = length (getDependencies tm).
Proof. vm_compute; repeat split. Qed.

(** C9 (counterexample): two [createTask] calls with the same explicit id
    leave two tasks with that id. *)
Lemma C9_duplicate_explicit_id :
  task_ids tm_dup = [TStr "X"; TStr "X"] /\ ~ NoDup (task_ids tm_dup).
Proof.
  split; [vm_compute; reflexivity |].
  vm_compute; intro H; inversion H as [|x l Hn Hd]; apply Hn; left; reflexivity.
Qed.

End TaskManagerRuns.

(** ** The auto-scheduler: concrete runs *)
Module SchedulerRuns.
Import TaskUtils Examples.
Local Open Scope string_scope.

(** The scheduler on the two tasks of the example with dependencies
    1 -> 2 and 2 -> 1, on every day. *)
Lemma cycle_schedule (now : Z) :
  map (fun t => (id t, start t, end_ t)) (autoScheduleTasks now sched_tasks [dep12; dep21]) =
  [(TNum 2, "2024-01-06", "2024-01-11"); (TNum 1, "2024-01-12", "2024-01-16")].
Proof. vm_compute; reflexivity. Qed.



End SchedulerRuns.

(** ** The heap *)
Module HeapFacts.

Lemma view_cons {A} (h : list A) (l : loc) (ls : list loc) :
  view h (l :: ls) = match deref h l with Some t => [t] | None => [] end ++ view h ls.
Proof. reflexivity. Qed.

Lemma view_app {A} (h : list A) (ls ls' : list loc) : view h (ls ++ ls') = view h ls ++ view h ls'.
Proof. unfold view; apply flat_map_app. Qed.

Lemma view_map {A B} (f : A -> B) (h : list A) (ls : list loc) :
  map f (view h ls) = view (map f h) ls.
Proof.
  induction ls as [|l ls IH]; [reflexivity|].
  rewrite !view_cons, map_app, IH; unfold deref; rewrite nth_error_map.
  destruct (nth_error h l); reflexivity.
Qed.

Lemma deref_app_l {A} (h h' : list A) (l : loc) : (l < length h)%nat -> deref (h ++ h') l = deref h l.
Proof. intro H; unfold deref; apply nth_error_app1; exact H. Qed.

Lemma deref_last {A} (h : list A) (x : A) : deref (h ++ [x]) (length h) = Some x.
Proof. unfold deref; rewrite nth_error_app2, Nat.sub_diag by lia; reflexivity. Qed.

Lemma view_app_heap {A} (h h' : list A) (ls : list loc) :
  Forall (fun l => (l < length h)%nat) ls -> view (h ++ h') ls = view h ls.
Proof.
  induction 1 as [|l ls Hl _ IH]; [reflexivity|].
  rewrite !view_cons, IH, deref_app_l by exact Hl; reflexivity.
Qed.

Lemma find_loc_app_heap {A} (h h' : list A) (ls : list loc) (p : A -> bool) :
  Forall (fun l => (l < length h)%nat) ls -> find_loc (h ++ h') ls p = find_loc h ls p.
Proof.
  induction 1 as [|l ls Hl _ IH]; [reflexivity|].
  simpl; rewrite deref_app_l by exact Hl; rewrite IH; reflexivity.
Qed.

Lemma find_loc_app_locs {A} (h : list A) (ls ls' : list loc) (p : A -> bool) :
  find_loc h (ls ++ ls') p =
  match find_loc h ls p with Some l => Some l | None => find_loc h ls' p end.
Proof.
  induction ls as [|l ls IH]; [reflexivity|].
  simpl; destruct (deref h l) as [t|]; [destruct (p t)|]; auto.
Qed.

Lemma find_loc_map {A B} (f : A -> B) (q : B -> bool) (h : list A) (h' : list A) (ls : list loc) :
  map f h = map f h' -> find_loc h ls (fun t => q (f t)) = find_loc h' ls (fun t => q (f t)).
Proof.
  intro E; induction ls as [|l ls IH]; [reflexivity|].
  simpl; unfold deref.
  assert (N : nth_error (map f h) l = nth_error (map f h') l) by (rewrite E; reflexivity).
  rewrite !nth_error_map in N.
  destruct (nth_error h l) as [t|], (nth_error h' l) as [t'|]; simpl in N;
    try discriminate; [| exact IH].
  inversion N as [N']; rewrite N'; destruct (q (f t')); auto.
Qed.

Lemma find_loc_some {A} (h : list A) (ls : list loc) (p : A -> bool) (l : loc) :
  find_loc h ls p = Some l -> In l ls /\ exists t, deref h l = Some t /\ p t = true.
Proof.
  induction ls as [|l' ls IH]; simpl; [discriminate|].
  destruct (deref h l') as [t|] eqn:D; [destruct (p t) eqn:P|].
  - intro E; inversion E; subst; split; [left; reflexivity | exists t; auto].
  - intro E; destruct (IH E) as [H1 H2]; split; [right; exact H1 | exact H2].
  - intro E; destruct (IH E) as [H1 H2]; split; [right; exact H1 | exact H2].
Qed.

Lemma find_loc_none {A} (h : list A) (ls : list loc) (p : A -> bool) :
  find_loc h ls p = None <-> forall t, In t (view h ls) -> p t = false.
Proof.
  induction ls as [|l ls IH]; cbn [find_loc].
  - split; [intros _ t H; cbn in H; destruct H | reflexivity].
  - rewrite view_cons; destruct (deref h l) as [t|] eqn:D; cbn [app In].
    + destruct (p t) eqn:P; split.
      * discriminate.
      * intro H; rewrite (H t (or_introl eq_refl)) in P; discriminate.
      * intros H t' [<-|Ht']; [exact P | apply IH; auto].
      * intros H; apply IH; intros t' Ht'; apply H; right; exact Ht'.
    + exact IH.
Qed.

Lemma hset_length {A} (h : list A) (l : loc) (x : A) : length (hset h l x) = length h.
Proof.
  revert l; induction h as [|y h IH]; intros [|l]; simpl; auto.
Qed.

Lemma map_hset {A B} (f : A -> B) (h : list A) (l : loc) (x : A) :
  (forall y, deref h l = Some y -> f x = f y) -> map f (hset h l x) = map f h.
Proof.
  revert l; induction h as [|y h IH]; intros [|l] H; simpl; auto.
  - rewrite (H y eq_refl); reflexivity.
  - rewrite IH; auto.
Qed.

Lemma deref_hset_other {A} (h : list A) (l k : loc) (x : A) :
  k <> l -> deref (hset h l x) k = deref h k.
Proof.
  unfold deref; revert l k; induction h as [|y h IH]; intros [|l] [|k] H; simpl; auto;
    try congruence; apply IH; lia.
Qed.

Lemma deref_hset_same {A} (h : list A) (l : loc) (x : A) :
  (l < length h)%nat -> deref (hset h l x) l = Some x.
Proof.
  unfold deref; revert l; induction h as [|y h IH]; intros [|l] H; simpl in *; auto; try lia.
  apply IH; lia.
Qed.

End HeapFacts.

(** ** TaskManager: dependency index and cycle check *)
Module DependencyFacts.
Import TaskManager Invariants HeapFacts IdFacts.

Lemma set_links_id (t : Task) (a b : list TaskId) : id (set_links t a b) = id t.
Proof. reflexivity. Qed.

Lemma clear_links_ids (h : list Task) (ls : list loc) : map id (clear_links h ls) = map id h.
Proof.
  unfold clear_links; revert h; induction ls as [|l ls IH]; intro h; [reflexivity|].
  simpl; rewrite IH; destruct (deref h l) as [t|] eqn:D; [|reflexivity].
  apply map_hset; intros y E; rewrite D in E; inversion E; reflexivity.
Qed.

Lemma link_dep_ids (ls : list loc) (h : list Task) (d : Dependency) :
  map id (link_dep ls h d) = map id h.
Proof.
  unfold link_dep.
  assert (H1 : map id (match find_loc h ls (fun t => TaskId_eqb (id t) (fromId d)) with
                       | Some fl => match deref h fl with
                                    | Some ft => hset h fl (set_links ft (dependencies ft ++ [toId d]) (dependsOn ft))
                                    | None => h end
                       | None => h end) = map id h).
  { destruct (find_loc _ _ _) as [fl|]; [|reflexivity].
    destruct (deref h fl) as [ft|] eqn:D; [|reflexivity].
    apply map_hset; intros y E; rewrite D in E; inversion E; reflexivity. }
  destruct (find_loc _ ls (fun t => TaskId_eqb (id t) (toId d))) as [tl|]; [|exact H1].
  match goal with |- context [deref ?h1 tl] => destruct (deref h1 tl) as [tk|] eqn:D end;
    [|exact H1].
  rewrite map_hset; [exact H1|]; intros y E; rewrite D in E; inversion E; reflexivity.
Qed.

Lemma update_deps_heap_ids (tm : TaskManager) :
  map id (heap (_updateTaskDependencies tm)) = map id (heap tm).
Proof.
  unfold _updateTaskDependencies, set_heap; simpl.
  generalize (clear_links (heap tm) (tasks tm)) (clear_links_ids (heap tm) (tasks tm)).
  intros h0 E; rewrite <- E; clear E; revert h0.
  induction (getDependencies tm) as [|d ds IH]; intro h0; [reflexivity|].
  simpl; rewrite IH, link_dep_ids; reflexivity.
Qed.

Lemma task_ids_view (tm : TaskManager) : task_ids tm = view (map id (heap tm)) (tasks tm).
Proof. unfold task_ids, getTasks; apply view_map. Qed.

Lemma update_deps_task_ids (tm : TaskManager) : task_ids (_updateTaskDependencies tm) = task_ids tm.
Proof. rewrite !task_ids_view, update_deps_heap_ids; reflexivity. Qed.

Lemma check_from_ids (g : TaskId -> list TaskId) (f : nat) (ts ts' : list Task) vr :
  map id ts = map id ts' -> check_from g f ts vr = check_from g f ts' vr.
Proof.
  revert ts' vr; induction ts as [|t ts IH]; intros [|t' ts'] vr E; try discriminate; [reflexivity|].
  simpl in E; inversion E as [[E1 E2]]; simpl; rewrite E1.
  destruct (hasCycle f g (id t') vr) as [b vr']; destruct b; [reflexivity | apply IH; exact E2].
Qed.

(** The cycle check reads the task list through the ids only. *)
Lemma check_cong (tm tm' : TaskManager) :
  task_ids tm = task_ids tm' -> getDependencies tm = getDependencies tm' ->
  checkCircularDependencies tm = checkCircularDependencies tm'.
Proof.
  unfold checkCircularDependencies, task_ids, cycle_fuel; intros Ei Ed; rewrite Ed.
  rewrite <- (length_map id (getTasks tm)), <- (length_map id (getTasks tm')), Ei.
  apply check_from_ids; exact Ei.
Qed.

Lemma hasCycle_no_edges (fuel : nat) (x : TaskId) (vis : list TaskId) :
  exists vis', hasCycle fuel (graph_succ []) x (vis, []) = (false, (vis', [])).
Proof.
  destruct fuel as [|f]; simpl; [eexists; reflexivity|].
  destruct (mem x vis); simpl; [eexists; reflexivity|].
  unfold set_delete; simpl; rewrite TaskId_eqb_refl; simpl; eexists; reflexivity.
Qed.

Lemma check_from_cons (g : TaskId -> list TaskId) (f : nat) (t : Task) (ts : list Task) vr :
  check_from g f (t :: ts) vr =
  let '(b, vr') := hasCycle f g (id t) vr in if b then true else check_from g f ts vr'.
Proof. reflexivity. Qed.

Lemma check_no_edges (tm : TaskManager) :
  getDependencies tm = [] -> checkCircularDependencies tm = false.
Proof.
  unfold checkCircularDependencies; intro E; rewrite E.
  assert (G : forall ts f vis, check_from (graph_succ []) f ts (vis, []) = false).
  2: apply G.
  induction ts as [|t ts IH]; intros f vis; [reflexivity|].
  rewrite check_from_cons; destruct (hasCycle_no_edges f (id t) vis) as [vis' H]; rewrite H; apply IH.
Qed.

Lemma deps_wf_push (tm : TaskManager) (d : Dependency) :
  deps_wf tm -> Forall (fun l => (l < length (depHeap tm ++ [d]))%nat)
                       (dependencies_ tm ++ [length (depHeap tm)]).
Proof.
  intro H; rewrite length_app; simpl; apply Forall_app; split.
  - eapply Forall_impl; [|exact H]; simpl; intros; lia.
  - constructor; [lia | constructor].
Qed.

Lemma deps_wf_grow (tm : TaskManager) (d : Dependency) :
  deps_wf tm -> Forall (fun l => (l < length (depHeap tm ++ [d]))%nat) (dependencies_ tm).
Proof.
  intro H; rewrite length_app; simpl; eapply Forall_impl; [|exact H]; simpl; intros; lia.
Qed.

End DependencyFacts.

(** ** TaskManager: [createDependency] *)
Module CreateDependencyFacts.
Import TaskManager Invariants HeapFacts IdFacts DependencyFacts.

Lemma update_deps_depHeap tm : depHeap (_updateTaskDependencies tm) = depHeap tm.
Proof. reflexivity. Qed.
Lemma update_deps_dependencies tm : dependencies_ (_updateTaskDependencies tm) = dependencies_ tm.
Proof. reflexivity. Qed.
Lemma update_deps_tasks tm : tasks (_updateTaskDependencies tm) = tasks tm.
Proof. reflexivity. Qed.
Lemma update_deps_options tm : options (_updateTaskDependencies tm) = options tm.
Proof. reflexivity. Qed.
Lemma update_deps_getDependencies tm :
  getDependencies (_updateTaskDependencies tm) = getDependencies tm.
Proof. reflexivity. Qed.

Lemma createDependency_unfold tm f t ty lg :
  createDependency tm f t ty lg =
  match find_task tm f, find_task tm t with
  | Some _, Some _ =>
      match find_loc (depHeap tm) (dependencies_ tm)
              (fun d => TaskId_eqb (fromId d) f && TaskId_eqb (toId d) t
                        && DependencyType_eqb (dep_type d) ty) with
      | Some existing => (Some existing, tm)
      | None =>
          let tm1 := pushed tm (mkDependency f t ty lg) in
          if TaskManagerOptions.checkCircularDependencies (options tm)
             && checkCircularDependencies tm1
          then (None, rolled_back tm1)
          else (Some (length (depHeap tm)), tm1)
      end
  | _, _ => (None, tm)
  end.
Proof. reflexivity. Qed.

Lemma pushed_facts tm d (Hwf : deps_wf tm) :
  let tm1 := pushed tm d in
  task_ids tm1 = task_ids tm /\
  getDependencies tm1 = getDependencies tm ++ [d] /\
  depHeap tm1 = depHeap tm ++ [d] /\
  dependencies_ tm1 = dependencies_ tm ++ [length (depHeap tm)] /\
  deps_wf tm1 /\ options tm1 = options tm.
Proof.
  unfold pushed; rewrite update_deps_task_ids, update_deps_getDependencies,
    update_deps_depHeap, update_deps_dependencies, update_deps_options.
  cbn [depHeap dependencies_ options].
  repeat split.
  - unfold getDependencies; cbn [depHeap dependencies_].
    rewrite view_app, view_app_heap by exact Hwf.
    unfold view at 2; simpl; rewrite deref_last; reflexivity.
  - unfold deps_wf; rewrite update_deps_depHeap, update_deps_dependencies; cbn [depHeap dependencies_].
    apply (deps_wf_push tm d Hwf).
Qed.

Lemma rolled_back_facts tm d (Hwf : deps_wf tm) :
  let tm2 := rolled_back (pushed tm d) in
  task_ids tm2 = task_ids tm /\
  getDependencies tm2 = getDependencies tm /\
  depHeap tm2 = depHeap tm ++ [d] /\
  dependencies_ tm2 = dependencies_ tm /\
  deps_wf tm2 /\ options tm2 = options tm.
Proof.
  destruct (pushed_facts tm d Hwf) as (I1 & _ & H1 & D1 & _ & O1); cbv zeta in *.
  unfold rolled_back, deps_wf; rewrite update_deps_task_ids, update_deps_getDependencies,
    ?update_deps_depHeap, ?update_deps_dependencies, ?update_deps_options.
  unfold getDependencies; cbn [depHeap dependencies_ options].
  rewrite H1, D1, O1, removelast_last.
  repeat split.
  - rewrite <- I1, !task_ids_view; reflexivity.
  - apply view_app_heap; exact Hwf.
  - apply deps_wf_grow; exact Hwf.
Qed.

Lemma find_task_cong tm tm' i :
  map id (heap tm) = map id (heap tm') -> tasks tm = tasks tm' -> find_task tm i = find_task tm' i.
Proof.
  intros E T; unfold find_task; rewrite T.
  apply (find_loc_map id (fun x => TaskId_eqb x i)); exact E.
Qed.

Lemma pushed_shape tm d :
  map id (heap (pushed tm d)) = map id (heap tm) /\ tasks (pushed tm d) = tasks tm /\
  options (pushed tm d) = options tm.
Proof.
  unfold pushed; cbv zeta; rewrite update_deps_heap_ids; repeat split.
Qed.

Lemma rolled_back_shape tm1 :
  map id (heap (rolled_back tm1)) = map id (heap tm1) /\ tasks (rolled_back tm1) = tasks tm1 /\
  options (rolled_back tm1) = options tm1.
Proof.
  unfold rolled_back; rewrite update_deps_heap_ids; repeat split.
Qed.

Lemma DependencyType_eqb_refl ty : DependencyType_eqb ty ty = true.
Proof. destruct ty; reflexivity. Qed.

Lemma same_dep_refl f t ty lg : same_dep f t ty (mkDependency f t ty lg) = true.
Proof. unfold same_dep; simpl; rewrite !TaskId_eqb_refl, DependencyType_eqb_refl; reflexivity. Qed.

(** One call keeps the well-formedness, the options and an acyclic graph,
    and a [null] result leaves the dependency list as it was. *)
Lemma createDependency_inv tm f t ty lg :
  deps_wf tm -> TaskManagerOptions.checkCircularDependencies (options tm) = true ->
  checkCircularDependencies tm = false ->
  let r := createDependency tm f t ty lg in
  deps_wf (snd r) /\ TaskManagerOptions.checkCircularDependencies (options (snd r)) = true /\
  checkCircularDependencies (snd r) = false /\
  (fst r = None -> getDependencies (snd r) = getDependencies tm).
Proof.
  intros Hwf Ho Hc; cbv zeta; rewrite createDependency_unfold; cbv zeta.
  destruct (find_task tm f), (find_task tm t); try (cbn [fst snd]; repeat split; auto; fail).
  destruct (find_loc _ _ _); [cbn [fst snd]; repeat split; auto; discriminate|].
  rewrite Ho, andb_true_l.
  destruct (pushed_facts tm (mkDependency f t ty lg) Hwf) as (I1 & G1 & _ & _ & W1 & O1).
  destruct (rolled_back_facts tm (mkDependency f t ty lg) Hwf) as (I2 & G2 & _ & _ & W2 & O2).
  cbv zeta in *.
  destruct (checkCircularDependencies (pushed tm (mkDependency f t ty lg))) eqn:C;
    cbn [fst snd].
  - refine (conj W2 (conj _ (conj _ (fun _ => G2)))).
    + rewrite O2; exact Ho.
    + rewrite (check_cong _ tm I2 G2); exact Hc.
  - refine (conj W1 (conj _ (conj C _))).
    + rewrite O1; exact Ho.
    + discriminate.
Qed.

Lemma run_createDependency_inv tm calls :
  deps_wf tm -> TaskManagerOptions.checkCircularDependencies (options tm) = true ->
  checkCircularDependencies tm = false ->
  let tm' := run_createDependency tm calls in
  deps_wf tm' /\ TaskManagerOptions.checkCircularDependencies (options tm') = true /\
  checkCircularDependencies tm' = false.
Proof.
  unfold run_createDependency; revert tm; induction calls as [|[[[f t] ty] lg] calls IH];
    intros tm Hwf Ho Hc; simpl; [auto|].
  destruct (createDependency_inv tm f t ty lg Hwf Ho Hc) as (W & O & C & _).
  apply IH; auto.
Qed.

(** C1: starting from a manager with no dependencies and the option
    [checkCircularDependencies] on (its default), after every sequence of
    [createDependency] calls [checkCircularDependencies()] returns false,
    and a further call that returns null leaves the dependency list as it
    was (the rejected dependency was rolled back). *)
Theorem C1_acyclicity_invariant (tm0 : TaskManager)
    (calls : list (TaskId * TaskId * DependencyType * Z))
    (Hempty : dependencies_ tm0 = [])
    (Hopt : TaskManagerOptions.checkCircularDependencies (options tm0) = true) :
  let tm := run_createDependency tm0 calls in
  checkCircularDependencies tm = false /\
  (forall f t ty lg, fst (createDependency tm f t ty lg) = None ->
     getDependencies (snd (createDependency tm f t ty lg)) = getDependencies tm).
Proof.
  assert (W0 : deps_wf tm0) by (unfold deps_wf; rewrite Hempty; constructor).
  assert (C0 : checkCircularDependencies tm0 = false).
  { apply check_no_edges; unfold getDependencies; rewrite Hempty; reflexivity. }
  destruct (run_createDependency_inv tm0 calls W0 Hopt C0) as (W & O & C).
  simpl; split; [exact C|].
  intros f t ty lg; apply (createDependency_inv _ f t ty lg W O C).
Qed.

Lemma C1_witness :
  let tm0 := Examples.tm_AB TaskManagerOptions.defaults in
  let calls := [(TStr "A", TStr "B", finish_to_start, 0); (TStr "B", TStr "A", finish_to_start, 0)] in
  (dependencies_ tm0 = [] /\ TaskManagerOptions.checkCircularDependencies (options tm0) = true) /\
  (let tm := run_createDependency tm0 calls in
   checkCircularDependencies tm = false /\
   (forall f t ty lg, fst (createDependency tm f t ty lg) = None ->
      getDependencies (snd (createDependency tm f t ty lg)) = getDependencies tm)).
Proof.
  intros tm0 calls; split; [split; reflexivity|].
  apply (C1_acyclicity_invariant tm0 calls); reflexivity.
Defined.

End CreateDependencyFacts.

(** ** TaskManager: creating the same dependency twice *)
Module CreateTwiceFacts.
Import TaskManager Invariants HeapFacts IdFacts DependencyFacts CreateDependencyFacts.

(** C7: for tasks A and B that both exist (and a well-formed dependency
    list), calling [createDependency(A,B,type)] twice in succession gives
    the same result both times (the same dependency object, or null both
    times when the new edge closes a cycle); across the two calls the
    dependency list grows by exactly the new dependency when no (A, B,
    type) dependency existed before and the first call did not return
    null, and is unchanged otherwise. *)
Theorem C7_create_dependency_twice tm A B ty lg (Hwf : deps_wf tm)
    (HA : find_task tm A <> None) (HB : find_task tm B <> None) :
  let p1 := createDependency tm A B ty lg in
  let p2 := createDependency (snd p1) A B ty lg in
  fst p2 = fst p1 /\
  getDependencies (snd p2) =
    getDependencies tm ++
      match find_loc (depHeap tm) (dependencies_ tm) (same_dep A B ty), fst p1 with
      | None, Some _ => [mkDependency A B ty lg]
      | _, _ => []
      end.
Proof.
  cbv zeta.
  destruct (find_task tm A) as [la|] eqn:FA; [|contradiction].
  destruct (find_task tm B) as [lb|] eqn:FB; [|contradiction].
  set (d := mkDependency A B ty lg).
  assert (U : forall tm', createDependency tm' A B ty lg =
    match find_task tm' A, find_task tm' B with
    | Some _, Some _ =>
        match find_loc (depHeap tm') (dependencies_ tm') (same_dep A B ty) with
        | Some existing => (Some existing, tm')
        | None =>
            if TaskManagerOptions.checkCircularDependencies (options tm')
               && checkCircularDependencies (pushed tm' d)
            then (None, rolled_back (pushed tm' d))
            else (Some (length (depHeap tm')), pushed tm' d)
        end
    | _, _ => (None, tm')
    end) by (intro; reflexivity).
  rewrite (U tm), FA, FB.
  destruct (find_loc (depHeap tm) (dependencies_ tm) (same_dep A B ty)) as [e|] eqn:FE.
  { cbn [fst snd]; rewrite U, FA, FB, FE; cbn [fst snd]; rewrite app_nil_r; split; reflexivity. }
  destruct (pushed_facts tm d Hwf) as (I1 & G1 & H1 & D1 & W1 & O1).
  destruct (pushed_shape tm d) as (M1 & T1 & _).
  cbv zeta in *.
  destruct (TaskManagerOptions.checkCircularDependencies (options tm)
            && checkCircularDependencies (pushed tm d)) eqn:C; cbn [fst snd].
  - (* rejected twice *)
    set (R := rolled_back (pushed tm d)).
    destruct (rolled_back_facts tm d Hwf) as (I2 & G2 & H2 & D2 & W2 & O2).
    destruct (rolled_back_shape (pushed tm d)) as (M2 & T2 & _).
    cbv zeta in *; fold R in I2, G2, H2, D2, W2, O2, M2, T2.
    assert (FR : forall i, find_task R i = find_task tm i).
    { intro i; apply find_task_cong; [rewrite M2; exact M1 | rewrite T2; exact T1]. }
    rewrite U, !FR, FA, FB, H2, D2, find_loc_app_heap, FE by exact Hwf.
    destruct (pushed_facts R d W2) as (I3 & G3 & _ & _ & W3 & O3).
    assert (CC : checkCircularDependencies (pushed R d) = checkCircularDependencies (pushed tm d)).
    { apply check_cong; [rewrite I3, I2, I1; reflexivity | rewrite G3, G2, G1; reflexivity]. }
    rewrite O2, CC, C; cbn [fst snd]; split; [reflexivity|].
    destruct (rolled_back_facts R d W2) as (_ & G4 & _).
    rewrite G4, G2, app_nil_r; reflexivity.
  - (* created, then found *)
    assert (FP : forall i, find_task (pushed tm d) i = find_task tm i).
    { intro i; apply find_task_cong; [exact M1 | exact T1]. }
    rewrite U, !FP, FA, FB, H1, D1, find_loc_app_locs, find_loc_app_heap, FE by exact Hwf.
    cbn [find_loc]; rewrite deref_last; unfold d; rewrite same_dep_refl; cbn [fst snd].
    split; [reflexivity | exact G1].
Qed.

Lemma C7_witness :
  let tm := Examples.tm_AB TaskManagerOptions.defaults in
  (deps_wf tm /\ find_task tm (TStr "A") <> None /\ find_task tm (TStr "B") <> None) /\
  (let p1 := createDependency tm (TStr "A") (TStr "B") finish_to_start 0 in
   let p2 := createDependency (snd p1) (TStr "A") (TStr "B") finish_to_start 0 in
   fst p2 = fst p1 /\
   getDependencies (snd p2) =
     getDependencies tm ++
       match find_loc (depHeap tm) (dependencies_ tm) (same_dep (TStr "A") (TStr "B") finish_to_start),
             fst p1 with
       | None, Some _ => [mkDependency (TStr "A") (TStr "B") finish_to_start 0]
       | _, _ => []
       end).
Proof.
  intro tm.
  assert (W : deps_wf tm) by (vm_compute; constructor).
  assert (HA : find_task tm (TStr "A") <> None) by (vm_compute; discriminate).
  assert (HB : find_task tm (TStr "B") <> None) by (vm_compute; discriminate).
  split; [split; [exact W | split; [exact HA | exact HB]]|].
  exact (C7_create_dependency_twice tm (TStr "A") (TStr "B") finish_to_start 0 W HA HB).
Defined.

End CreateTwiceFacts.

(** ** TaskManager: shape of [createTask] and of the children update *)
Module CreateTaskFacts.
Import TaskManager Invariants HeapFacts IdFacts DependencyFacts.

Lemma update_parent_shape tm p :
  let tm' := _updateParentTaskChildren tm p in
  map id (heap tm') = map id (heap tm) /\ length (heap tm') = length (heap tm) /\
  tasks tm' = tasks tm /\ depHeap tm' = depHeap tm /\ dependencies_ tm' = dependencies_ tm /\
  nextId tm' = nextId tm /\ options tm' = options tm.
Proof.
  unfold _updateParentTaskChildren; destruct (find_task tm p) as [pl|]; [|repeat split].
  destruct (deref (heap tm) pl) as [pt|] eqn:D; [|repeat split].
  unfold set_heap; cbn [heap tasks depHeap dependencies_ nextId options].
  repeat split; [| apply hset_length].
  apply map_hset; intros y E; rewrite D in E; inversion E; reflexivity.
Qed.

Lemma update_parent_task_ids tm p : task_ids (_updateParentTaskChildren tm p) = task_ids tm.
Proof.
  destruct (update_parent_shape tm p) as (M & _ & T & _); cbv zeta in *.
  rewrite !task_ids_view, M, T; reflexivity.
Qed.

Lemma task_ids_push tm nt nid :
  tasks_wf tm ->
  task_ids (mkTM (heap tm ++ [nt]) (tasks tm ++ [length (heap tm)]) (depHeap tm)
                 (dependencies_ tm) nid (options tm)) = task_ids tm ++ [id nt].
Proof.
  intro W; unfold task_ids, getTasks; cbn [heap tasks].
  rewrite view_app, view_app_heap by exact W.
  unfold view at 2; simpl; rewrite deref_last; simpl; rewrite map_app; reflexivity.
Qed.

Lemma tasks_wf_push tm nt nid :
  tasks_wf tm ->
  tasks_wf (mkTM (heap tm ++ [nt]) (tasks tm ++ [length (heap tm)]) (depHeap tm)
                 (dependencies_ tm) nid (options tm)).
Proof.
  unfold tasks_wf; cbn [heap tasks]; intro W; rewrite length_app; simpl.
  apply Forall_app; split.
  - eapply Forall_impl; [|exact W]; simpl; intros; lia.
  - constructor; [lia | constructor].
Qed.

Lemma tasks_wf_update_parent tm p : tasks_wf tm -> tasks_wf (_updateParentTaskChildren tm p).
Proof.
  destruct (update_parent_shape tm p) as (_ & L & T & _); cbv zeta in *.
  unfold tasks_wf; rewrite L, T; auto.
Qed.

Lemma push_or_update tm nt nid tm2 :
  tasks_wf tm ->
  let tm1 := mkTM (heap tm ++ [nt]) (tasks tm ++ [length (heap tm)]) (depHeap tm)
                  (dependencies_ tm) nid (options tm) in
  (tm2 = tm1 \/ exists p, tm2 = _updateParentTaskChildren tm1 p) ->
  task_ids tm2 = task_ids tm ++ [id nt] /\ tasks_wf tm2 /\ nextId tm2 = nid.
Proof.
  intros W tm1 [-> | [p ->]].
  - split; [apply task_ids_push; exact W | split; [apply tasks_wf_push; exact W | reflexivity]].
  - rewrite update_parent_task_ids; split; [apply task_ids_push; exact W | split].
    + apply tasks_wf_update_parent, tasks_wf_push; exact W.
    + destruct (update_parent_shape tm1 p) as (_ & _ & _ & _ & _ & N & _); exact N.
Qed.

(** What [createTask] does to the id bookkeeping. *)
Lemma createTask_ids tm now td :
  tasks_wf tm ->
  let '(l, tm') := createTask tm now td in
  task_ids tm' = task_ids tm ++ [fst (choose_id tm td)] /\ tasks_wf tm' /\
  nextId tm' = snd (choose_id tm td).
Proof.
  intro W; unfold createTask, choose_id.
  destruct (d_id td) as [i|]; [destruct (id_truthy i)|]; cbv beta iota zeta;
    match goal with |- context [heap tm ++ [?x]] => set (nt := x) end;
    (destruct (parentId nt) as [p|]; [destruct (id_truthy p)|]);
    (apply (push_or_update tm nt); [exact W|]);
    first [left; reflexivity | right; eexists; reflexivity].
Qed.

End CreateTaskFacts.

(** ** TaskManager: task ids *)
Module TaskIdFacts.
Import TaskManager Invariants IdFacts CreateTaskFacts.

Lemma gen_loop_spec (fuel : nat) (ids : list TaskId) (n : Z) :
  let r := gen_loop fuel ids n in
  n <= r /\ (forall m, n <= m < r -> In (TNum m) ids) /\
  (~ In (TNum r) ids \/ r = n + Z.of_nat fuel).
Proof.
  revert n; induction fuel as [|f IH]; intro n; simpl.
  - split; [lia | split; [intros; lia | right; lia]].
  - destruct (mem (TNum n) ids) eqn:M.
    + destruct (IH (n + 1)) as (H1 & H2 & H3); cbv zeta in *.
      split; [lia | split].
      * intros m Hm; destruct (Z.eq_dec m n) as [->|Hne]; [apply mem_In; exact M|].
        apply H2; lia.
      * destruct H3 as [H3|H3]; [left; exact H3 | right; lia].
    + split; [lia | split; [intros; lia | left; apply mem_false; exact M]].
Qed.

(** [length ids + 1] consecutive integers cannot all be ids. *)
Lemma no_full_run (ids : list TaskId) (n : Z) :
  ~ (forall m, n <= m < n + Z.of_nat (S (length ids)) -> In (TNum m) ids).
Proof.
  intro H.
  set (L := map (fun k => TNum (n + Z.of_nat k)) (seq 0 (S (length ids)))).
  assert (ND : NoDup L).
  { apply NoDup_map_NoDup_ForallPairs; [|apply seq_NoDup].
    intros a b _ _ E; inversion E; lia. }
  assert (I : incl L ids).
  { intros x Hx; unfold L in Hx; apply in_map_iff in Hx.
    destruct Hx as (k & <- & Hk); apply in_seq in Hk; apply H; lia. }
  pose proof (NoDup_incl_length ND I) as Len.
  unfold L in Len; rewrite length_map, length_seq in Len; lia.
Qed.

Lemma generateId_spec (tm : TaskManager) :
  let n := _generateId tm in
  nextId tm <= n /\ ~ In (TNum n) (task_ids tm) /\
  (forall m, nextId tm <= m < n -> In (TNum m) (task_ids tm)).
Proof.
  unfold _generateId.
  destruct (gen_loop_spec (S (length (task_ids tm))) (task_ids tm) (nextId tm)) as (H1 & H2 & H3).
  cbv zeta in *; split; [exact H1 | split; [|exact H2]].
  destruct H3 as [H3|H3]; [exact H3|].
  exfalso; apply (no_full_run (task_ids tm) (nextId tm)); intros m Hm; apply H2; lia.
Qed.

Lemma NoDup_snoc (l : list TaskId) (x : TaskId) : NoDup l -> ~ In x l -> NoDup (l ++ [x]).
Proof.
  intros N H; apply NoDup_app; [exact N | constructor; [intros [] | constructor] |].
  intros y Hy [<-|[]]; contradiction.
Qed.

(** C9: from a fresh manager, whose bookkeeping holds, every [createTask]
    call whose supplied (truthy) id, if any, is not already a task id
    keeps the ids pairwise distinct (and the bookkeeping), and a call that
    supplies no id gets the smallest positive integer that is not a task
    id. *)
Theorem C9_createTask_ids (o : TaskManagerOptions.t) (tm : TaskManager) (now : Z)
    (td : TaskData) (Hinv : ids_inv tm) (Hfresh : fresh_id tm td) :
  ids_inv (create o) /\
  let '(l, tm') := createTask tm now td in
  ids_inv tm' /\
  (gives_id td = false ->
   exists n, task_ids tm' = task_ids tm ++ [TNum n] /\ 1 <= n /\ ~ In (TNum n) (task_ids tm) /\
             (forall m, 1 <= m < n -> In (TNum m) (task_ids tm))).
Proof.
  split.
  { split; [constructor | split; [constructor | split; [simpl; lia | intros; simpl in *; lia]]]. }
  destruct Hinv as (ND & W & P1 & Below).
  pose proof (createTask_ids tm now td W) as C.
  destruct (createTask tm now td) as [l tm'].
  destruct C as (Ti & W' & Nx).
  destruct (generateId_spec tm) as (G1 & G2 & G3); cbv zeta in G1, G2, G3.
  unfold fresh_id, gives_id, choose_id in *.
  destruct (d_id td) as [i|] eqn:Di; [destruct (id_truthy i) eqn:Ti'|]; simpl in Ti, Nx.
  - assert (Fi : ~ In i (task_ids tm)) by (apply (Hfresh eq_refl); reflexivity).
    split; [|discriminate].
    unfold ids_inv; rewrite Ti, Nx; split; [apply NoDup_snoc; auto | split; [exact W' | split; [exact P1|]]].
    intros m Hm; apply in_or_app; left; apply Below; exact Hm.
  - assert (Bn : forall m, 1 <= m < _generateId tm -> In (TNum m) (task_ids tm)).
    { intros m Hm; destruct (Z_lt_le_dec m (nextId tm)); [apply Below | apply G3]; lia. }
    split.
    + unfold ids_inv; rewrite Ti, Nx; split; [apply NoDup_snoc; auto | split; [exact W' | split; [lia|]]].
      intros m Hm; apply in_or_app; left; apply Bn; exact Hm.
    + intros _; exists (_generateId tm); repeat split; auto; lia.
  - assert (Bn : forall m, 1 <= m < _generateId tm -> In (TNum m) (task_ids tm)).
    { intros m Hm; destruct (Z_lt_le_dec m (nextId tm)); [apply Below | apply G3]; lia. }
    split.
    + unfold ids_inv; rewrite Ti, Nx; split; [apply NoDup_snoc; auto | split; [exact W' | split; [lia|]]].
      intros m Hm; apply in_or_app; left; apply Bn; exact Hm.
    + intros _; exists (_generateId tm); repeat split; auto; lia.
Qed.

Lemma C9_witness :
  let td := Examples.td (TStr "A") None None None in
  (ids_inv Examples.tm0 /\ fresh_id Examples.tm0 td) /\
  (ids_inv (create TaskManagerOptions.defaults) /\
   let '(l, tm') := createTask Examples.tm0 0 td in
   ids_inv tm' /\
   (gives_id td = false ->
    exists n, task_ids tm' = task_ids Examples.tm0 ++ [TNum n] /\ 1 <= n /\
              ~ In (TNum n) (task_ids Examples.tm0) /\
              (forall m, 1 <= m < n -> In (TNum m) (task_ids Examples.tm0)))).
Proof.
  intro td.
  assert (I0 : ids_inv Examples.tm0).
  { split; [constructor | split; [constructor | split; [simpl; lia | intros m Hm; simpl in Hm; lia]]]. }
  assert (F0 : fresh_id Examples.tm0 td) by (intros _ i _ [] ).
  split; [split; [exact I0 | exact F0]|].
  exact (C9_createTask_ids TaskManagerOptions.defaults Examples.tm0 0 td I0 F0).
Defined.

End TaskIdFacts.

(** ** TaskManager: cascade delete *)
Module DeleteFacts.
Import TaskManager Invariants HeapFacts IdFacts DependencyFacts CreateTaskFacts.

Lemma parent_is_true (t : Task) (i : TaskId) : parent_is t i = true <-> parentId t = Some i.
Proof.
  unfold parent_is; destruct (parentId t) as [q|]; split; intro H; try discriminate.
  - apply TaskId_eqb_eq in H; subst; reflexivity.
  - inversion H; apply TaskId_eqb_refl.
Qed.

Lemma descends_step (ts : list Task) (i y : TaskId) :
  descends ts i y <->
  exists c, In c ts /\ parentId c = Some i /\ (y = id c \/ descends ts (id c) y).
Proof.
  split.
  - induction 1 as [t Ht Hp | t p Ht Hp Hd (c & Hc & Hci & Hpc)].
    + exists t; auto.
    + exists c; split; [exact Hc | split; [exact Hci |]]; right.
      destruct Hpc as [->|Hpc].
      * apply desc_direct; auto.
      * apply (desc_indirect ts (id c) t p); auto.
  - intros (c & Hc & Hci & [->|Hd]).
    + apply desc_direct; auto.
    + induction Hd as [t Ht Hp | t p Ht Hp _ IH].
      * apply (desc_indirect ts i t (id c)); auto; apply desc_direct; auto.
      * apply (desc_indirect ts i t p); auto.
Qed.

Section Collect.
Variable ts : list Task.
Variable rank : TaskId -> nat.
Variable root : TaskId.
(** The rank decreases along the [parentId] links below [root] only:
    cycles elsewhere are allowed. *)
Hypothesis Hrank : forall t p, In t ts -> parentId t = Some p ->
  (p = root \/ descends ts root p) -> (rank (id t) < rank p)%nat.

Lemma below_root_child (c : Task) (i : TaskId) :
  In c ts -> parentId c = Some i -> (i = root \/ descends ts root i) ->
  descends ts root (id c).
Proof.
  intros Hc Hp [->|Hi]; [apply desc_direct; auto | apply (desc_indirect ts root c i); auto].
Qed.

(** The number of tasks ranked below [i]: it bounds the depth of the
    recursion from [i]. *)
Let mu (i : TaskId) : nat := length (filter (fun t => Nat.ltb (rank (id t)) (rank i)) ts).

Lemma filter_length_lt (P Q : Task -> bool) (l : list Task) (c : Task) :
  (forall t, In t l -> P t = true -> Q t = true) -> In c l -> Q c = true -> P c = false ->
  (length (filter P l) < length (filter Q l))%nat.
Proof.
  induction l as [|t l IH]; intros H Hc HQ HP; [destruct Hc|].
  assert (Le : forall l', (forall t, In t l' -> P t = true -> Q t = true) ->
                 (length (filter P l') <= length (filter Q l'))%nat).
  { induction l' as [|t' l' IH']; intro H'; simpl; [lia|].
    destruct (P t') eqn:E1; [rewrite (H' t' (or_introl eq_refl) E1); simpl|destruct (Q t'); simpl];
      (assert (IH'' := IH' (fun x Hx => H' x (or_intror Hx))); lia). }
  destruct Hc as [<-|Hc]; simpl.
  - rewrite HP, HQ; simpl.
    assert (X := Le l (fun x Hx => H x (or_intror Hx))); lia.
  - destruct (P t) eqn:E1; [rewrite (H t (or_introl eq_refl) E1); simpl|destruct (Q t); simpl];
      (assert (IH' := IH (fun x Hx => H x (or_intror Hx)) Hc HQ HP); lia).
Qed.

Lemma mu_child (c : Task) (i : TaskId) : In c ts -> parentId c = Some i ->
  (i = root \/ descends ts root i) -> (mu (id c) < mu i)%nat.
Proof.
  intros Hc Hp Hi; unfold mu; pose proof (Hrank c i Hc Hp Hi) as R.
  apply (filter_length_lt _ _ ts c); auto.
  - intros t _ H; apply Nat.ltb_lt in H; apply Nat.ltb_lt; lia.
  - apply Nat.ltb_lt; exact R.
  - apply Nat.ltb_ge; lia.
Qed.

Lemma mu_bound (i : TaskId) : (mu i <= length ts)%nat.
Proof. unfold mu; apply filter_length_le. Qed.

Lemma collect_fold (f : nat) :
  (forall i acc, (i = root \/ descends ts root i) -> (mu i < f)%nat -> NoDup acc ->
     exists acc', collectTasksToDelete f ts i acc = Some acc' /\ NoDup acc' /\
       (forall y, In y acc' <-> In y acc \/ y = i \/ descends ts i y)) ->
  forall cs a, (forall c, In c cs -> descends ts root (id c) /\ (mu (id c) < f)%nat) -> NoDup a ->
  exists a', fold_left (fun oa (c : Task) => match oa with
                                  | Some a => collectTasksToDelete f ts (id c) a
                                  | None => None end) cs (Some a) = Some a' /\
    NoDup a' /\
    (forall y, In y a' <-> In y a \/ exists c, In c cs /\ (y = id c \/ descends ts (id c) y)).
Proof.
  intros IHf cs; induction cs as [|c cs IH]; intros a Hmu Ha; simpl.
  - exists a; split; [reflexivity | split; [exact Ha |]].
    intro y; split; [left; exact H | intros [H|(c & [] & _)]; exact H].
  - destruct (Hmu c (or_introl eq_refl)) as [Hc1 Hc2].
    destruct (IHf (id c) a (or_intror Hc1) Hc2 Ha) as (a1 & E1 & N1 & S1).
    rewrite E1.
    destruct (IH a1 (fun c' Hc' => Hmu c' (or_intror Hc')) N1) as (a2 & E2 & N2 & S2).
    exists a2; split; [exact E2 | split; [exact N2 |]].
    intro y; rewrite S2, S1; split.
    + intros [[H|[H|H]]|(c' & Hc' & H)].
      * left; exact H.
      * right; exists c; split; [left; reflexivity | left; exact H].
      * right; exists c; split; [left; reflexivity | right; exact H].
      * right; exists c'; split; [right; exact Hc' | exact H].
    + intros [H|(c' & [<-|Hc'] & H)].
      * left; left; exact H.
      * left; right; exact H.
      * right; exists c'; split; [exact Hc' | exact H].
Qed.

(** With fuel above the rank count, the recursion of [collectTasksToDelete]
    terminates and collects the id and its descendants. *)
Lemma collect_spec (f : nat) :
  forall i acc, (i = root \/ descends ts root i) -> (mu i < f)%nat -> NoDup acc ->
  exists acc', collectTasksToDelete f ts i acc = Some acc' /\ NoDup acc' /\
    (forall y, In y acc' <-> In y acc \/ y = i \/ descends ts i y).
Proof.
  induction f as [|f IHf]; intros i acc Hi Hf Ha; [lia|].
  cbn [collectTasksToDelete].
  destruct (collect_fold f IHf (filter (fun t => parent_is t i) ts) (set_add i acc))
    as (a' & E & N & S).
  - intros c Hc; apply filter_In in Hc; destruct Hc as [Hc Hp]; apply parent_is_true in Hp.
    split; [apply (below_root_child c i Hc Hp Hi) |].
    pose proof (mu_child c i Hc Hp Hi); lia.
  - apply NoDup_set_add; exact Ha.
  - exists a'; split; [exact E | split; [exact N |]].
    intro y; rewrite S, In_set_add, (descends_step ts i y); split.
    + intros [[H|H]|(c & Hc & H)]; auto.
      apply filter_In in Hc; destruct Hc as [Hc Hp]; apply parent_is_true in Hp.
      right; right; exists c; auto.
    + intros [H|[H|(c & Hc & Hp & H)]]; auto.
      right; exists c; split; [apply filter_In; split; [exact Hc | apply parent_is_true; exact Hp] | exact H].
Qed.

Lemma descends_rank (y : TaskId) : descends ts root y -> (rank y < rank root)%nat.
Proof.
  induction 1 as [t Ht Hp | t p Ht Hp Hd IH].
  - apply (Hrank t root Ht Hp); left; reflexivity.
  - pose proof (Hrank t p Ht Hp (or_intror Hd)); lia.
Qed.

End Collect.

Lemma view_filter {A} (h : list A) (ls : list loc) (q : A -> bool) :
  view h (filter (fun l => match deref h l with Some x => q x | None => true end) ls) =
  filter q (view h ls).
Proof.
  induction ls as [|l ls IH]; [reflexivity|].
  simpl; destruct (deref h l) as [x|] eqn:D.
  - destruct (q x) eqn:Q; rewrite ?view_cons, ?D, IH; simpl; rewrite ?Q; reflexivity.
  - rewrite view_cons, D, IH; reflexivity.
Qed.

Lemma map_filter_comp {A B} (f : A -> B) (q : B -> bool) (l : list A) :
  map f (filter (fun x => q (f x)) l) = filter q (map f l).
Proof.
  induction l as [|x l IH]; [reflexivity|]; simpl; destruct (q (f x)); simpl; rewrite IH; reflexivity.
Qed.

Lemma filter_partition_length {A} (q : A -> bool) (l : list A) :
  (length (filter (fun x => negb (q x)) l) + length (filter q l))%nat = length l.
Proof.
  induction l as [|x l IH]; [reflexivity|]; simpl; destruct (q x); simpl; lia.
Qed.

Lemma length_remove_all (L D : list TaskId) :
  NoDup L -> NoDup D -> incl D L ->
  (length (filter (fun x => negb (mem x D)) L) + length D)%nat = length L.
Proof.
  intros NL ND I.
  assert (E : length (filter (fun x => mem x D) L) = length D).
  { apply Nat.le_antisymm; apply NoDup_incl_length.
    - apply NoDup_filter; exact NL.
    - intros x Hx; apply filter_In in Hx; apply mem_In; apply Hx.
    - exact ND.
    - intros x Hx; apply filter_In; split; [apply I; exact Hx | apply mem_In; exact Hx]. }
  rewrite <- E; apply filter_partition_length.
Qed.

End DeleteFacts.

(** ** TaskManager: [deleteTask] *)
Module DeleteTheorem.
Import TaskManager Invariants HeapFacts IdFacts DependencyFacts CreateTaskFacts DeleteFacts.

Lemma descends_in (ts : list Task) (i y : TaskId) : descends ts i y -> In y (map id ts).
Proof. destruct 1; apply in_map; assumption. Qed.

Lemma find_task_none (tm : TaskManager) (i : TaskId) :
  find_task tm i = None <-> ~ In i (task_ids tm).
Proof.
  unfold find_task, task_ids; rewrite find_loc_none; split.
  - intros H Hi; apply in_map_iff in Hi; destruct Hi as (t & <- & Ht).
    pose proof (H t Ht) as E; rewrite TaskId_eqb_refl in E; discriminate.
  - intros H t Ht; destruct (TaskId_eqb (id t) i) eqn:E; [|reflexivity].
    apply TaskId_eqb_eq in E; subst; exfalso; apply H; apply in_map; exact Ht.
Qed.

Lemma update_parent_keeps tm p :
  task_ids (_updateParentTaskChildren tm p) = task_ids tm /\
  getDependencies (_updateParentTaskChildren tm p) = getDependencies tm.
Proof.
  split; [apply update_parent_task_ids|].
  destruct (update_parent_shape tm p) as (_ & _ & _ & H & D & _); cbv zeta in *.
  unfold getDependencies; rewrite H, D; reflexivity.
Qed.

(** C6: in a manager whose task ids are pairwise distinct and whose
    [parentId] links below [i] are acyclic (some rank decreases from [i]
    and from every descendant of [i] to its children; cycles elsewhere are
    allowed), [deleteTask(i)] on an existing id returns true and
    removes exactly the tasks whose id is [i] or a descendant of [i]
    through [parentId] chains, so the task count drops by 1 plus the
    number of descendants, and removes every dependency whose [fromId] or
    [toId] is a removed id; on an id that is not a task id it returns
    false and changes nothing. *)
Theorem C6_cascade_delete (tm : TaskManager) (i : TaskId) (rank : TaskId -> nat)
    (Hnd : NoDup (task_ids tm))
    (Hrank : forall t p, In t (getTasks tm) -> parentId t = Some p ->
       (p = i \/ descends (getTasks tm) i p) -> (rank (id t) < rank p)%nat) :
  (In i (task_ids tm) ->
   exists del tm', deleteTask tm i = Some (true, tm') /\ NoDup del /\
     (forall y, In y del <-> y = i \/ descends (getTasks tm) i y) /\
     ~ descends (getTasks tm) i i /\
     task_ids tm' = filter (fun x => negb (mem x del)) (task_ids tm) /\
     (length (task_ids tm') + length del = length (task_ids tm))%nat /\
     getDependencies tm' =
       filter (fun d => negb (mem (fromId d) del) && negb (mem (toId d) del)) (getDependencies tm)) /\
  (~ In i (task_ids tm) -> deleteTask tm i = Some (false, tm)).
Proof.
  split.
  2: { intro Hni; unfold deleteTask; apply find_task_none in Hni; rewrite Hni; reflexivity. }
  intro Hi; unfold deleteTask.
  destruct (find_task tm i) as [l|] eqn:F.
  2: { apply find_task_none in F; contradiction. }
  destruct (find_loc_some _ _ _ _ F) as (_ & t & Dt & Et); rewrite Dt.
  destruct (collect_spec (getTasks tm) rank i Hrank (S (length (getTasks tm))) i []
              (or_introl eq_refl))
    as (del & Ed & Nd & Sd).
  { pose proof (mu_bound (getTasks tm) rank i); lia. }
  { constructor. }
  rewrite Ed; cbv zeta.
  set (tm1 := mkTM (heap tm) _ (depHeap tm) _ (nextId tm) (options tm)).
  assert (K : forall X, (X = tm1 \/ exists p, X = _updateParentTaskChildren tm1 p) ->
              task_ids X = task_ids tm1 /\ getDependencies X = getDependencies tm1).
  { intros X [->|[p ->]]; [split; reflexivity | apply update_parent_keeps]. }
  match goal with |- exists _ _, Some (true, ?X) = _ /\ _ => set (tm2 := X) end.
  assert (K2 : task_ids tm2 = task_ids tm1 /\ getDependencies tm2 = getDependencies tm1).
  { apply K; unfold tm2; destruct (parentId t) as [p|]; [destruct (_ && _)|];
      first [left; reflexivity | right; eexists; reflexivity]. }
  destruct K2 as [K2i K2d].
  assert (Sd' : forall y, In y del <-> y = i \/ descends (getTasks tm) i y).
  { intro y; rewrite Sd; simpl; tauto. }
  assert (T1 : task_ids tm1 = filter (fun x => negb (mem x del)) (task_ids tm)).
  { unfold task_ids, getTasks, tm1; cbn [heap tasks].
    rewrite (view_filter (heap tm) (tasks tm) (fun x => negb (mem (id x) del))).
    apply (map_filter_comp id (fun x => negb (mem x del))). }
  exists del, tm2; split; [reflexivity | split; [exact Nd | split; [exact Sd' | split]]].
  - intro Hii; pose proof (descends_rank (getTasks tm) rank i Hrank i Hii); lia.
  - split; [rewrite K2i; exact T1 | split].
    + rewrite K2i, T1; apply length_remove_all; [exact Hnd | exact Nd |].
      intros y Hy; apply Sd' in Hy; destruct Hy as [->|Hy]; [exact Hi | apply (descends_in _ _ _ Hy)].
    + rewrite K2d; unfold getDependencies, tm1; cbn [depHeap dependencies_].
      apply (view_filter (depHeap tm) (dependencies_ tm)
               (fun d => negb (mem (fromId d) del) && negb (mem (toId d) del))).
Qed.

Lemma C6_witness :
  (NoDup (task_ids Examples.tm_PAG) /\
   forall t p, In t (getTasks Examples.tm_PAG) -> parentId t = Some p ->
     (p = TStr "A" \/ descends (getTasks Examples.tm_PAG) (TStr "A") p) ->
     (Examples.rank_PAG (id t) < Examples.rank_PAG p)%nat) /\
  ((In (TStr "A") (task_ids Examples.tm_PAG) ->
    exists del tm', deleteTask Examples.tm_PAG (TStr "A") = Some (true, tm') /\ NoDup del /\
      (forall y, In y del <-> y = TStr "A" \/ descends (getTasks Examples.tm_PAG) (TStr "A") y) /\
      ~ descends (getTasks Examples.tm_PAG) (TStr "A") (TStr "A") /\
      task_ids tm' = filter (fun x => negb (mem x del)) (task_ids Examples.tm_PAG) /\
      (length (task_ids tm') + length del = length (task_ids Examples.tm_PAG))%nat /\
      getDependencies tm' =
        filter (fun d => negb (mem (fromId d) del) && negb (mem (toId d) del))
               (getDependencies Examples.tm_PAG)) /\
   (~ In (TStr "A") (task_ids Examples.tm_PAG) ->
    deleteTask Examples.tm_PAG (TStr "A") = Some (false, Examples.tm_PAG))).
Proof.
  assert (N : NoDup (task_ids Examples.tm_PAG)).
  { vm_compute; repeat constructor; simpl; intuition discriminate. }
  assert (R : forall t p, In t (getTasks Examples.tm_PAG) -> parentId t = Some p ->
                (p = TStr "A" \/ descends (getTasks Examples.tm_PAG) (TStr "A") p) ->
                (Examples.rank_PAG (id t) < Examples.rank_PAG p)%nat).
  { intros t p Ht Hp _; vm_compute in Ht;
      destruct Ht as [<-|[<-|[<-|[]]]]; vm_compute in Hp; inversion Hp; subst;
      vm_compute; lia. }
  split; [split; [exact N | exact R]|].
  exact (C6_cascade_delete Examples.tm_PAG (TStr "A") Examples.rank_PAG N R).
Defined.

End DeleteTheorem.

(** ** The auto-scheduler on acyclic dependencies *)
Module ScheduleFacts.
Import TaskUtils ScheduleSpec IdFacts.
















Section Search.
Variable deps : list Dependency.
Variable taskMap : list (TaskId * Task).
Variable rank : TaskId -> nat.
Hypothesis Hrank : forall d, In d deps -> (rank (fromId d) < rank (toId d))%nat.
Variable U : list TaskId.
Hypothesis HU : forall d, In d deps -> In (fromId d) U.


End Search.




End ScheduleFacts.

(** ** DateUtils: calendar arithmetic, round trips and the month methods *)
Module DateFacts.
Import DateUtils DateMethods.


Fixpoint all_range (n : nat) (lo : Z) (f : Z -> bool) : bool :=
  match n with
  | O => true
  | S k => f lo && all_range k (lo + 1) f
  end.

Lemma all_range_ok n lo f : all_range n lo f = true -> forall x, lo <= x < lo + Z.of_nat n -> f x = true.
Proof.
  revert lo; induction n as [|n IH]; intros lo H x Hx; simpl in *.
  - lia.
  - apply andb_true_iff in H as [H1 H2].
    destruct (Z.eq_dec x lo) as [->|Hne]; [exact H1|].
    apply (IH (lo+1)); [exact H2|lia].
Qed.

Definition civil_ok (z : Z) : bool :=
  let '(y, m, d) := civil_from_days z in
  (1 <=? m) && (m <=? 12) && (1 <=? d) && (d <=? days_in_month y m) && (days_from_civil y m d =? z).

Lemma civil_check : all_range 146097 0 civil_ok = true.
Proof. vm_compute. reflexivity. Qed.

Lemma civil_shift z : civil_from_days (z + 146097) =
  let '(y, m, d) := civil_from_days z in (y + 400, m, d).
Proof.
  unfold civil_from_days. cbv zeta.
  replace (z + 146097 + 719468) with ((z + 719468) + 1 * 146097) by ring.
  rewrite Z_div_plus_full by lia.
  set (A := z + 719468).
  replace (A + 1 * 146097 - (A / 146097 + 1) * 146097) with (A - A / 146097 * 146097) by ring.
  set (doe := A - A / 146097 * 146097).
  destruct (_ <? 10); destruct (_ <=? 2); f_equal; f_equal; ring.
Qed.

Lemma dfc_shift y m d : days_from_civil (y + 400) m d = days_from_civil y m d + 146097.
Proof.
  unfold days_from_civil; cbv zeta.
  destruct (m <=? 2).
  - replace (y + 400 - 1) with ((y - 1) + 1 * 400) by ring.
    rewrite Z_div_plus_full by lia.
    set (B := y - 1).
    replace (B + 1 * 400 - (B / 400 + 1) * 400) with (B - B / 400 * 400) by ring. ring.
  - replace (y + 400) with (y + 1 * 400) by ring.
    rewrite Z_div_plus_full by lia.
    replace (y + 1 * 400 - (y / 400 + 1) * 400) with (y - y / 400 * 400) by ring. ring.
Qed.

Lemma is_leap_shift y : is_leap (y + 400) = is_leap y.
Proof.
  unfold is_leap.
  replace (y + 400) with (y + 100 * 4) by ring. rewrite Z_mod_plus_full.
  replace (y + 100 * 4) with (y + 4 * 100) by ring. rewrite Z_mod_plus_full.
  replace (y + 4 * 100) with (y + 1 * 400) by ring. rewrite Z_mod_plus_full.
  reflexivity.
Qed.

Lemma dim_shift y m : days_in_month (y + 400) m = days_in_month y m.
Proof. unfold days_in_month; rewrite is_leap_shift; reflexivity. Qed.

Lemma periodic_ind (N : Z) (P : Z -> Prop) : 0 < N ->
  (forall z, P z <-> P (z + N)) -> (forall z, 0 <= z < N -> P z) -> forall z, P z.
Proof.
  intros HN Hs Hb z.
  rewrite (Z.div_mod z N) by lia.
  assert (Hr : 0 <= z mod N < N) by (apply Z.mod_pos_bound; lia).
  generalize (z / N) as k; intro k.
  induction k using Z.peano_ind.
  - rewrite Z.mul_0_r, Z.add_0_l; auto.
  - replace (N * Z.succ k + z mod N) with ((N * k + z mod N) + N) by ring.
    exact (proj1 (Hs _) IHk).
  - rewrite <- Z.sub_1_r. apply (proj2 (Hs (N * (k - 1) + z mod N))).
    replace (N * (k - 1) + z mod N + N) with (N * k + z mod N) by ring. exact IHk.
Qed.

Lemma civil_from_days_spec z :
  let '(y, m, d) := civil_from_days z in
  1 <= m <= 12 /\ 1 <= d <= days_in_month y m /\ days_from_civil y m d = z.
Proof.
  revert z. apply (periodic_ind 146097); [lia| |].
  - intro z. rewrite civil_shift. destruct (civil_from_days z) as [[y m] d].
    rewrite dim_shift, dfc_shift. split; intros (A & B & C); repeat split; lia.
  - intros z Hz.
    assert (E : Z.of_nat 146097 = 146097) by (vm_compute; reflexivity).
    pose proof (all_range_ok _ _ _ civil_check z ltac:(rewrite E; lia)) as H.
    unfold civil_ok in H. destruct (civil_from_days z) as [[y m] d].
    repeat rewrite andb_true_iff in H. destruct H as [[[[H1 H2] H3] H4] H5].
    apply Z.leb_le in H1, H2, H3, H4. apply Z.eqb_eq in H5. lia.
Qed.

Definition triple_eqb (a b : Z * Z * Z) : bool :=
  let '(y, m, d) := a in let '(y', m', d') := b in (y =? y') && (m =? m') && (d =? d').

Lemma triple_eqb_ok a b : triple_eqb a b = true -> a = b.
Proof.
  destruct a as [[y m] d], b as [[y' m'] d']; simpl.
  intro H; repeat rewrite andb_true_iff in H; destruct H as [[H1 H2] H3].
  apply Z.eqb_eq in H1, H2, H3; subst; reflexivity.
Qed.

Definition dfc_ok (y : Z) : bool :=
  all_range 12 1 (fun m => all_range (Z.to_nat (days_in_month y m)) 1
    (fun d => triple_eqb (civil_from_days (days_from_civil y m d)) (y, m, d))).

Lemma dfc_check : all_range 400 0 dfc_ok = true.
Proof. vm_compute. reflexivity. Qed.

Lemma dfc_lin y m d : days_from_civil y m d = days_from_civil y m 1 + d - 1.
Proof. unfold days_from_civil; cbv zeta; ring. Qed.

Lemma dim_bounds y m : 28 <= days_in_month y m <= 31.
Proof. unfold days_in_month; destruct (m =? 2); [destruct (is_leap y)|destruct (_ || _)]; split; discriminate. Qed.

Lemma civil_of_dfc y m d : 1 <= m <= 12 -> 1 <= d <= days_in_month y m ->
  civil_from_days (days_from_civil y m d) = (y, m, d).
Proof.
  revert m d. revert y.
  apply (periodic_ind 400 (fun y => forall m d, 1 <= m <= 12 -> 1 <= d <= days_in_month y m ->
    civil_from_days (days_from_civil y m d) = (y, m, d))); [lia| |].
  - intro y. split; intros H m d Hm Hd.
    + rewrite dfc_shift, civil_shift, H; [reflexivity|lia|]. rewrite dim_shift in Hd; lia.
    + pose proof (H m d Hm ltac:(rewrite dim_shift; lia)) as E.
      rewrite dfc_shift, civil_shift in E.
      destruct (civil_from_days (days_from_civil y m d)) as [[a b] c].
      injection E as E1 E2 E3. assert (a = y) by lia. subst; reflexivity.
  - intros y Hy m d Hm Hd.
    pose proof (all_range_ok _ _ _ dfc_check y ltac:(simpl; lia)) as H.
    pose proof (all_range_ok _ _ _ H m ltac:(simpl; lia)) as H'.
    pose proof (dim_bounds y m).
    apply triple_eqb_ok, (all_range_ok _ _ _ H' d). rewrite Z2Nat.id by lia. lia.
Qed.

Definition next_ok (y : Z) : bool :=
  all_range 11 1 (fun m => days_from_civil y (m + 1) 1 =? days_from_civil y m 1 + days_in_month y m)
  && (days_from_civil (y + 1) 1 1 =? days_from_civil y 12 1 + 31).

Lemma next_check : all_range 400 0 next_ok = true.
Proof. vm_compute. reflexivity. Qed.

Lemma dfc_next_month y m : 1 <= m <= 11 ->
  days_from_civil y (m + 1) 1 = days_from_civil y m 1 + days_in_month y m.
Proof.
  revert m. revert y.
  apply (periodic_ind 400 (fun y => forall m, 1 <= m <= 11 ->
    days_from_civil y (m + 1) 1 = days_from_civil y m 1 + days_in_month y m)); [lia| |].
  - intro y. split; intros H m Hm; specialize (H m Hm);
      rewrite ?dfc_shift, ?dim_shift in *; lia.
  - intros y Hy m Hm.
    pose proof (all_range_ok _ _ _ next_check y ltac:(simpl; lia)) as H.
    unfold next_ok in H; apply andb_true_iff in H as [H _].
    apply Z.eqb_eq, (all_range_ok _ _ _ H m); simpl; lia.
Qed.

Lemma dfc_next_year y : days_from_civil (y + 1) 1 1 = days_from_civil y 12 1 + 31.
Proof.
  revert y.
  apply (periodic_ind 400 (fun y => days_from_civil (y + 1) 1 1 = days_from_civil y 12 1 + 31)); [lia| |].
  - intro y. replace (y + 400 + 1) with ((y + 1) + 400) by ring.
    rewrite !dfc_shift. lia.
  - intros y Hy.
    pose proof (all_range_ok _ _ _ next_check y ltac:(simpl; lia)) as H.
    unfold next_ok in H; apply andb_true_iff in H as [_ H]. apply Z.eqb_eq, H.
Qed.

Fixpoint digits_str (n : nat) (v : Z) : string :=
  match n with
  | O => EmptyString
  | S k => String (ascii_of_nat (48 + Z.to_nat ((v / 10 ^ Z.of_nat k) mod 10))) (digits_str k v)
  end.

Lemma digit_char c k : digit c = Some k -> 0 <= k <= 9 /\ c = ascii_of_nat (48 + Z.to_nat k).
Proof.
  unfold digit. destruct ((48 <=? _) && (_ <=? 57)) eqn:E; [|discriminate].
  intro H; injection H as <-. apply andb_true_iff in E as [E1 E2]; apply Z.leb_le in E1, E2.
  split; [lia|].
  replace (48 + Z.to_nat (Z.of_nat (nat_of_ascii c) - 48))%nat with (nat_of_ascii c) by lia.
  symmetry; apply ascii_nat_embedding.
Qed.

Lemma read_digits_spec n acc s v r : 0 <= acc -> read_digits n acc s = Some (v, r) ->
  s = (digits_str n v ++ r)%string /\ acc * 10 ^ Z.of_nat n <= v < (acc + 1) * 10 ^ Z.of_nat n.
Proof.
  revert acc s; induction n as [|k IH]; intros acc s Hacc H; simpl in H.
  - injection H as <- <-. split; [reflexivity|simpl; lia].
  - destruct s as [|c s']; [discriminate|].
    destruct (digit c) as [dc|] eqn:Dc; [|discriminate].
    apply digit_char in Dc as [Hdc ->].
    assert (Hp : 0 < 10 ^ Z.of_nat k) by (apply Z.pow_pos_nonneg; lia).
    destruct (IH (acc * 10 + dc) s' ltac:(lia) H) as [-> [B1 B2]].
    assert (Q : v / 10 ^ Z.of_nat k = acc * 10 + dc).
    { symmetry; apply Z.div_unique with (v - (acc * 10 + dc) * 10 ^ Z.of_nat k); [left; nia | ring]. }
    rewrite Nat2Z.inj_succ, Z.pow_succ_r by lia.
    split; [|nia].
    simpl. rewrite Q.
    replace ((acc * 10 + dc) mod 10) with dc; [reflexivity|].
    rewrite Z.add_comm, Z_mod_plus_full. symmetry; apply Z.mod_small; lia.
Qed.

Lemma read_digits_app n acc p r v : read_digits n acc p = Some (v, EmptyString) ->
  read_digits n acc (p ++ r)%string = Some (v, r).
Proof.
  revert acc p; induction n as [|k IH]; intros acc p H; simpl in *.
  - injection H as E1 E2; subst; reflexivity.
  - destruct p as [|c p']; [discriminate|]. simpl.
    destruct (digit c); [apply IH; exact H|discriminate].
Qed.

Lemma year_check : all_range 9000 1000 (fun y =>
  match read_digits 4 0 (Z_to_string y) with
  | Some (v, EmptyString) => (v =? y) && String.eqb (Z_to_string y) (digits_str 4 y)
  | _ => false
  end) = true.
Proof. vm_compute. reflexivity. Qed.

Lemma pad2_check : all_range 99 1 (fun m =>
  match read_digits 2 0 (pad2 m) with
  | Some (v, EmptyString) => (v =? m) && String.eqb (pad2 m) (digits_str 2 m)
  | _ => false
  end) = true.
Proof. vm_compute. reflexivity. Qed.

Lemma year_digits y : 1000 <= y <= 9999 ->
  read_digits 4 0 (Z_to_string y) = Some (y, EmptyString) /\ Z_to_string y = digits_str 4 y.
Proof.
  intro Hy. pose proof (all_range_ok _ _ _ year_check y ltac:(simpl; lia)) as H.
  cbv beta in H. destruct (read_digits 4 0 (Z_to_string y)) as [[v [|c r]]|]; try discriminate.
  apply andb_true_iff in H as [H1 H2]. apply Z.eqb_eq in H1. apply String.eqb_eq in H2.
  subst; auto.
Qed.

Lemma pad2_digits m : 1 <= m <= 99 ->
  read_digits 2 0 (pad2 m) = Some (m, EmptyString) /\ pad2 m = digits_str 2 m.
Proof.
  intro Hm. pose proof (all_range_ok _ _ _ pad2_check m ltac:(simpl; lia)) as H.
  cbv beta in H. destruct (read_digits 2 0 (pad2 m)) as [[v [|c r]]|]; try discriminate.
  apply andb_true_iff in H as [H1 H2]. apply Z.eqb_eq in H1. apply String.eqb_eq in H2.
  subst; auto.
Qed.

Lemma format_valid z : format (JValid z) =
  let '(y, m, d) := civil_from_days z in (Z_to_string y ++ "-" ++ pad2 m ++ "-" ++ pad2 d)%string.
Proof. reflexivity. Qed.

Lemma parse_format z : (let '(y, _, _) := civil_from_days z in 1000 <= y <= 9999) ->
  parse_iso_date (format (JValid z)) = JValid z.
Proof.
  pose proof (civil_from_days_spec z) as S.
  unfold format. destruct (civil_from_days z) as [[y m] d].
  destruct S as (Hm & Hd & E). intro Hy.
  pose proof (dim_bounds y m).
  destruct (year_digits y Hy) as [Y _].
  destruct (pad2_digits m ltac:(lia)) as [M _].
  destruct (pad2_digits d ltac:(lia)) as [D _].
  unfold parse_iso_date.
  rewrite (read_digits_app _ _ _ _ _ Y). cbn [String.append].
  rewrite (read_digits_app _ _ _ _ _ M). cbn [String.append].
  rewrite D.
  replace ((1 <=? m) && (m <=? 12) && (1 <=? d) && (d <=? days_in_month y m)) with true
    by (symmetry; repeat rewrite andb_true_iff; repeat split; apply Z.leb_le; lia).
  rewrite E; reflexivity.
Qed.

Lemma dfc_bound y m d : -100000 <= y <= 100000 -> 1 <= m <= 12 -> -100 <= d <= 100 ->
  Z.abs (days_from_civil y m d) <= 100000000.
Proof.
  intros. unfold days_from_civil; cbv zeta.
  destruct (m <=? 2); Z.to_euclidean_division_equations; lia.
Qed.

Lemma dfc_next y m : 1 <= m <= 12 ->
  let '(y', m') := next_month y m in
  days_from_civil y' m' 1 = days_from_civil y m 1 + days_in_month y m /\ 1 <= m' <= 12 /\ y <= y' <= y + 1.
Proof.
  intro Hm. unfold next_month. destruct (Z.eqb_spec m 12) as [->|Hne].
  - rewrite dfc_next_year. split; [reflexivity|lia].
  - rewrite dfc_next_month by lia. split; [reflexivity|lia].
Qed.

(** A day [d] of month [m] that may overflow it by less than a month. *)
Lemma civil_overflow y m d : 1 <= m <= 12 -> 1 <= d <= days_in_month y m + 28 ->
  civil_from_days (days_from_civil y m 1 + d - 1) =
  if d <=? days_in_month y m then (y, m, d)
  else let '(y', m') := next_month y m in (y', m', d - days_in_month y m).
Proof.
  intros Hm Hd. destruct (Z.leb_spec d (days_in_month y m)).
  - rewrite <- dfc_lin. apply civil_of_dfc; lia.
  - pose proof (dfc_next y m Hm) as N. destruct (next_month y m) as [y' m'].
    destruct N as (N & Hm' & _).
    replace (days_from_civil y m 1 + d - 1) with (days_from_civil y' m' (d - days_in_month y m))
      by (rewrite dfc_lin, N; ring).
    apply civil_of_dfc; [lia|]. pose proof (dim_bounds y' m'); lia.
Qed.

Lemma month_index y m k : 1 <= m <= 12 ->
  1 <= (m - 1 + k) mod 12 + 1 <= 12 /\
  (k = 1 -> (y + (m - 1 + k) / 12, (m - 1 + k) mod 12 + 1) = next_month y m).
Proof.
  intro Hm. split; [pose proof (Z.mod_pos_bound (m - 1 + k) 12); lia|].
  intros ->. unfold next_month. destruct (Z.eqb_spec m 12) as [->|Hne].
  - reflexivity.
  - rewrite Z.div_small, Z.mod_small by lia. f_equal; ring.
Qed.

Lemma time_clip_ok w : Z.abs w <= 100000000 -> time_clip w = JValid w.
Proof. intro H; unfold time_clip; apply Z.leb_le in H; rewrite H; reflexivity. Qed.

(** X4: in a time zone at UTC or east of it, for a date whose year is
    between 1000 and 9999, [getLastDayOfMonth] overwrites the date object it
    parsed or was given and returns it. The result is the last day of the date's month only when
    the day of month also exists in the next month; otherwise it is the last
    day of the next month (2024-01-31 gives 2024-02-29). *)
Theorem getLastDayOfMonth_spec now h a h1 l z
    (Hp : parseDateArg now h a = (h1, l)) (Hz : date_at h1 l = JValid z)
    (Hy : let '(y, _, _) := civil_from_days z in 1000 <= y <= 9999) :
  exists w, getLastDayOfMonth now h a = (hset h1 l (JValid w), l) /\
  let '(y, m, d) := civil_from_days z in
  let '(y', m') := next_month y m in
  civil_from_days w = if d <=? days_in_month y' m' then (y, m, days_in_month y m)
                      else (y', m', days_in_month y' m').
Proof.
  pose proof (civil_from_days_spec z) as S.
  unfold getLastDayOfMonth. rewrite Hp, Hz. unfold getMonth, setMonth.
  destruct (civil_from_days z) as [[y m] d] eqn:Cz. destruct S as (Hm & Hd & Ez).
  simpl option_map.
  replace (m - 1 + 1) with (m - 1 + 1) by ring.
  destruct (month_index y m 1 Hm) as [_ MI]. specialize (MI eq_refl).
  pose proof (dfc_next y m Hm) as N. destruct (next_month y m) as [y' m'] eqn:NM.
  destruct N as (N & Hm' & Hyy).
  injection MI as E1 E2. rewrite E1, E2.
  pose proof (dim_bounds y m); pose proof (dim_bounds y' m').
  rewrite time_clip_ok by (rewrite <- dfc_lin; apply dfc_bound; lia).
  unfold setDate. rewrite (civil_overflow y' m' d Hm') by lia.
  destruct (Z.leb_spec d (days_in_month y' m')).
  - rewrite time_clip_ok.
    + eexists; split; [reflexivity|].
      replace (days_from_civil y' m' 1 + 0 - 1) with (days_from_civil y m (days_in_month y m))
        by (rewrite N, (dfc_lin y m); ring).
      apply civil_of_dfc; lia.
    + replace (days_from_civil y' m' 1 + 0 - 1) with (days_from_civil y m (days_in_month y m))
        by (rewrite N, (dfc_lin y m); ring).
      apply dfc_bound; lia.
  - pose proof (dfc_next y' m' Hm') as N'. destruct (next_month y' m') as [y'' m''].
    destruct N' as (N' & Hm'' & Hyy').
    rewrite time_clip_ok.
    + eexists; split; [reflexivity|].
      replace (days_from_civil y'' m'' 1 + 0 - 1) with (days_from_civil y' m' (days_in_month y' m'))
        by (rewrite N', (dfc_lin y' m'); ring).
      apply civil_of_dfc; lia.
    + replace (days_from_civil y'' m'' 1 + 0 - 1) with (days_from_civil y' m' (days_in_month y' m'))
        by (rewrite N', (dfc_lin y' m'); ring).
      apply dfc_bound; lia.
Qed.

(** X3: in a time zone at UTC or east of it, for a date whose target year
    (after moving the month) is between 1000 and 9999, [addMonths(date, k)]
    returns a new date object with the month moved by
    [k] (carried into the year) and the same day of month; a day that the
    target month does not have overflows into the following month (2024-01-31
    plus one month is 2024-03-02). The heap is only extended. *)
Theorem addMonths_spec now h a h1 l z k
    (Hp : parseDateArg now h a = (h1, l)) (Hz : date_at h1 l = JValid z)
    (Hy : let '(y, m, _) := civil_from_days z in 1000 <= y + (m - 1 + k) / 12 <= 9999) :
  exists w, addMonths now h a k = (h1 ++ [JValid w], length h1) /\
  let '(y, m, d) := civil_from_days z in
  let y1 := y + (m - 1 + k) / 12 in
  let m1 := (m - 1 + k) mod 12 + 1 in
  civil_from_days w = if d <=? days_in_month y1 m1 then (y1, m1, d)
                      else let '(y2, m2) := next_month y1 m1 in (y2, m2, d - days_in_month y1 m1).
Proof.
  pose proof (civil_from_days_spec z) as S.
  unfold addMonths. rewrite Hp, Hz. unfold getMonth, setMonth.
  destruct (civil_from_days z) as [[y m] d] eqn:Cz. destruct S as (Hm & Hd & Ez).
  simpl option_map.
  replace (m - 1 + k) with (m - 1 + k) by ring.
  destruct (month_index y m k Hm) as [Hm1 _].
  set (y1 := y + (m - 1 + k) / 12) in *. set (m1 := (m - 1 + k) mod 12 + 1) in *.
  pose proof (dim_bounds y m); pose proof (dim_bounds y1 m1).
  rewrite time_clip_ok.
  - eexists; split; [reflexivity|]. apply civil_overflow; lia.
  - destruct (Z.leb_spec d (days_in_month y1 m1)).
    + rewrite <- dfc_lin; apply dfc_bound; lia.
    + pose proof (dfc_next y1 m1 Hm1) as N. destruct (next_month y1 m1) as [y2 m2].
      destruct N as (N & Hm2 & Hyy).
      replace (days_from_civil y1 m1 1 + d - 1) with (days_from_civil y2 m2 (d - days_in_month y1 m1))
        by (rewrite (dfc_lin y2), N; ring).
      apply dfc_bound; lia.
Qed.

Lemma digits_str_length n v : String.length (digits_str n v) = n.
Proof. induction n; simpl; auto. Qed.

Lemma str_length_app (a b : string) : String.length (a ++ b)%string = (String.length a + String.length b)%nat.
Proof. induction a; simpl; auto. Qed.

(** X1: in a time zone at UTC or east of it, for a date [d] on a day whose
    year is between 1000 and 9999, [parseDate(format(d))] is UTC midnight of
    the local calendar day of [d] (the day [JValid z] of the model); for a
    date built from a [YYYY-MM-DD] string it is [d] itself. *)
Theorem parseDate_format now z :
  (let '(y, _, _) := civil_from_days z in 1000 <= y <= 9999) ->
  parseDate now (format (JValid z)) = JValid z.
Proof.
  intro Hy. unfold parseDate. rewrite (parse_format z Hy).
  destruct (String.eqb_spec (format (JValid z)) "") as [E|_]; [|reflexivity].
  unfold format in E. destruct (civil_from_days z) as [[y m] d].
  destruct (year_digits y Hy) as [_ Y]. rewrite Y in E. discriminate.
Qed.

(** X2: in a time zone at UTC or east of it, a 10-character string that the
    ISO date parser reads as a valid date
    (year at least 1000) is parsed by [parseDate] to that date, and [format]
    of that date gives back the same string. *)
Theorem format_parseDate now s z : String.length s = 10%nat -> parse_iso_date s = JValid z ->
  (let '(y, _, _) := civil_from_days z in 1000 <= y) ->
  parseDate now s = JValid z /\ format (JValid z) = s.
Proof.
  intros Hl Hp Hy.
  assert (Hne : String.eqb s "" = false) by (destruct s; [discriminate|reflexivity]).
  split; [unfold parseDate; rewrite Hne, Hp; reflexivity|].
  unfold parse_iso_date in Hp.
  destruct (read_digits 4 0 s) as [[y r]|] eqn:R4; [|discriminate].
  destruct (read_digits_spec _ _ _ _ _ (Z.le_refl 0) R4) as [Es By].
  subst s. rewrite str_length_app, digits_str_length in Hl.
  destruct r as [|c r]; [discriminate|].
  destruct c as [[] [] [] [] [] [] [] []]; try discriminate.
  destruct (read_digits 2 0 r) as [[m r2]|] eqn:R2; [|discriminate].
  destruct (read_digits_spec _ _ _ _ _ (Z.le_refl 0) R2) as [Er Bm].
  subst r. cbn [String.length] in Hl. rewrite str_length_app, digits_str_length in Hl.
  destruct r2 as [|c r2]; [discriminate|].
  destruct c as [[] [] [] [] [] [] [] []]; try discriminate.
  destruct (read_digits 2 0 r2) as [[d r3]|] eqn:R3; [|discriminate].
  destruct (read_digits_spec _ _ _ _ _ (Z.le_refl 0) R3) as [Er3 Bd].
  destruct r3 as [|c r3]; [|discriminate].
  replace (digits_str 2 d ++ "")%string with (digits_str 2 d) in Er3
    by (clear; induction (digits_str 2 d); simpl; congruence). subst r2.
  destruct ((1 <=? m) && (m <=? 12) && (1 <=? d) && (d <=? days_in_month y m)) eqn:C;
    [|discriminate].
  repeat rewrite andb_true_iff in C. destruct C as [[[C1 C2] C3] C4].
  apply Z.leb_le in C1, C2, C3, C4.
  injection Hp as <-.
  unfold format. rewrite (civil_of_dfc y m d ltac:(lia) ltac:(lia)) in Hy |- *.
  simpl Z.of_nat in By, Bm, Bd.
  pose proof (dim_bounds y m).
  destruct (year_digits y ltac:(lia)) as [_ ->].
  destruct (pad2_digits m ltac:(lia)) as [_ ->].
  destruct (pad2_digits d ltac:(lia)) as [_ ->].
  reflexivity.
Qed.

(** X5: in a time zone at UTC or east of it, for a date whose year is
    between 1000 and 9999, [getFirstDayOfMonth] returns the first day of the date's month by
    overwriting the date object it parsed or was given: a [Date] passed in is
    changed in place. *)
Theorem getFirstDayOfMonth_spec now h a h1 l z
    (Hp : parseDateArg now h a = (h1, l)) (Hz : date_at h1 l = JValid z)
    (Hy : let '(y, _, _) := civil_from_days z in 1000 <= y <= 9999) :
  let '(y, m, d) := civil_from_days z in
  getFirstDayOfMonth now h a = (hset h1 l (JValid (z - d + 1)), l) /\
  civil_from_days (z - d + 1) = (y, m, 1).
Proof.
  pose proof (civil_from_days_spec z) as S.
  unfold getFirstDayOfMonth. rewrite Hp, Hz. unfold setDate.
  destruct (civil_from_days z) as [[y m] d] eqn:Cz. destruct S as (Hm & Hd & Ez).
  pose proof (dim_bounds y m).
  assert (Ew : days_from_civil y m 1 + 1 - 1 = z - d + 1) by (rewrite <- Ez, (dfc_lin y m d); ring).
  rewrite Ew, time_clip_ok.
  - split; [reflexivity|]. rewrite <- Ew, <- dfc_lin. apply civil_of_dfc; lia.
  - rewrite <- Ew, <- dfc_lin. apply dfc_bound; lia.
Qed.

(** X6: Among any 7 consecutive days [isWeekday] holds for exactly 5, and it
    returns true on the invalid date. *)
Theorem isWeekday_week now z :
  length (filter (fun k => isWeekday now [JValid (z + k)] (ADate O)) [0; 1; 2; 3; 4; 5; 6]) = 5%nat /\
  (forall h l, date_at h l = JInvalid -> isWeekday now h (ADate l) = true).
Proof.
  split.
  - cbn [filter]. unfold isWeekday, parseDateArg, date_at, deref. cbv beta iota. cbn [nth_error].
    assert (K : forall k, (z + k + 4) mod 7 = ((z + 4) mod 7 + k) mod 7).
    { intro k. rewrite Z.add_mod_idemp_l by lia. f_equal. ring. }
    rewrite !K. pose proof (Z.mod_pos_bound (z + 4) 7 ltac:(lia)).
    destruct (Z.eq_dec ((z + 4) mod 7) 0) as [E|]; [rewrite E; reflexivity|].
    destruct (Z.eq_dec ((z + 4) mod 7) 1) as [E|]; [rewrite E; reflexivity|].
    destruct (Z.eq_dec ((z + 4) mod 7) 2) as [E|]; [rewrite E; reflexivity|].
    destruct (Z.eq_dec ((z + 4) mod 7) 3) as [E|]; [rewrite E; reflexivity|].
    destruct (Z.eq_dec ((z + 4) mod 7) 4) as [E|]; [rewrite E; reflexivity|].
    destruct (Z.eq_dec ((z + 4) mod 7) 5) as [E|]; [rewrite E; reflexivity|].
    replace ((z + 4) mod 7) with 6 by lia. reflexivity.
  - intros h l E. unfold isWeekday, parseDateArg. rewrite E. reflexivity.
Qed.

End DateFacts.

(** ** TaskUtils: overlap, date range and cycle check *)
Module TaskUtilsFacts.
Import DateUtils TaskUtilsMethods.

(** X7: For tasks whose start and end are valid dates written [YYYY-MM-DD]
    (all read at UTC midnight), [tasksOverlap] is symmetric, and when each
    task's start is not after its end it is true exactly when the two closed
    day ranges share a day. *)
Theorem tasksOverlap_days (now : Z) (t1 t2 : Task) (s1 e1 s2 e2 : Z)
    (Hd : forallb ScheduleSpec.date_only [start t1; end_ t1; start t2; end_ t2] = true)
    (H1 : parseDate now (start t1) = JValid s1) (H2 : parseDate now (end_ t1) = JValid e1)
    (H3 : parseDate now (start t2) = JValid s2) (H4 : parseDate now (end_ t2) = JValid e2)
    (Hl1 : s1 <= e1) (Hl2 : s2 <= e2) :
  tasksOverlap now t1 t2 = tasksOverlap now t2 t1 /\
  (tasksOverlap now t1 t2 = true <-> exists x, s1 <= x <= e1 /\ s2 <= x <= e2).
Proof.
  unfold tasksOverlap. rewrite H1, H2, H3, H4. cbn [date_gt].
  split; [rewrite orb_comm; reflexivity|].
  rewrite negb_true_iff, orb_false_iff, !Z.ltb_ge. split.
  - intros [A B]. exists (Z.max s1 s2). lia.
  - intros (x & A & B). lia.
Qed.

Definition dates_ok (now : Z) (t : Task) : Prop :=
  start t <> ""%string /\ end_ t <> ""%string /\
  (exists s, parseDate now (start t) = JValid s) /\ (exists e, parseDate now (end_ t) = JValid e).

Lemma range_fold_valid (now : Z) :
  forall ts a b, Forall (dates_ok now) ts ->
  exists a' b', fold_left (range_step now) ts (JValid a, JValid b, true) = (JValid a', JValid b', true) /\
    (a' = a \/ In (JValid a') (map (fun t => parseDate now (start t)) ts)) /\ a' <= a /\
    Forall (fun t => exists s, parseDate now (start t) = JValid s /\ a' <= s) ts /\
    (b' = b \/ In (JValid b') (map (fun t => parseDate now (end_ t)) ts)) /\ b <= b' /\
    Forall (fun t => exists e, parseDate now (end_ t) = JValid e /\ e <= b') ts.
Proof.
  induction ts as [|t ts IH]; intros a b F.
  - exists a, b. cbn. repeat split; auto; lia.
  - inversion F as [|? ? (Ns & Ne & (s & Hs) & (e & He)) F']; subst.
    cbn [fold_left].
    assert (E : range_step now (JValid a, JValid b, true) t =
                (JValid (if s <? a then s else a), JValid (if b <? e then e else b), true)).
    { unfold range_step. apply String.eqb_neq in Ns, Ne. rewrite Ns, Ne, Hs, He. cbn.
      destruct (s <? a), (b <? e); reflexivity. }
    rewrite E.
    destruct (IH (if s <? a then s else a) (if b <? e then e else b) F')
      as (a' & b' & R & Ia & La & Fa & Ib & Lb & Fb).
    exists a', b'. rewrite R. split; [reflexivity|].
    cbn [map In]. rewrite Hs, He.
    split; [destruct (Z.ltb_spec s a); destruct Ia as [->|]; auto|].
    split; [destruct (Z.ltb_spec s a); lia|].
    split; [constructor; [exists s; split; [exact Hs|destruct (Z.ltb_spec s a); lia]|exact Fa]|].
    split; [destruct (Z.ltb_spec b e); destruct Ib as [->|]; auto|].
    split; [destruct (Z.ltb_spec b e); lia|].
    constructor; [exists e; split; [exact He|destruct (Z.ltb_spec b e); lia]|exact Fb].
Qed.

(** X8: For a non-empty list of tasks whose starts and ends are non-empty and
    parse to valid dates, [calculateAutoDateRange] returns the earliest start
    minus [padding] days and the latest end plus [padding] days. *)
Theorem calculateAutoDateRange_valid (now : Z) (tasks : list Task) (padding : Z)
    (Hne : tasks <> []) (H : Forall (dates_ok now) tasks) :
  exists a b, calculateAutoDateRange now tasks padding = (JValid (a - padding), JValid (b + padding)) /\
    In (JValid a) (map (fun t => parseDate now (start t)) tasks) /\
    Forall (fun t => exists s, parseDate now (start t) = JValid s /\ a <= s) tasks /\
    In (JValid b) (map (fun t => parseDate now (end_ t)) tasks) /\
    Forall (fun t => exists e, parseDate now (end_ t) = JValid e /\ e <= b) tasks.
Proof.
  destruct tasks as [|t ts]; [congruence|].
  inversion H as [|? ? (Ns & Ne & (s & Hs) & (e & He)) F']; subst.
  unfold calculateAutoDateRange. cbn [fold_left].
  assert (E : range_step now (JValid now, JValid now, false) t = (JValid s, JValid e, true)).
  { unfold range_step. apply String.eqb_neq in Ns, Ne. rewrite Ns, Ne, Hs, He. reflexivity. }
  rewrite E.
  destruct (range_fold_valid now ts s e F') as (a' & b' & R & Ia & La & Fa & Ib & Lb & Fb).
  rewrite R. exists a', b'. cbn [addDays map In]. rewrite Hs, He.
  split; [f_equal; f_equal; ring|].
  split; [destruct Ia as [->|]; auto|].
  split; [constructor; [exists s; split; [exact Hs|lia]|exact Fa]|].
  split; [destruct Ib as [->|]; auto|].
  constructor; [exists e; split; [exact He|lia]|exact Fb].
Qed.

Lemma range_fold_earliest_le (now : Z) :
  forall ts a l, a <= now ->
  exists a' l', fold_left (range_step now) ts (JValid a, l, true) = (JValid a', l', true) /\ a' <= now.
Proof.
  induction ts as [|t ts IH]; intros a l Ha; [exists a, l; auto|].
  cbn [fold_left]. unfold range_step at 2.
  destruct (negb (String.eqb (start t) "")); [|apply IH; exact Ha].
  destruct (parseDate now (start t)) as [s|]; cbn [date_gt negb orb]; [|apply IH; exact Ha].
  destruct (Z.ltb_spec s a); apply IH; lia.
Qed.

(** X9: When the first task has no start, the start of the range is never
    after today minus [padding]: today stays in the running minimum whatever
    the later starts are. *)
Theorem calculateAutoDateRange_first_no_start (now : Z) (t : Task) (ts : list Task) (padding : Z)
    (H : start t = ""%string) :
  exists x, fst (calculateAutoDateRange now (t :: ts) padding) = JValid x /\ x <= now - padding.
Proof.
  unfold calculateAutoDateRange. cbn [fold_left].
  assert (E : exists l, range_step now (JValid now, JValid now, false) t = (JValid now, l, true))
    by (unfold range_step; rewrite H; eexists; reflexivity).
  destruct E as [l E]. rewrite E.
  destruct (range_fold_earliest_le now ts now l (Z.le_refl now)) as (a' & l' & R & La).
  rewrite R. exists (a' + - padding). split; [reflexivity|lia].
Qed.

Lemma range_fold_invalid (now : Z) :
  forall ts l, exists l', fold_left (range_step now) ts (JInvalid, l, true) = (JInvalid, l', true).
Proof.
  induction ts as [|t ts IH]; intros l; [exists l; auto|].
  cbn [fold_left]. unfold range_step at 2.
  destruct (negb (String.eqb (start t) "")); [destruct (parseDate now (start t))|]; apply IH.
Qed.

(** X10: When the first task's start is a non-empty string that parses to the
    invalid date, the start of the range is the invalid date whatever the
    later tasks are. *)
Theorem calculateAutoDateRange_first_invalid (now : Z) (t : Task) (ts : list Task) (padding : Z)
    (Hs : start t <> ""%string) (Hi : parseDate now (start t) = JInvalid) :
  fst (calculateAutoDateRange now (t :: ts) padding) = JInvalid.
Proof.
  unfold calculateAutoDateRange. cbn [fold_left].
  assert (E : exists l, range_step now (JValid now, JValid now, false) t = (JInvalid, l, true))
    by (unfold range_step; apply String.eqb_neq in Hs; rewrite Hs, Hi; eexists; reflexivity).
  destruct E as [l E]. rewrite E.
  destruct (range_fold_invalid now ts l) as (l' & R).
  rewrite R. reflexivity.
Qed.

(** X11: [hasCyclicDependencies] returns false on every list of dependencies,
    although its inner [isCyclic] reports the cycle of two dependencies a -> b
    and b -> a. *)
Theorem hasCyclicDependencies_false (deps : list Dependency) (a b : TaskId) (d1 d2 : Dependency)
    (Hab : TaskId_eqb a b = false)
    (H1 : fromId d1 = a /\ toId d1 = b) (H2 : fromId d2 = b /\ toId d2 = a) :
  hasCyclicDependencies deps = false /\
  fst (isCyclic (S (2 * length [d1; d2])) (build_graph [d1; d2]) a ([], [])) = true.
Proof.
  split; [reflexivity|].
  destruct H1 as [F1 T1], H2 as [F2 T2].
  assert (Hba : TaskId_eqb b a = false).
  { destruct (TaskId_eqb b a) eqn:E; [|reflexivity].
    destruct a, b; cbn in E, Hab |- *; try discriminate.
    - apply Z.eqb_eq in E. subst. rewrite Z.eqb_refl in Hab. discriminate.
    - apply String.eqb_eq in E. subst. rewrite String.eqb_refl in Hab. discriminate. }
  assert (Ra : TaskId_eqb a a = true) by (destruct a; cbn; [apply Z.eqb_refl|apply String.eqb_refl]).
  assert (Rb : TaskId_eqb b b = true) by (destruct b; cbn; [apply Z.eqb_refl|apply String.eqb_refl]).
  unfold build_graph. cbn [fold_left graph_push]. rewrite F1, T1, F2, T2.
  cbn [graph_push]. rewrite Hab.
  repeat progress (cbv - [TaskId_eqb]; rewrite ?Ra, ?Rb, ?Hab, ?Hba).
  reflexivity.
Qed.

End TaskUtilsFacts.

(** ** TaskManager: updates, queries and progress *)
Module TaskManagerMethodFacts.
Import TaskManager Invariants HeapFacts IdFacts DependencyFacts TaskManagerMethods.

Lemma findIndex_view {A} (h : list A) (ls : list loc) (p : A -> bool) :
  match findIndex_loc h ls p with
  | None => Forall (fun x => p x = false) (view h ls)
  | Some i => exists pre x post, view h ls = pre ++ x :: post /\
                Forall (fun y => p y = false) pre /\ p x = true /\
                view h (splice1 ls i) = pre ++ post
  end.
Proof.
  induction ls as [|l ls IH]; cbn [findIndex_loc]; [constructor|].
  rewrite view_cons. destruct (deref h l) as [x|] eqn:D.
  - destruct (p x) eqn:P.
    + exists [], x, (view h ls). cbn [splice1]. repeat split; auto.
    + destruct (findIndex_loc h ls p) as [i|]; simpl.
      * destruct IH as (pre & y & post & E & F & Py & V).
        exists (x :: pre), y, post. cbn [splice1 option_map]. rewrite D, E, V.
        repeat split; auto.
      * constructor; auto.
  - destruct (findIndex_loc h ls p) as [i|]; simpl; [|exact IH].
    destruct IH as (pre & y & post & E & F & Py & V).
    exists pre, y, post. cbn [splice1 option_map]. rewrite D. auto.
Qed.

(** X12: [deleteDependency(from, to)] either finds no dependency with these
    ends, returns false and changes nothing, or removes exactly the first such
    dependency, returns true and keeps the task ids. *)
Theorem deleteDependency_spec (tm : TaskManager) (f t : TaskId) :
  let '(b, tm') := deleteDependency tm f t in
  (b = false /\ tm' = tm /\ Forall (fun d => ~ (fromId d = f /\ toId d = t)) (getDependencies tm)) \/
  (b = true /\ exists pre d post,
     getDependencies tm = pre ++ d :: post /\
     Forall (fun d => ~ (fromId d = f /\ toId d = t)) pre /\
     fromId d = f /\ toId d = t /\
     getDependencies tm' = pre ++ post /\ task_ids tm' = task_ids tm).
Proof.
  assert (Hp : forall d, TaskId_eqb (fromId d) f && TaskId_eqb (toId d) t = false ->
                         ~ (fromId d = f /\ toId d = t)).
  { intros d E [E1 E2]. rewrite E1, E2, !TaskId_eqb_refl in E. discriminate. }
  pose proof (findIndex_view (depHeap tm) (dependencies_ tm)
                (fun d => TaskId_eqb (fromId d) f && TaskId_eqb (toId d) t)) as V.
  unfold deleteDependency. destruct (findIndex_loc _ _ _) as [i|].
  - right. split; [reflexivity|].
    destruct V as (pre & d & post & E & F & Pd & V).
    apply andb_true_iff in Pd as [P1 P2]. apply TaskId_eqb_eq in P1, P2.
    exists pre, d, post. split; [exact E|]. split; [eapply Forall_impl; [|exact F]; exact Hp|].
    split; [exact P1|]. split; [exact P2|]. split; [exact V|].
    rewrite update_deps_task_ids. reflexivity.
  - left. repeat split. eapply Forall_impl; [|exact V]. exact Hp.
Qed.

Lemma find_loc_findIndex {A} (h : list A) (ls : list loc) (p : A -> bool) (l : loc) :
  find_loc h ls p = Some l ->
  exists k x, findIndex_loc h ls p = Some k /\ nth_error ls k = Some l /\ deref h l = Some x.
Proof.
  induction ls as [|l' ls IH]; cbn [find_loc findIndex_loc]; [discriminate|].
  destruct (deref h l') as [x|] eqn:D; [destruct (p x)|].
  - intro E; injection E as <-. exists O, x. auto.
  - intro E; destruct (IH E) as (k & y & F & N & Dy). exists (S k), y. rewrite F. auto.
  - intro E; destruct (IH E) as (k & y & F & N & Dy). exists (S k), y. rewrite F. auto.
Qed.

(** X13: [updateTask] on an existing id puts a new task object (the old fields
    overridden by the given ones) in place of the old one in the task list and
    changes nothing else: when [parentId] changes, the [children] of the old
    and new parents are not refreshed. *)
Theorem updateTask_stale (tm : TaskManager) (now : Z) (i : TaskId) (u : TaskData) (l : loc)
    (Hf : find_task tm i = Some l) :
  exists k t t', nth_error (tasks tm) k = Some l /\ deref (heap tm) l = Some t /\
    updateTask tm now i u =
      (Some (length (heap tm)),
       mkTM (heap tm ++ [t']) (hset (tasks tm) k (length (heap tm))) (depHeap tm)
            (dependencies_ tm) (nextId tm) (options tm)) /\
    id t' = match d_id u with Some x => x | None => id t end /\
    parentId t' = match d_parentId u with Some p => Some p | None => parentId t end /\
    children t' = match d_children u with Some c => c | None => children t end.
Proof.
  destruct (find_loc_findIndex _ _ _ _ Hf) as (k & t & F & N & D).
  exists k, t. unfold updateTask. rewrite F, N, D.
  destruct (truthy_str (d_start u)); destruct (truthy_str (d_end u));
    destruct (d_parentId u) as [p|] eqn:P; cbn;
    rewrite ?P, ?TaskId_eqb_refl; cbn;
    (eexists; split; [reflexivity|]; split; [reflexivity|]; split; [reflexivity|];
     cbn; rewrite ?P; auto).
Qed.

Lemma ancestors_loop_closed (tm : TaskManager) (S : list loc)
    (Hc : forall x, In x S -> exists y, parent_step tm x y /\ In y S) :
  forall fuel x acc, In x S -> ancestors_loop fuel tm x acc = None.
Proof.
  induction fuel as [|f IH]; intros x acc Hx; [reflexivity|].
  destruct (Hc x Hx) as (y & (t & p & D & P & T & F) & Hy).
  cbn [ancestors_loop]. rewrite D, P, T, F. apply IH. exact Hy.
Qed.

(** X14: When the parent links from the task lead into a cycle, the loop of
    [getAncestorTasks] never stops. *)
Theorem getAncestorTasks_cycle (tm : TaskManager) (i : TaskId) (l : loc) (S : list loc)
    (Hf : find_task tm i = Some l) (Hl : In l S)
    (Hc : forall x, In x S -> exists y, parent_step tm x y /\ In y S) :
  forall fuel, getAncestorTasks fuel tm i = None.
Proof.
  intro fuel. unfold getAncestorTasks. rewrite Hf.
  exact (ancestors_loop_closed tm S Hc fuel l [] Hl).
Qed.

Lemma ancestors_loop_chain (tm : TaskManager) :
  forall fuel x acc r, ancestors_loop fuel tm x acc = Some r ->
  exists ls, r = acc ++ ls /\ parent_chain tm x ls.
Proof.
  assert (Stop : forall x acc, (forall y, ~ parent_step tm x y) ->
            exists ls, acc = acc ++ ls /\ parent_chain tm x ls).
  { intros x acc N. exists []. rewrite app_nil_r. split; [reflexivity|]. constructor. exact N. }
  induction fuel as [|f IH]; intros x acc r E; [discriminate|].
  cbn [ancestors_loop] in E.
  destruct (deref (heap tm) x) as [t|] eqn:D.
  2:{ injection E as <-. apply Stop. intros y (t & p & D' & _). congruence. }
  destruct (parentId t) as [p|] eqn:P.
  2:{ injection E as <-. apply Stop. intros y (t' & p' & D' & P' & _). congruence. }
  destruct (id_truthy p) eqn:T.
  2:{ injection E as <-. apply Stop. intros y (t' & p' & D' & P' & T' & _). congruence. }
  destruct (find_task tm p) as [pl|] eqn:F.
  2:{ injection E as <-. apply Stop. intros y (t' & p' & D' & P' & T' & F'). congruence. }
  destruct (IH pl (acc ++ [pl]) r E) as (ls & -> & C).
  exists (pl :: ls). rewrite <- app_assoc. split; [reflexivity|].
  apply chain_step; [|exact C]. exists t, p. auto.
Qed.

(** X15: When [getAncestorTasks] stops, it returns the empty list for an
    unknown id and otherwise the chain of parents of the task, from its parent
    upward, until a task whose parent is absent or not found. *)
Theorem getAncestorTasks_sound (fuel : nat) (tm : TaskManager) (i : TaskId) (ls : list loc)
    (H : getAncestorTasks fuel tm i = Some ls) :
  (find_task tm i = None /\ ls = []) \/
  (exists l, find_task tm i = Some l /\ parent_chain tm l ls).
Proof.
  unfold getAncestorTasks in H. destruct (find_task tm i) as [l|].
  - right. exists l. split; [reflexivity|].
    destruct (ancestors_loop_chain tm fuel l [] ls H) as (ls' & -> & C). exact C.
  - left. injection H as <-. auto.
Qed.

Lemma filter_types_perm (l : list Task) :
  Permutation l (filter (fun t => TaskType_eqb (type_ t) task) l ++
                 filter (fun t => TaskType_eqb (type_ t) milestone) l ++
                 filter (fun t => TaskType_eqb (type_ t) project) l).
Proof.
  induction l as [|a l IH]; [constructor|]. cbn [filter].
  destruct (type_ a); cbn [TaskType_eqb].
  - constructor. exact IH.
  - cbn [app]. eapply perm_trans; [apply perm_skip, IH|]. apply Permutation_middle.
  - cbn [app]. eapply perm_trans; [apply perm_skip, IH|].
    rewrite !app_assoc. apply Permutation_middle.
Qed.

(** X16: when every task has its [type] set ([task], [milestone] or
    [project], as the model's tasks do), [getRegularTasks], [getMilestones]
    and [getProjects] together return every task of [getTasks] exactly
    once. *)
Theorem getTasksByType_partition (tm : TaskManager) :
  Permutation (getTasks tm) (getRegularTasks tm ++ getMilestones tm ++ getProjects tm).
Proof. exact (filter_types_perm (getTasks tm)). Qed.

Lemma fold_progress_bounds (h : list Task) (ls : list loc)
    (Hh : Forall (fun t => 0 <= progress t <= 100) h) :
  forall acc, 0 <= acc ->
  0 <= fold_left (fun s l => s + progress_at h l) ls acc <= acc + 100 * Z.of_nat (length ls).
Proof.
  induction ls as [|l ls IH]; intros acc Ha; cbn [fold_left length]; [lia|].
  assert (P : 0 <= progress_at h l <= 100).
  { unfold progress_at, deref. destruct (nth_error h l) as [t|] eqn:E; [|lia].
    rewrite Forall_forall in Hh. apply Hh. eapply nth_error_In. exact E. }
  specialize (IH (acc + progress_at h l) ltac:(lia)). lia.
Qed.

Lemma progress_bounds_check (h : list Task) :
  forallb (fun t => (0 <=? progress t) && (progress t <=? 100)) h = true ->
  Forall (fun t => 0 <= progress t <= 100) h.
Proof.
  intro H. apply Forall_forall. intros t Ht. rewrite forallb_forall in H.
  specialize (H t Ht). apply andb_true_iff in H as [A B]. apply Z.leb_le in A, B. lia.
Qed.

Lemma js_round_div_bounds (tot n : Z) :
  0 <= tot <= 100 * n -> 1 <= n -> 0 <= js_round_div tot n <= 100.
Proof.
  intros B Hn. unfold js_round_div. split.
  - apply Z.div_pos; lia.
  - apply Z.lt_succ_r. apply Z.div_lt_upper_bound; lia.
Qed.

(** X17: When the progress of every task is between 0 and 100,
    [calculateProjectProgress] returns a value between 0 and 100. *)
Theorem calculateProjectProgress_bounds (tm : TaskManager) (pid : TaskId) (v : Z)
    (Hh : Forall (fun t => 0 <= progress t <= 100) (heap tm))
    (H : calculateProjectProgress tm pid = Some v) :
  0 <= v <= 100.
Proof.
  unfold calculateProjectProgress in H.
  destruct (find_loc _ _ _) as [pl|]; [|injection H as <-; lia].
  destruct (deref (heap tm) pl) as [p|]; [|injection H as <-; lia].
  destruct (getDescendantTasks tm pid) as [ds|]; [|discriminate].
  destruct (children p ++ ds) as [|a r] eqn:E; [injection H as <-; lia|].
  change (Some (js_round_div (fold_left (fun s l => s + progress_at (heap tm) l) (a :: r) 0)
                  (Z.of_nat (length (a :: r)))) = Some v) in H.
  assert (Hv : js_round_div (fold_left (fun s l => s + progress_at (heap tm) l) (a :: r) 0)
                  (Z.of_nat (length (a :: r))) = v) by congruence.
  rewrite <- Hv. apply js_round_div_bounds.
  - pose proof (fold_progress_bounds (heap tm) (a :: r) Hh 0 ltac:(lia)). lia.
  - cbn [length]. lia.
Qed.
End TaskManagerMethodFacts.

(** ** TaskManager: the duration of a new task *)
Module CreateTaskDurationFacts.
Import TaskManager HeapFacts CreateTaskFacts DateUtils DateFacts TaskManagerMethods.

Lemma update_parent_dates tm p :
  map (fun t => (start t, end_ t)) (heap (_updateParentTaskChildren tm p)) =
  map (fun t => (start t, end_ t)) (heap tm).
Proof.
  unfold _updateParentTaskChildren. destruct (find_task tm p) as [pl|]; [|reflexivity].
  destruct (deref (heap tm) pl) as [pt|] eqn:D; [|reflexivity].
  unfold set_heap; cbn [heap]. apply map_hset. intros y E. rewrite D in E. injection E as <-.
  reflexivity.
Qed.

Lemma deref_same_dates (h h' : list Task) (l : loc) (t : Task) :
  map (fun t => (start t, end_ t)) h' = map (fun t => (start t, end_ t)) h ->
  deref h l = Some t -> exists t', deref h' l = Some t' /\ start t' = start t /\ end_ t' = end_ t.
Proof.
  unfold deref. intros M D.
  assert (N : nth_error (map (fun t => (start t, end_ t)) h') l = Some (start t, end_ t))
    by (rewrite M, nth_error_map, D; reflexivity).
  rewrite nth_error_map in N. destruct (nth_error h' l) as [t'|]; [|discriminate].
  injection N as E1 E2. exists t'. auto.
Qed.

(** X18: A task created with no start and no end lasts 2 days by
    [calculateTaskDuration] (today to tomorrow, counted inclusively), on
    whatever day the duration is computed (years 1000 to 9999). *)
Theorem createTask_duration (tm : TaskManager) (now : Z) (td : TaskData)
    (Hs : truthy_str (d_start td) = None) (He : truthy_str (d_end td) = None)
    (Hy0 : let '(y, _, _) := civil_from_days now in 1000 <= y <= 9999)
    (Hy1 : let '(y, _, _) := civil_from_days (now + 1) in 1000 <= y <= 9999) :
  let '(l, tm') := createTask tm now td in
  exists t, deref (heap tm') l = Some t /\ forall now', calculateTaskDuration now' t = Some 2.
Proof.
  unfold createTask. rewrite Hs, He. cbv beta iota zeta.
  destruct (match d_id td with
            | Some i => if id_truthy i then (i, nextId tm) else (TNum (_generateId tm), _generateId tm)
            | None => (TNum (_generateId tm), _generateId tm)
            end) as [tid nid].
  match goal with |- context [heap tm ++ [?x]] => set (nt := x) end.
  assert (Hd : forall now', calculateTaskDuration now' nt = Some 2).
  { intro now'. unfold calculateTaskDuration. subst nt; cbn [start end_ addDays].
    rewrite !parseDate_format by assumption. cbn. f_equal. ring. }
  assert (D1 : deref (heap tm ++ [nt]) (length (heap tm)) = Some nt) by apply deref_last.
  destruct (parentId nt) as [p|]; [destruct (id_truthy p)|]; cbn [heap];
    try (exists nt; split; [exact D1|exact Hd]).
  match goal with |- context [_updateParentTaskChildren ?tm1 p] =>
    destruct (deref_same_dates (heap tm1) _ _ _ (update_parent_dates tm1 p) D1) as (t' & D' & S' & E')
  end.
  exists t'. split; [exact D'|]. intro now'. rewrite <- (Hd now').
  unfold calculateTaskDuration. rewrite S', E'. reflexivity.
Qed.

End CreateTaskDurationFacts.

(** ** StateManager: history, listeners and batches *)
Module StateManagerMethodFacts.
Import IdFacts StateManager StateManagerMethods.

Lemma last_tl {A} (l : list A) (d : A) : (2 <= length l)%nat -> last (tl l) d = last l d.
Proof.
  destruct l as [|a [|b l]]; simpl; intros; try lia. reflexivity.
Qed.

Lemma saveToHistory_top {C} (sm : @StateManager C) (Hm : (1 <= _maxHistorySize sm)%nat) :
  _history (_saveToHistory sm) <> [] /\
  forall d, last (_history (_saveToHistory sm)) d = _state sm.
Proof.
  unfold _saveToHistory; simpl.
  destruct (Nat.ltb_spec (_maxHistorySize sm) (length (_history sm ++ [_state sm]))) as [L|L].
  - rewrite length_app in L; simpl in L. split.
    + revert L; destruct (_history sm) as [|a h]; simpl; intro L; [lia|destruct h; discriminate].
    + intro d. rewrite last_tl by (rewrite length_app; simpl; lia). apply last_last.
  - split; [destruct (_history sm); discriminate|]. intro d; apply last_last.
Qed.

(** X19: After [updateTasks(ts)], one [undo()] succeeds and restores the tasks
    and dependencies from before the call, and the redo stack then holds
    exactly the state with [ts]. *)
Theorem updateTasks_undo {C} (bc : StateManagerState -> C)
    (sc : C -> StateManagerState -> VirtualScrollConfig) (sm : StateManager) (ts : list Task)
    (Hm : (1 <= _maxHistorySize sm)%nat) :
  let r := undo bc sc (updateTasks bc sc sm ts) in
  fst r = true /\
  td_of (_state (snd r)) = td_of (_state sm) /\
  map td_of (_future (snd r)) = [(ts, dependencies (_state sm))] /\
  _batchUpdate (snd r) = _batchUpdate sm /\ _pendingActions (snd r) = _pendingActions sm.
Proof.
  destruct (saveToHistory_top sm Hm) as [Hne Hl].
  unfold updateTasks, undo.
  cbn [_history _future _state _batchUpdate _pendingActions _notifySubscribers _initializeCache set_state].
  destruct (_history (_saveToHistory sm)) eqn:E; [contradiction|].
  rewrite <- E in Hl |- *. rewrite Hl. simpl. repeat split; reflexivity.
Qed.

Lemma update_first_twice (ts : list Task) (i : TaskId) (f : Task -> Task)
    (Hid : forall t, id (f t) = id t) (Hinv : forall t, f (f t) = t) :
  update_first (update_first ts i f) i f = ts.
Proof.
  induction ts as [|t r IH]; [reflexivity|]. simpl.
  destruct (TaskId_eqb (id t) i) eqn:E; simpl.
  - rewrite Hid, E, Hinv; reflexivity.
  - rewrite E, IH; reflexivity.
Qed.

Lemma find_update_first (ts : list Task) (i : TaskId) (f : Task -> Task) x
    (Hid : forall t, id (f t) = id t) :
  find (fun t => TaskId_eqb (id t) i) ts = Some x ->
  exists y, find (fun t => TaskId_eqb (id t) i) (update_first ts i f) = Some y.
Proof.
  induction ts as [|t r IH]; simpl; [discriminate|].
  destruct (TaskId_eqb (id t) i) eqn:E; simpl.
  - intros _. rewrite Hid, E. eauto.
  - rewrite E. exact IH.
Qed.

(** X20: when every task has its [collapsed] field set (true or false, as
    the model's tasks do), calling [toggleTaskCollapse] twice with the same
    id gives back the original task list. *)
Theorem toggleTaskCollapse_twice {C} (bc : StateManagerState -> C)
    (sc : C -> StateManagerState -> VirtualScrollConfig) (sm : StateManager) (i : TaskId) :
  StateManager.tasks (_state (toggleTaskCollapse bc sc (toggleTaskCollapse bc sc sm i) i)) =
  StateManager.tasks (_state sm).
Proof.
  assert (Hid : forall t, id (set_collapsed t (negb (collapsed t))) = id t) by reflexivity.
  assert (Hinv : forall t, set_collapsed (set_collapsed t (negb (collapsed t)))
                             (negb (collapsed (set_collapsed t (negb (collapsed t))))) = t).
  { intros []; simpl; rewrite negb_involutive; reflexivity. }
  unfold toggleTaskCollapse at 2.
  destruct (find (fun t => TaskId_eqb (id t) i) (StateManager.tasks (_state sm))) as [x|] eqn:F.
  - destruct (find_update_first _ i _ x Hid F) as [y Fy].
    unfold toggleTaskCollapse. simpl. rewrite Fy. simpl.
    apply update_first_twice; assumption.
  - unfold toggleTaskCollapse. rewrite F. reflexivity.
Qed.

Lemma dispatch_subscribers {C} (bc : StateManagerState -> C)
    (sc : C -> StateManagerState -> VirtualScrollConfig) (sm : StateManager) a :
  _subscribers (dispatch bc sc sm a) = _subscribers sm /\
  exists rest, notified (dispatch bc sc sm a) = notified sm ++ rest /\
               map fst rest = if _batchUpdate sm then [] else _subscribers sm.
Proof.
  unfold dispatch. destruct (_batchUpdate sm); simpl.
  - split; [reflexivity|]. exists []. rewrite app_nil_r. split; reflexivity.
  - split; [reflexivity|]. eexists; split; [reflexivity|].
    rewrite map_map. apply map_id.
Qed.

(** X21: A listener that subscribed and then unsubscribed is not notified by
    any later dispatch. *)
Theorem unsubscribe_silences {C} (bc : StateManagerState -> C)
    (sc : C -> StateManagerState -> VirtualScrollConfig) (sm : StateManager) (k : nat)
    (acts : list GanttAction) :
  let sm1 := unsubscribe (subscribe sm k) k in
  exists rest, notified (dispatch_all bc sc sm1 acts) = notified sm1 ++ rest /\
               ~ In k (map fst rest).
Proof.
  intro sm1.
  assert (Hk : ~ In k (_subscribers sm1)).
  { subst sm1; unfold unsubscribe; simpl. rewrite filter_In. intros [_ H].
    rewrite Nat.eqb_refl in H. discriminate. }
  clearbody sm1. revert sm1 Hk.
  induction acts as [|a acts IH]; intros sm1 Hk; simpl.
  - exists []. rewrite app_nil_r. split; [reflexivity|intros []].
  - destruct (dispatch_subscribers bc sc sm1 a) as [Hs [r1 [Hn Hr1]]].
    rewrite <- Hs in Hk. destruct (IH _ Hk) as [r2 [Hn2 Hr2]].
    exists (r1 ++ r2). rewrite Hn2, Hn, app_assoc. split; [reflexivity|].
    rewrite map_app, in_app_iff, Hr1. intros [H|H]; [|exact (Hr2 H)].
    rewrite Hs in Hk. destruct (_batchUpdate sm1); [exact H|exact (Hk H)].
Qed.

Lemma shift_while_skipn (fuel n : nat) (h : list StateManagerState) :
  (length h <= fuel)%nat -> shift_while fuel n h = skipn (length h - n) h.
Proof.
  revert h; induction fuel as [|f IH]; intros h Hl; simpl.
  - destruct h; simpl in *; [reflexivity|lia].
  - destruct (Nat.ltb_spec n (length h)) as [L|L].
    + destruct h as [|a h]; [simpl in L; lia|].
      change (tl (a :: h)) with h. rewrite IH by (simpl in Hl; lia).
      change (length (a :: h)) with (S (length h)).
      replace (S (length h) - n)%nat with (S (length h - n)) by (simpl in L; lia).
      reflexivity.
    + replace (length h - n)%nat with 0%nat by lia. reflexivity.
Qed.

(** X22: [setMaxHistorySize(n)] with [n > 0] keeps the [n] most recent history
    entries and sets the capacity to [n]; with [n <= 0] it changes nothing.
    The state, the redo stack and the notifications are untouched. *)
Theorem setMaxHistorySize_spec {C} (sm : @StateManager C) (size : Z) :
  let sm' := setMaxHistorySize sm size in
  _history sm' = (if 0 <? size
                  then skipn (length (_history sm) - Z.to_nat size) (_history sm)
                  else _history sm) /\
  _maxHistorySize sm' = (if 0 <? size then Z.to_nat size else _maxHistorySize sm) /\
  _state sm' = _state sm /\ _future sm' = _future sm /\ notified sm' = notified sm.
Proof.
  unfold setMaxHistorySize. destruct (0 <? size); simpl; [|repeat split].
  rewrite shift_while_skipn by lia. repeat split.
Qed.

(** X23: After [clearHistory], [undo()] and [redo()] both return false and
    change nothing, however many times they are called. *)
Theorem clearHistory_undo_redo {C} (bc : StateManagerState -> C)
    (sc : C -> StateManagerState -> VirtualScrollConfig) (sm : StateManager) (n : nat) :
  fst (undo bc sc (clearHistory sm)) = false /\ fst (redo bc sc (clearHistory sm)) = false /\
  undo_n bc sc n (clearHistory sm) = clearHistory sm /\
  redo_n bc sc n (clearHistory sm) = clearHistory sm.
Proof.
  repeat split; [| ]; induction n as [|n IH]; simpl; auto.
Qed.

Lemma queue_adds {C} (bc : StateManagerState -> C)
    (sc : C -> StateManagerState -> VirtualScrollConfig) (sm : StateManager) (ts : list Task)
    (Hb : _batchUpdate sm = true)
    (Hnew : forall t, In t ts -> existsb (fun x => TaskId_eqb (id x) (id t))
                                   (StateManager.tasks (_state sm)) = false) :
  fold_left (fun sm t =>
     if existsb (fun x => TaskId_eqb (id x) (id t)) (StateManager.tasks (_state sm))
     then dispatch bc sc sm (UPDATE_TASK (id t) (task_updates t))
     else dispatch bc sc sm (ADD_TASK t)) ts sm =
  set_batch sm true (_pendingActions sm ++ map ADD_TASK ts).
Proof.
  revert sm Hb Hnew; induction ts as [|t ts IH]; intros sm Hb Hnew; simpl.
  - rewrite app_nil_r. destruct sm; simpl in *; subst; reflexivity.
  - rewrite (Hnew t (or_introl eq_refl)). replace (dispatch bc sc sm (ADD_TASK t)) with (set_batch sm true (_pendingActions sm ++ [ADD_TASK t]))
      by (unfold dispatch; rewrite Hb; reflexivity).
    rewrite IH; [| reflexivity | intros u Hu; exact (Hnew u (or_intror Hu))].
    simpl. rewrite <- app_assoc. reflexivity.
Qed.

Lemma handle_adds (s : StateManagerState) (ts : list Task) :
  fold_left _handleAction (map ADD_TASK ts) s = with_tasks s (StateManager.tasks s ++ ts).
Proof.
  revert s; induction ts as [|t ts IH]; intro s; simpl.
  - rewrite app_nil_r. destruct s; reflexivity.
  - rewrite IH. simpl. rewrite <- app_assoc. reflexivity.
Qed.

(** X24: [batchUpdateTasks] with a non-empty list of tasks whose ids are all
    new appends them to the task list as one history entry, empties the redo
    stack and leaves batch mode with no pending actions. *)
Theorem batchUpdateTasks_new {C} (bc : StateManagerState -> C)
    (sc : C -> StateManagerState -> VirtualScrollConfig) (sm : StateManager) (ts : list Task)
    (Hne : ts <> [])
    (Hnew : forall t, In t ts -> existsb (fun x => TaskId_eqb (id x) (id t))
                                   (StateManager.tasks (_state sm)) = false) :
  let sm' := batchUpdateTasks bc sc sm ts in
  StateManager.tasks (_state sm') = StateManager.tasks (_state sm) ++ ts /\
  StateManager.dependencies (_state sm') = StateManager.dependencies (_state sm) /\
  _history sm' = _history (_saveToHistory sm) /\ _future sm' = [] /\
  _batchUpdate sm' = false /\ _pendingActions sm' = [].
Proof.
  unfold batchUpdateTasks. rewrite queue_adds by (reflexivity || exact Hnew).
  unfold commitBatchUpdate. simpl.
  destruct ts as [|t ts']; [contradiction|]. simpl.
  rewrite handle_adds. repeat split. simpl. rewrite <- app_assoc. reflexivity.
Qed.

Lemma handle_nodup (s : StateManagerState) (a : GanttAction) :
  NoDup (selectedTaskIds s) -> NoDup (selectedTaskIds (_handleAction s a)).
Proof.
  intro H; destruct a; simpl; auto.
  - destruct (mem taskId (selectedTaskIds s)) eqn:M; [exact H|].
    simpl. apply TaskIdFacts.NoDup_snoc; [exact H | apply mem_false; exact M].
  - apply NoDup_filter; exact H.
Qed.

(** X25: If the selected task ids have no duplicate, they have none after any
    sequence of dispatched actions. *)
Theorem selected_nodup {C} (bc : StateManagerState -> C)
    (sc : C -> StateManagerState -> VirtualScrollConfig) (sm : StateManager)
    (acts : list GanttAction) (H : NoDup (selectedTaskIds (_state sm))) :
  NoDup (selectedTaskIds (_state (dispatch_all bc sc sm acts))).
Proof.
  revert sm H; induction acts as [|a acts IH]; intros sm H; simpl; [exact H|].
  apply IH. unfold dispatch. destruct (_batchUpdate sm); simpl; [exact H|].
  apply handle_nodup; exact H.
Qed.
End StateManagerMethodFacts.

(** ** Concrete instances of the properties above *)
Module DateWitnesses.
Import DateUtils DateMethods DateFacts.
Local Open Scope string_scope.

Lemma parseDate_format_witness :
  (let '(y, _, _) := civil_from_days 19753 in 1000 <= y <= 9999) /\
  parseDate 0 (format (JValid 19753)) = JValid 19753.
Proof.
  assert (H : let '(y, _, _) := civil_from_days 19753 in 1000 <= y <= 9999)
    by (vm_compute; split; intro E; discriminate E).
  split; [exact H | exact (parseDate_format 0 19753 H)].
Defined.

Lemma format_parseDate_witness :
  String.length "2024-01-31" = 10%nat /\ parse_iso_date "2024-01-31" = JValid 19753 /\
  parseDate 0 "2024-01-31" = JValid 19753 /\ format (JValid 19753) = "2024-01-31".
Proof.
  assert (L : String.length "2024-01-31" = 10%nat) by reflexivity.
  assert (P : parse_iso_date "2024-01-31" = JValid 19753) by (vm_compute; reflexivity).
  split; [exact L|]. split; [exact P|].
  apply (format_parseDate 0 "2024-01-31" 19753 L P). vm_compute. intro E; discriminate E.
Defined.

Lemma addMonths_witness :
  parseDateArg 0 [] (AStr "2024-01-31") = ([JValid 19753], O) /\
  exists w, addMonths 0 [] (AStr "2024-01-31") 1 = ([JValid 19753; JValid w], 1%nat) /\
            civil_from_days w = (2024, 3, 2).
Proof.
  assert (P : parseDateArg 0 [] (AStr "2024-01-31") = ([JValid 19753], O))
    by (vm_compute; reflexivity).
  split; [exact P|].
  destruct (addMonths_spec 0 [] (AStr "2024-01-31") [JValid 19753] O 19753 1 P eq_refl
              ltac:(vm_compute; split; intro E; discriminate E)) as (w & E & C).
  exists w. split; [exact E|]. rewrite C. vm_compute. reflexivity.
Defined.

Lemma getLastDayOfMonth_witness :
  parseDateArg 0 [] (AStr "2024-01-31") = ([JValid 19753], O) /\
  exists w, getLastDayOfMonth 0 [] (AStr "2024-01-31") = ([JValid w], O) /\
            civil_from_days w = (2024, 2, 29).
Proof.
  assert (P : parseDateArg 0 [] (AStr "2024-01-31") = ([JValid 19753], O))
    by (vm_compute; reflexivity).
  split; [exact P|].
  destruct (getLastDayOfMonth_spec 0 [] (AStr "2024-01-31") [JValid 19753] O 19753 P eq_refl
              ltac:(vm_compute; split; intro E; discriminate E)) as (w & E & C).
  exists w. split; [exact E|]. rewrite C. vm_compute. reflexivity.
Defined.

Lemma getFirstDayOfMonth_witness :
  getFirstDayOfMonth 0 [JValid 19753] (ADate O) = ([JValid 19723], O) /\
  civil_from_days 19723 = (2024, 1, 1).
Proof.
  pose proof (getFirstDayOfMonth_spec 0 [JValid 19753] (ADate O) [JValid 19753] O 19753
                eq_refl eq_refl ltac:(vm_compute; split; intro E; discriminate E)) as H.
  vm_compute in H. exact H.
Defined.

End DateWitnesses.

Module TaskUtilsWitnesses.
Import DateUtils TaskUtilsMethods TaskUtilsFacts Examples.
Local Open Scope string_scope.

Lemma tasksOverlap_days_witness :
  tasksOverlap 0 (ex_task 1 "2024-01-01" "2024-01-05") (ex_task 2 "2024-01-03" "2024-01-08") = true /\
  exists x, 19723 <= x <= 19727 /\ 19725 <= x <= 19730.
Proof.
  destruct (tasksOverlap_days 0 (ex_task 1 "2024-01-01" "2024-01-05")
              (ex_task 2 "2024-01-03" "2024-01-08") 19723 19727 19725 19730
              ltac:(vm_compute; reflexivity)
              ltac:(vm_compute; reflexivity) ltac:(vm_compute; reflexivity)
              ltac:(vm_compute; reflexivity) ltac:(vm_compute; reflexivity)
              ltac:(lia) ltac:(lia)) as [_ I].
  split; [vm_compute; reflexivity|]. apply I. vm_compute. reflexivity.
Defined.

Lemma calculateAutoDateRange_valid_witness :
  exists a b, calculateAutoDateRange 0 sched_tasks 7 = (JValid (a - 7), JValid (b + 7)) /\
    In (JValid a) (map (fun t => parseDate 0 (start t)) sched_tasks) /\
    Forall (fun t => exists s, parseDate 0 (start t) = JValid s /\ a <= s) sched_tasks /\
    In (JValid b) (map (fun t => parseDate 0 (end_ t)) sched_tasks) /\
    Forall (fun t => exists e, parseDate 0 (end_ t) = JValid e /\ e <= b) sched_tasks.
Proof.
  apply calculateAutoDateRange_valid; [discriminate|].
  repeat constructor; cbn [start end_ sched_tasks ex_task]; try discriminate;
    eexists; vm_compute; reflexivity.
Defined.

Lemma calculateAutoDateRange_first_no_start_witness :
  exists x, fst (calculateAutoDateRange 19800 [ex_task 1 "" "2024-01-05"; ex_task 2 "2024-01-03" "2024-01-08"] 7)
            = JValid x /\ x <= 19800 - 7.
Proof.
  apply calculateAutoDateRange_first_no_start. reflexivity.
Defined.

Lemma calculateAutoDateRange_first_invalid_witness :
  fst (calculateAutoDateRange 0 [ex_task 1 "a-b-c" "2024-01-05"; ex_task 2 "2024-01-03" "2024-01-08"] 7)
    = JInvalid.
Proof.
  apply calculateAutoDateRange_first_invalid; [discriminate | vm_compute; reflexivity].
Defined.

Lemma hasCyclicDependencies_false_witness :
  hasCyclicDependencies [dep12; dep21] = false /\
  fst (isCyclic (S (2 * length [dep12; dep21])) (build_graph [dep12; dep21]) (TNum 1) ([], [])) = true.
Proof.
  apply (hasCyclicDependencies_false [dep12; dep21] (TNum 1) (TNum 2) dep12 dep21);
    [reflexivity | split; reflexivity | split; reflexivity].
Defined.

End TaskUtilsWitnesses.

Module TaskManagerWitnesses.
Import TaskManager TaskManagerMethods TaskManagerMethodFacts Examples.
Local Open Scope string_scope.

Lemma updateTask_stale_witness :
  find_task tm_PAG (TStr "G") = Some 2%nat /\
  exists k t t', nth_error (tasks tm_PAG) k = Some 2%nat /\ deref (heap tm_PAG) 2%nat = Some t /\
    updateTask tm_PAG 0 (TStr "G") (td (TStr "G") None (Some (TStr "P")) None) =
      (Some (length (heap tm_PAG)),
       mkTM (heap tm_PAG ++ [t']) (hset (tasks tm_PAG) k (length (heap tm_PAG))) (depHeap tm_PAG)
            (dependencies_ tm_PAG) (nextId tm_PAG) (options tm_PAG)) /\
    id t' = TStr "G" /\ parentId t' = Some (TStr "P") /\ children t' = children t.
Proof.
  assert (F : find_task tm_PAG (TStr "G") = Some 2%nat) by (vm_compute; reflexivity).
  split; [exact F|].
  exact (updateTask_stale tm_PAG 0 (TStr "G") (td (TStr "G") None (Some (TStr "P")) None) 2%nat F).
Defined.

Lemma getAncestorTasks_cycle_witness :
  find_task tm_parent_cycle (TStr "A") = Some O /\
  forall fuel, getAncestorTasks fuel tm_parent_cycle (TStr "A") = None.
Proof.
  assert (F : find_task tm_parent_cycle (TStr "A") = Some O) by (vm_compute; reflexivity).
  split; [exact F|].
  apply (getAncestorTasks_cycle tm_parent_cycle (TStr "A") O [O; 1%nat] F); [left; reflexivity|].
  intros x [<-|[<-|[]]].
  - exists 1%nat. split; [|right; left; reflexivity].
    exists (nth 0 (heap tm_parent_cycle) (ex_task 0 "" "")), (TStr "B").
    vm_compute. repeat split.
  - exists O. split; [|left; reflexivity].
    exists (nth 1 (heap tm_parent_cycle) (ex_task 0 "" "")), (TStr "A").
    vm_compute. repeat split.
Defined.

Lemma getAncestorTasks_sound_witness :
  getAncestorTasks 4 tm_PAG (TStr "G") = Some [1%nat; O] /\
  ((find_task tm_PAG (TStr "G") = None /\ [1%nat; O] = []) \/
   (exists l, find_task tm_PAG (TStr "G") = Some l /\ parent_chain tm_PAG l [1%nat; O])).
Proof.
  assert (H : getAncestorTasks 4 tm_PAG (TStr "G") = Some [1%nat; O]) by (vm_compute; reflexivity).
  split; [exact H | exact (getAncestorTasks_sound 4 tm_PAG (TStr "G") [1%nat; O] H)].
Defined.

Lemma calculateProjectProgress_bounds_witness :
  calculateProjectProgress tm_PAG (TStr "P") = Some 30 /\ 0 <= 30 <= 100.
Proof.
  assert (H : calculateProjectProgress tm_PAG (TStr "P") = Some 30) by (vm_compute; reflexivity).
  split; [exact H|].
  apply (calculateProjectProgress_bounds tm_PAG (TStr "P") 30); [|exact H].
  apply progress_bounds_check. vm_compute. reflexivity.
Defined.

End TaskManagerWitnesses.

Module StateManagerWitnesses.
Import StateManager StateManagerMethods StateManagerMethodFacts Examples.
Local Open Scope string_scope.

Lemma updateTasks_undo_witness :
  (1 <= _maxHistorySize (sm_init tt example_state))%nat /\
  let r := undo unit_caches keep_scroll
             (updateTasks unit_caches keep_scroll (sm_init tt example_state) sched_tasks) in
  fst r = true /\
  td_of (_state (snd r)) = td_of example_state /\
  map td_of (_future (snd r)) = [(sched_tasks, StateManager.dependencies example_state)] /\
  _batchUpdate (snd r) = false /\ _pendingActions (snd r) = [].
Proof.
  assert (Hm : (1 <= _maxHistorySize (sm_init tt example_state))%nat) by (simpl; lia).
  split; [exact Hm|].
  exact (updateTasks_undo unit_caches keep_scroll (sm_init tt example_state) sched_tasks Hm).
Defined.

Lemma batchUpdateTasks_new_witness :
  let sm' := batchUpdateTasks unit_caches keep_scroll (sm_init tt example_state) sched_tasks in
  StateManager.tasks (_state sm') = sched_tasks /\
  StateManager.dependencies (_state sm') = [] /\
  _history sm' = [example_state] /\ _future sm' = [] /\
  _batchUpdate sm' = false /\ _pendingActions sm' = [].
Proof.
  apply (batchUpdateTasks_new unit_caches keep_scroll (sm_init tt example_state) sched_tasks).
  - discriminate.
  - intros t _. reflexivity.
Defined.

Lemma selected_nodup_witness :
  NoDup (selectedTaskIds (_state (dispatch_all unit_caches keep_scroll (sm_init tt example_state)
           [SELECT_TASK (TNum 1); SELECT_TASK (TNum 1)]))).
Proof.
  apply selected_nodup. constructor.
Defined.

End StateManagerWitnesses.

Module CreateTaskDurationWitnesses.
Import TaskManager TaskManagerMethods DateUtils Examples CreateTaskDurationFacts.
Local Open Scope string_scope.

Lemma createTask_duration_witness :
  exists t, deref (heap (snd (createTask tm0 19723 (td (TStr "X") None None None)))) O = Some t /\
            forall now', calculateTaskDuration now' t = Some 2.
Proof.
  pose proof (createTask_duration tm0 19723 (td (TStr "X") None None None) eq_refl eq_refl
                ltac:(vm_compute; split; intro E; discriminate E)
                ltac:(vm_compute; split; intro E; discriminate E)) as H.
  exact H.
Defined.

End CreateTaskDurationWitnesses.
